(** * ccanalyser: the slice-filtering engine of [tools/filter.py]

    A shallow embedding of [SliceFilter], [CCSliceFilter],
    [TriCSliceFilter] and [TiledCSliceFilter].  A pandas DataFrame of
    slices is a list of rows in table order; every filter replaces the
    held table by a selection of its rows; a Python exception is the
    [Raise] branch of [result]. *)

From Stdlib Require Import List String Ascii ZArith Bool Lia Permutation.
From Stdlib Require Import Sorted OrderedTypeEx.
Import ListNotations.
Local Open Scope string_scope.
Local Open Scope Z_scope.
Local Open Scope list_scope.

(** ** Exceptions and the error monad *)

Inductive exn : Type :=
| KeyError (msg : string)
| ValueError (msg : string)
| AttributeError (name : string)
| TypeError
| IndexingError.

Inductive result (A : Type) : Type :=
| Ok (a : A)
| Raise (e : exn).

Arguments Ok {A} a.
Arguments Raise {A} e.

Definition bind {A B : Type} (r : result A) (k : A -> result B) : result B :=
  match r with
  | Ok a => k a
  | Raise e => Raise e
  end.

Notation "x <- r ;; k" := (bind r (fun x => k))
  (at level 61, r at next level, right associativity).

(** ** Cells and rows *)

(** A cell of the [restriction_fragment] column: an integer identifier, or
    a string such as the sentinel ["."]. *)
Inductive cell : Type :=
| Int (z : Z)
| Str (s : string).

Definition cell_eqb (a b : cell) : bool :=
  match a, b with
  | Int x, Int y => x =? y
  | Str x, Str y => String.eqb x y
  | _, _ => false
  end.

Record slice_row : Type := {
  slice_name : string;
  parent_read : string;
  pe : string;
  mapped : Z;
  multimapped : Z;
  slice : Z;
  chrom : string;
  start : Z;
  end_ : Z;
  capture : string;
  capture_count : Z;
  exclusion : string;
  exclusion_count : Z;
  blacklist : Z;
  restriction_fragment : cell;
  coordinates : string
}.

Definition table := list slice_row.

(** The input DataFrame: [df_columns] is the header the schema check
    reads, [df_rows] the rows. *)
Record dataframe : Type := {
  df_columns : list string;
  df_rows : table
}.

(** ** The pandas operations the filters use *)

Module Pandas.

Section Generic.
Context {A : Type}.

(** [sort_values] on several keys is a stable sort; [le a b] says that
    [a] does not come after [b]. *)
Fixpoint insert_row (le : A -> A -> bool) (x : A) (l : list A) : list A :=
  match l with
  | [] => [x]
  | y :: l' => if le x y then x :: y :: l' else y :: insert_row le x l'
  end.

Definition sort_values (le : A -> A -> bool) (l : list A) : list A :=
  fold_right (insert_row le) [] l.

Context (eqb : A -> A -> bool).

Definition isin (x : A) (l : list A) : bool := existsb (eqb x) l.

(** [Series.unique]: distinct values in order of first appearance. *)
Fixpoint unique (l : list A) : list A :=
  match l with
  | [] => []
  | x :: l' => x :: filter (fun y => negb (eqb x y)) (unique l')
  end.

Definition nunique (l : list A) : nat := List.length (unique l).
End Generic.

Section Keyed.
Context {A K : Type} (eqb : K -> K -> bool) (key : A -> K).

(** [drop_duplicates(subset=key, keep="first")], scanning with the keys
    seen so far. *)
Fixpoint drop_duplicates_from (seen : list K) (l : list A) : list A :=
  match l with
  | [] => []
  | x :: l' =>
      if isin eqb (key x) seen then drop_duplicates_from seen l'
      else x :: drop_duplicates_from (key x :: seen) l'
  end.

Definition drop_duplicates (l : list A) : list A := drop_duplicates_from [] l.

(** [df[df.duplicated(subset=key)]]: the rows whose key occurred in an
    earlier row. *)
Fixpoint duplicated_from (seen : list K) (l : list A) : list A :=
  match l with
  | [] => []
  | x :: l' =>
      if isin eqb (key x) seen then x :: duplicated_from seen l'
      else duplicated_from (key x :: seen) l'
  end.

Definition duplicated (l : list A) : list A := duplicated_from [] l.
End Keyed.

(** [col.sum()]: the total of the column.  numpy adds [int64] values and
    wraps around past the bounds; the total given here is the column sum
    as long as it lies within them, which is the case of the 0/1 flags
    and counts the slice tables hold. *)
Definition sum (l : list Z) : Z := fold_right Z.add 0 l.

(** [(col > 0).sum()] *)
Definition count_positive (l : list Z) : Z :=
  Z.of_nat (List.length (filter (fun z => 0 <? z) l)).

(** [sep.join(l)] *)
Fixpoint join (sep : string) (l : list string) : string :=
  match l with
  | [] => ""
  | [x] => x
  | x :: l' => (x ++ sep ++ join sep l')%string
  end.

(** [str.split] on single-character separators: the pieces between
    separators, at least one piece. *)
Fixpoint split_chars (seps : list ascii) (s : string) : list string :=
  match s with
  | EmptyString => [""]
  | String c s' =>
      if existsb (Ascii.eqb c) seps then "" :: split_chars seps s'
      else match split_chars seps s' with
           | [] => [String c ""]
           | p :: ps => String c p :: ps
           end
  end.

(** [str.contains(sub)] for a pattern without metacharacters. *)
Fixpoint str_contains (sub s : string) : bool :=
  String.prefix sub s ||
  match s with
  | EmptyString => false
  | String _ s' => str_contains sub s'
  end.

(** [range(lo, hi)] *)
Definition range (lo hi : Z) : list Z :=
  map (fun i => lo + Z.of_nat i) (seq 0 (Z.to_nat (hi - lo))).

End Pandas.

Import Pandas.

Definition option_eqb {A : Type} (eqb : A -> A -> bool) (a b : option A) : bool :=
  match a, b with
  | Some x, Some y => eqb x y
  | None, None => true
  | _, _ => false
  end.

Definition pair_eqb {A B : Type} (ea : A -> A -> bool) (eb : B -> B -> bool)
  (a b : A * B) : bool :=
  ea (fst a) (fst b) && eb (snd a) (snd b).

(** Lexicographic row orders of the two [sort_values] calls. *)
Definition string_then (a b : string) (k : bool) : bool :=
  match String.compare a b with
  | Lt => true
  | Eq => k
  | Gt => false
  end.

(** [["parent_read", "slice"]] *)
Definition by_parent_read_slice (a b : slice_row) : bool :=
  string_then (parent_read a) (parent_read b) (slice a <=? slice b).

(** [["parent_read", "chrom", "start"]] *)
Definition by_parent_read_chrom_start (a b : slice_row) : bool :=
  string_then (parent_read a) (parent_read b)
    (string_then (chrom a) (chrom b) (start a <=? start b)).

(** [groupby("parent_read", sort=False)]: one group per parent read, in
    order of first appearance, each with its rows in table order. *)
Definition group_rows (p : string) (t : table) : table :=
  filter (fun s => String.eqb (parent_read s) p) t.

Definition groupby_parent_read (t : table) : list (string * table) :=
  map (fun p => (p, group_rows p t)) (unique String.eqb (map parent_read t)).

(** ** [SliceFilter]: the base class *)

(** The columns of the fragment table that the base class reads; each
    variant's [fragments] property provides them. *)
Class FragmentRow (F : Type) : Type := {
  frag_parent_read : F -> string;
  frag_unique_slices : F -> Z;
  frag_pe : F -> string;
  frag_coordinates : F -> string
}.

Definition stats := list (string * Z).
Definition stages := list (string * list string).

Definition dquote : string := String (ascii_of_nat 34) "".

Module SliceFilter.

Definition columns_required : list string :=
  [ "slice_name"; "parent_read"; "pe"; "mapped"; "multimapped"; "slice";
    "chrom"; "start"; "end"; "capture"; "capture_count"; "exclusion";
    "blacklist"; "coordinates" ].

Definition missing_column_message (col : string) : string :=
  ("Required column " ++ dquote ++ col ++ dquote
     ++ " not in slices dataframe")%string.

Fixpoint check_columns (required columns : list string) : result unit :=
  match required with
  | [] => Ok tt
  | col :: rest =>
      if isin String.eqb col columns then check_columns rest columns
      else Raise (KeyError (missing_column_message col))
  end.

Definition _check_required_columns_present (df : dataframe) : result unit :=
  check_columns columns_required (df_columns df).

Record t : Type := {
  slices : table;
  filter_stages : stages;
  _filter_stats : list (string * stats);
  sample_name : string;
  read_type : string
}.

(** [__init__]; a [None] or empty [filter_stages] is falsy. *)
Definition __init__ (df : dataframe) (filter_stages : option stages)
  (sample_name read_type : string) : result t :=
  _ <- _check_required_columns_present df ;;
  let slices := sort_values by_parent_read_slice (df_rows df) in
  match filter_stages with
  | Some (st :: sts) =>
      Ok {| slices := slices; filter_stages := st :: sts; _filter_stats := [];
            sample_name := sample_name; read_type := read_type |}
  | _ => Raise (ValueError "Filter stages not provided")
  end.

(** [s.str[i]] on the pieces of a split. *)
Definition str_get (i : nat) (pieces : option (list string)) : option string :=
  match pieces with
  | Some l => nth_error l i
  | None => None
  end.

Definition str_get_last (pieces : option (list string)) : option string :=
  match pieces with
  | Some l => hd_error (rev l)
  | None => None
  end.

Definition str_split (seps : list ascii) (s : option string) : option (list string) :=
  option_map (split_chars seps) s.

Definition bar : ascii := ascii_of_nat 124.
Definition colon : ascii := ascii_of_nat 58.
Definition dash : ascii := ascii_of_nat 45.

Definition read_start (coords : string) : option string :=
  str_get 1 (str_split [colon; dash] (str_get 0 (str_split [bar] (Some coords)))).

Definition read_end (coords : string) : option string :=
  str_get_last (str_split [colon; dash] (str_get_last (str_split [bar] (Some coords)))).

Definition read_ends_eqb : option string * option string ->
                           option string * option string -> bool :=
  pair_eqb (option_eqb String.eqb) (option_eqb String.eqb).

Section Filters.
Context {F : Type} `{FragmentRow F}.
(** The overriding [fragments] property and the outcome of
    [sample(frac=1)]. *)
Variable fragments : table -> list F.
Variable sample : list F -> list F.

Definition slices_of_fragments (frags : list F) (t : table) : table :=
  filter (fun s => isin String.eqb (parent_read s) (map frag_parent_read frags)) t.

Definition get_raw_slices (t : table) : table := t.

Definition remove_unmapped_slices (t : table) : table :=
  filter (fun s => mapped s =? 1) t.

Definition remove_orphan_slices (t : table) : table :=
  let fragments_multislice :=
    filter (fun f => 1 <? frag_unique_slices f) (fragments t) in
  slices_of_fragments fragments_multislice t.

Definition remove_duplicate_re_frags (t : table) : table :=
  drop_duplicates (pair_eqb String.eqb cell_eqb)
    (fun s => (parent_read s, restriction_fragment s)) t.

Definition remove_slices_without_re_frag_assigned (t : table) : table :=
  filter (fun s => negb (cell_eqb (restriction_fragment s) (Str "."))) t.

Definition remove_duplicate_slices (t : table) : table :=
  let frags_deduplicated :=
    drop_duplicates String.eqb frag_coordinates (sample (fragments t)) in
  slices_of_fragments frags_deduplicated t.

Definition read_ends (f : F) : option string * option string :=
  (read_start (frag_coordinates f), read_end (frag_coordinates f)).

Definition remove_duplicate_slices_pe (t : table) : table :=
  if 1 <? Z.of_nat (List.length
               (filter (fun s => str_contains "unflashed" (pe s)) t))
  then
    let fragments_pe :=
      filter (fun f => String.eqb (frag_pe f) "unflashed") (fragments t) in
    let fragments_pe_duplicated :=
      duplicated read_ends_eqb read_ends fragments_pe in
    filter (fun s => negb (isin String.eqb (parent_read s)
                             (map frag_parent_read fragments_pe_duplicated))) t
  else t.

Definition remove_excluded_slices (t : table) : table :=
  filter (fun s => exclusion_count s <? 1) t.

Definition remove_blacklisted_slices (t : table) : table :=
  filter (fun s => blacklist s <? 1) t.

Definition pure_op (f : table -> table) : table -> result table :=
  fun t => Ok (f t).

Definition methods : list (string * (table -> result table)) :=
  [ ("get_raw_slices", pure_op get_raw_slices);
    ("remove_unmapped_slices", pure_op remove_unmapped_slices);
    ("remove_orphan_slices", pure_op remove_orphan_slices);
    ("remove_duplicate_re_frags", pure_op remove_duplicate_re_frags);
    ("remove_slices_without_re_frag_assigned",
      pure_op remove_slices_without_re_frag_assigned);
    ("remove_duplicate_slices", pure_op remove_duplicate_slices);
    ("remove_duplicate_slices_pe", pure_op remove_duplicate_slices_pe);
    ("remove_excluded_slices", pure_op remove_excluded_slices);
    ("remove_blacklisted_slices", pure_op remove_blacklisted_slices) ].
End Filters.

(** [getattr(self, filt)] over the filter methods of a class, own methods
    before inherited ones. *)
Fixpoint getattr (methods : list (string * (table -> result table)))
  (filt : string) : result (table -> result table) :=
  match methods with
  | [] => Raise (AttributeError filt)
  | (name, m) :: rest => if String.eqb name filt then Ok m else getattr rest filt
  end.

(** [self._filter_stats[stage] = ...]: a new column, or the existing one
    replaced. *)
Fixpoint set_column (stage : string) (v : stats) (cols : list (string * stats))
  : list (string * stats) :=
  match cols with
  | [] => [(stage, v)]
  | (k, w) :: rest =>
      if String.eqb k stage then (k, v) :: rest
      else (k, w) :: set_column stage v rest
  end.

Section Executor.
Variable methods : list (string * (table -> result table)).
Variable slice_stats : table -> result stats.

Fixpoint run_filters (filters : list string) (t : table) : result table :=
  match filters with
  | [] => Ok t
  | filt :: rest =>
      m <- getattr methods filt ;;
      t' <- m t ;;
      run_filters rest t'
  end.

Fixpoint run_stages (sts : stages) (t : table) (acc : list (string * stats))
  : result (table * list (string * stats)) :=
  match sts with
  | [] => Ok (t, acc)
  | (stage, filters) :: rest =>
      t' <- run_filters filters t ;;
      st <- slice_stats t' ;;
      run_stages rest t' (set_column stage st acc)
  end.

Definition filter_slices (self : t) : result t :=
  r <- run_stages (filter_stages self) (slices self) (_filter_stats self) ;;
  Ok {| slices := fst r; filter_stages := filter_stages self;
        _filter_stats := snd r; sample_name := sample_name self;
        read_type := read_type self |}.
End Executor.

End SliceFilter.

(** ** [CCSliceFilter]: the standard capture variant *)

Module Fragment.
Record t : Type := {
  parent_read : string;
  unique_slices : Z;
  pe : string;
  mapped : Z;
  multimapped : Z;
  unique_capture_sites : Z;
  capture_count : Z;
  unique_exclusion_sites : Z;
  exclusion_count : Z;
  unique_restriction_fragments : Z;
  blacklisted_slices : Z;
  coordinates : string;
  reporter_count : Z
}.
End Fragment.

#[export] Instance Fragment_row : FragmentRow Fragment.t := {
  frag_parent_read := Fragment.parent_read;
  frag_unique_slices := Fragment.unique_slices;
  frag_pe := Fragment.pe;
  frag_coordinates := Fragment.coordinates
}.

Definition nuniqueZ {A : Type} (eqb : A -> A -> bool) (l : list A) : Z :=
  Z.of_nat (nunique eqb l).

(** The [agg] of a slice table: the result [Series] as label/value pairs. *)
Definition stat_row (label : string) (v : Z) : string * Z := (label, v).

Fixpoint mapM {A B : Type} (f : A -> result B) (l : list A) : result (list B) :=
  match l with
  | [] => Ok []
  | x :: l' => y <- f x ;; ys <- mapM f l' ;; Ok (y :: ys)
  end.

(** The integers of a table are numpy [int64] values: arithmetic on them
    wraps around at the bounds. *)
Definition int64_min : Z := - 2 ^ 63.
Definition int64_max : Z := 2 ^ 63 - 1.

Definition wrap_int64 (z : Z) : Z := (z - int64_min) mod 2 ^ 64 + int64_min.

Definition in_int64 (z : Z) : bool := (int64_min <=? z) && (z <=? int64_max).

(** [frag + modifier] on a cell, for a modifier that is an [int64] value:
    [int64] addition, a [TypeError] on a string. *)
Definition add_modifier (frag : cell) (modifier : Z) : result cell :=
  match frag with
  | Int z => Ok (Int (wrap_int64 (z + modifier)))
  | Str _ => Raise TypeError
  end.

Module CCSliceFilter.

Definition default_stages : stages :=
  [ ("pre-filtering", ["get_raw_slices"]);
    ("mapped", ["remove_unmapped_slices"]);
    ("contains_single_capture",
      ["remove_orphan_slices"; "remove_multi_capture_fragments"]);
    ("contains_capture_and_reporter",
      ["remove_excluded_slices"; "remove_blacklisted_slices";
       "remove_non_reporter_fragments"; "remove_multicapture_reporters"]);
    ("duplicate_filtered",
      ["remove_slices_without_re_frag_assigned"; "remove_duplicate_re_frags";
       "remove_duplicate_slices"; "remove_duplicate_slices_pe";
       "remove_non_reporter_fragments"]) ].

Definition __init__ (df : dataframe) (filter_stages : option stages)
  (sample_name read_type : string) : result SliceFilter.t :=
  let filter_stages :=
    match filter_stages with
    | Some (st :: sts) => st :: sts
    | _ => default_stages
    end in
  SliceFilter.__init__ df (Some filter_stages) sample_name read_type.

Definition aggregate (g : string * table) : Fragment.t :=
  let rows := snd g in
  let capture_n := nuniqueZ String.eqb (map capture rows) in
  let exclusion_n := nuniqueZ String.eqb (map exclusion rows) in
  let mapped_sum := sum (map mapped rows) in
  let capture_count_sum := sum (map capture_count rows) in
  let exclusion_count_sum := sum (map exclusion_count rows) in
  let blacklist_sum := sum (map blacklist rows) in
  {| Fragment.parent_read := fst g;
     Fragment.unique_slices := nuniqueZ Z.eqb (map slice rows);
     Fragment.pe := hd "" (map pe rows);
     Fragment.mapped := mapped_sum;
     Fragment.multimapped := sum (map multimapped rows);
     Fragment.unique_capture_sites := capture_n - 1;
     Fragment.capture_count := capture_count_sum;
     Fragment.unique_exclusion_sites := exclusion_n - 1;
     Fragment.exclusion_count := exclusion_count_sum;
     Fragment.unique_restriction_fragments :=
       nuniqueZ cell_eqb (map restriction_fragment rows);
     Fragment.blacklisted_slices := blacklist_sum;
     Fragment.coordinates := join "|" (map coordinates rows);
     Fragment.reporter_count :=
       if 0 <? capture_count_sum
       then mapped_sum - (exclusion_count_sum + capture_count_sum + blacklist_sum)
       else 0 |}.

Definition fragments (t : table) : list Fragment.t :=
  map aggregate
    (groupby_parent_read (sort_values by_parent_read_chrom_start t)).

Section Agg.
Context {X : Type} (eqb : X -> X -> bool).

Definition agg_slices (slice_name_col parent_read_col capture_col : list X)
  (mapped_col multimapped_col capture_count_col exclusion_count_col
     blacklist_col : list Z) : stats :=
  [ stat_row "unique_slices" (nuniqueZ eqb slice_name_col);
    stat_row "unique_fragments" (nuniqueZ eqb parent_read_col);
    stat_row "mapped" (sum mapped_col);
    stat_row "multimapping_slices" (sum multimapped_col);
    stat_row "unique_capture_sites" (nuniqueZ eqb capture_col);
    stat_row "number_of_capture_slices" (count_positive capture_count_col);
    stat_row "number_of_slices_in_exclusion_region"
      (count_positive exclusion_count_col);
    stat_row "number_of_slices_in_blacklisted_region" (sum blacklist_col) ].
End Agg.

(** On an empty table every column is first replaced by
    [np.zeros((10,))], whatever it held. *)
Definition slice_stats (t : table) : stats :=
  match t with
  | [] =>
      let zeros := repeat 0 10 in
      agg_slices Z.eqb zeros zeros zeros zeros zeros zeros zeros zeros
  | _ =>
      agg_slices String.eqb (map slice_name t) (map parent_read t)
        (map capture t) (map mapped t) (map multimapped t)
        (map capture_count t) (map exclusion_count t) (map blacklist t)
  end.

Definition reporters (t : table) : table :=
  filter (fun s => String.eqb (capture s) ".") t.

Definition captures (t : table) : table :=
  filter (fun s => negb (String.eqb (capture s) ".")) t.

Definition remove_non_reporter_fragments (t : table) : table :=
  let frags_reporter :=
    filter (fun f => 0 <? Fragment.reporter_count f) (fragments t) in
  SliceFilter.slices_of_fragments frags_reporter t.

Definition remove_multi_capture_fragments (t : table) : table :=
  let frags_capture :=
    filter (fun f => (0 <? Fragment.unique_capture_sites f)
                     && (Fragment.unique_capture_sites f <? 2))
      (fragments t) in
  SliceFilter.slices_of_fragments frags_capture t.

Definition excluded_fragments (n_adjacent : Z) (re_frags : list cell)
  : result (list cell) :=
  mapM (fun fm => add_modifier (fst fm) (snd fm))
    (flat_map (fun frag => map (pair frag) (range (- n_adjacent) (n_adjacent + 1)))
       re_frags).

Definition remove_multicapture_reporters (n_adjacent : Z) (t : table)
  : result table :=
  let re_frags := unique cell_eqb (map restriction_fragment (captures t)) in
  excluded <- excluded_fragments n_adjacent re_frags ;;
  Ok (filter (fun s => (0 <? capture_count s)
                       || negb (isin cell_eqb (restriction_fragment s) excluded)) t).

Section Methods.
Variable sample : list Fragment.t -> list Fragment.t.

Definition methods : list (string * (table -> result table)) :=
  [ ("remove_non_reporter_fragments",
      SliceFilter.pure_op remove_non_reporter_fragments);
    ("remove_multi_capture_fragments",
      SliceFilter.pure_op remove_multi_capture_fragments);
    ("remove_multicapture_reporters", remove_multicapture_reporters 1) ]
  ++ SliceFilter.methods fragments sample.

Definition filter_slices (self : SliceFilter.t) : result SliceFilter.t :=
  SliceFilter.filter_slices methods (fun t => Ok (slice_stats t)) self.
End Methods.

End CCSliceFilter.

(** ** [TriCSliceFilter] *)

Module TriCSliceFilter.

Definition default_stages : stages :=
  [ ("pre-filtering", ["get_raw_slices"]);
    ("mapped",
      ["remove_unmapped_slices"; "remove_slices_without_re_frag_assigned"]);
    ("contains_single_capture",
      ["remove_orphan_slices"; "remove_multi_capture_fragments"]);
    ("contains_capture_and_reporter",
      ["remove_blacklisted_slices"; "remove_non_reporter_fragments"]);
    ("duplicate_filtered",
      ["remove_duplicate_re_frags"; "remove_duplicate_slices";
       "remove_duplicate_slices_pe"; "remove_non_reporter_fragments"]);
    ("tric_reporter", ["remove_slices_with_one_reporter"]) ].

Definition __init__ (df : dataframe) (filter_stages : option stages)
  (sample_name read_type : string) : result SliceFilter.t :=
  let filter_stages :=
    match filter_stages with
    | Some (st :: sts) => st :: sts
    | _ => default_stages
    end in
  CCSliceFilter.__init__ df (Some filter_stages) sample_name read_type.

Definition remove_slices_with_one_reporter (t : table) : table :=
  let fragments_triplets :=
    filter (fun f => 1 <? Fragment.reporter_count f) (CCSliceFilter.fragments t) in
  SliceFilter.slices_of_fragments fragments_triplets t.

Section Methods.
Variable sample : list Fragment.t -> list Fragment.t.

Definition methods : list (string * (table -> result table)) :=
  ("remove_slices_with_one_reporter",
    SliceFilter.pure_op remove_slices_with_one_reporter)
  :: CCSliceFilter.methods sample.

Definition filter_slices (self : SliceFilter.t) : result SliceFilter.t :=
  SliceFilter.filter_slices methods
    (fun t => Ok (CCSliceFilter.slice_stats t)) self.
End Methods.

End TriCSliceFilter.

(** ** [TiledCSliceFilter] *)

Module TiledFragment.
Record t : Type := {
  parent_read : string;
  unique_slices : Z;
  pe : string;
  mapped : Z;
  multimapped : Z;
  capture_count : Z;
  unique_restriction_fragments : Z;
  blacklisted_slices : Z;
  coordinates : string
}.
End TiledFragment.

#[export] Instance TiledFragment_row : FragmentRow TiledFragment.t := {
  frag_parent_read := TiledFragment.parent_read;
  frag_unique_slices := TiledFragment.unique_slices;
  frag_pe := TiledFragment.pe;
  frag_coordinates := TiledFragment.coordinates
}.

Module TiledCSliceFilter.

Definition default_stages : stages :=
  [ ("pre-filtering", ["get_raw_slices"]);
    ("mapped", ["remove_unmapped_slices"; "remove_orphan_slices"]);
    ("not_blacklisted", ["remove_blacklisted_slices"]);
    ("contains_capture",
      ["remove_non_capture_fragments"; "remove_dual_capture_fragments"]);
    ("duplicate_filtered",
      ["remove_slices_without_re_frag_assigned"; "remove_duplicate_re_frags";
       "remove_duplicate_slices"; "remove_duplicate_slices_pe"]);
    ("has_reporter", ["remove_orphan_slices"]) ].

Definition __init__ (df : dataframe) (filter_stages : option stages)
  (sample_name read_type : string) : result SliceFilter.t :=
  let filter_stages :=
    match filter_stages with
    | Some (st :: sts) => st :: sts
    | _ => default_stages
    end in
  SliceFilter.__init__ df (Some filter_stages) sample_name read_type.

Definition aggregate (g : string * table) : TiledFragment.t :=
  let rows := snd g in
  {| TiledFragment.parent_read := fst g;
     TiledFragment.unique_slices := nuniqueZ Z.eqb (map slice rows);
     TiledFragment.pe := hd "" (map pe rows);
     TiledFragment.mapped := sum (map mapped rows);
     TiledFragment.multimapped := sum (map multimapped rows);
     TiledFragment.capture_count := sum (map capture_count rows);
     TiledFragment.unique_restriction_fragments :=
       nuniqueZ cell_eqb (map restriction_fragment rows);
     TiledFragment.blacklisted_slices := sum (map blacklist rows);
     TiledFragment.coordinates := join "|" (map coordinates rows) |}.

Definition fragments (t : table) : list TiledFragment.t :=
  map aggregate
    (groupby_parent_read (sort_values by_parent_read_chrom_start t)).

(** No special case for the empty table here.  On a table without rows
    the two [lambda] aggregations give back an empty column where the
    named ones give a number, and [DataFrame.agg] raises a [ValueError]. *)
Definition slice_stats (t : table) : result stats :=
  match t with
  | [] =>
      Raise (ValueError
        "cannot perform both aggregation and transformation operations simultaneously")
  | _ =>
      Ok [ stat_row "unique_slices" (nuniqueZ String.eqb (map slice_name t));
           stat_row "unique_fragments" (nuniqueZ String.eqb (map parent_read t));
           stat_row "mapped" (sum (map mapped t));
           stat_row "multimapping_slices" (sum (map multimapped t));
           stat_row "number_of_capture_slices"
             (count_positive (map capture_count t));
           stat_row "number_of_slices_in_blacklisted_region"
             (sum (map blacklist t)) ]
  end.

Definition remove_slices_outside_capture (t : table) : table :=
  filter (fun s => negb (String.eqb (capture s) ".")) t.

Definition remove_non_capture_fragments (t : table) : table :=
  let fragments_with_capture :=
    filter (fun f => 0 <? TiledFragment.capture_count f) (fragments t) in
  SliceFilter.slices_of_fragments fragments_with_capture t.

(** [query('capture != "."').groupby("parent_read")["capture"].nunique()]:
    one entry per parent read that has a capture slice, keys sorted. *)
Definition capture_sites_per_fragment (t : table) : list (string * Z) :=
  let caps := filter (fun s => negb (String.eqb (capture s) ".")) t in
  map (fun p => (p, nuniqueZ String.eqb (map capture (group_rows p caps))))
    (sort_values String.leb (unique String.eqb (map parent_read caps))).

Fixpoint lookup {V : Type} (p : string) (m : list (string * V)) : option V :=
  match m with
  | [] => None
  | (k, v) :: rest => if String.eqb k p then Some v else lookup p rest
  end.

(** [df.set_index("parent_read").loc[mask]] with a boolean Series indexed
    by parent read: every row label must be found in the mask's index,
    otherwise pandas raises an [IndexingError]. *)
Fixpoint loc_mask (mask : list (string * bool)) (t : table) : result table :=
  match t with
  | [] => Ok []
  | s :: rest =>
      match lookup (parent_read s) mask with
      | None => Raise IndexingError
      | Some keep =>
          kept <- loc_mask mask rest ;;
          Ok (if keep then s :: kept else kept)
      end
  end.

Definition remove_dual_capture_fragments (t : table) : result table :=
  let multicapture_fragments :=
    map (fun pn => (fst pn, 1 <? snd pn)) (capture_sites_per_fragment t) in
  loc_mask (map (fun pb => (fst pb, negb (snd pb))) multicapture_fragments) t.

Section Methods.
Variable sample : list TiledFragment.t -> list TiledFragment.t.

Definition methods : list (string * (table -> result table)) :=
  [ ("remove_slices_outside_capture",
      SliceFilter.pure_op remove_slices_outside_capture);
    ("remove_non_capture_fragments",
      SliceFilter.pure_op remove_non_capture_fragments);
    ("remove_dual_capture_fragments", remove_dual_capture_fragments) ]
  ++ SliceFilter.methods fragments sample.

Definition filter_slices (self : SliceFilter.t) : result SliceFilter.t :=
  SliceFilter.filter_slices methods slice_stats self.
End Methods.

End TiledCSliceFilter.

(** ** The three variants behind one interface *)

Inductive variant : Type := StandardCapture | TripletCapture | TiledCapture.

(** What [DataFrame.sample(frac=1)] returns, for any row type. *)
Definition sampler : Type := forall A : Type, list A -> list A.

Definition variant_methods (rng : sampler) (v : variant)
  : list (string * (table -> result table)) :=
  match v with
  | StandardCapture => CCSliceFilter.methods (rng Fragment.t)
  | TripletCapture => TriCSliceFilter.methods (rng Fragment.t)
  | TiledCapture => TiledCSliceFilter.methods (rng TiledFragment.t)
  end.

Definition variant_slice_stats (v : variant) : table -> result stats :=
  match v with
  | TiledCapture => TiledCSliceFilter.slice_stats
  | _ => fun t => Ok (CCSliceFilter.slice_stats t)
  end.

Definition variant_init (v : variant) (df : dataframe)
  (filter_stages : option stages) : result SliceFilter.t :=
  match v with
  | StandardCapture => CCSliceFilter.__init__ df filter_stages "" ""
  | TripletCapture => TriCSliceFilter.__init__ df filter_stages "" ""
  | TiledCapture => TiledCSliceFilter.__init__ df filter_stages "" ""
  end.

Definition variant_filter_slices (rng : sampler) (v : variant)
  (self : SliceFilter.t) : result SliceFilter.t :=
  SliceFilter.filter_slices (variant_methods rng v) (variant_slice_stats v) self.

(** The table an operation leaves behind: its result, or the table as it
    was when the call raised before the assignment. *)
Definition table_after (op : table -> result table) (t : table) : table :=
  match op t with
  | Ok t' => t'
  | Raise _ => t
  end.

(** ** Notions used to state the properties *)

(** [t'] selects rows of [t], in order and unchanged. *)
Inductive subtable : table -> table -> Prop :=
| subtable_nil : subtable [] []
| subtable_keep s t' t : subtable t' t -> subtable (s :: t') (s :: t)
| subtable_drop s t' t : subtable t' t -> subtable t' (s :: t).

(** An operation that leaves a selection of the rows it started from. *)
Definition only_removes (op : table -> result table) : Prop :=
  forall t, subtable (table_after op t) t.

(** Both [fragments] properties are an aggregation of the groups of the
    table sorted by [parent_read], [chrom], [start]. *)
Definition fragments_of {F : Type} (aggregate : string * table -> F)
  (t : table) : list F :=
  map aggregate (groupby_parent_read (sort_values by_parent_read_chrom_start t)).

(** [pe == "unflashed"] on a row of the fragment table. *)
Definition unflashed {F : Type} `{FragmentRow F} (f : F) : bool :=
  String.eqb (frag_pe f) "unflashed".

(** A fragment is a PE duplicate when it is unflashed and an earlier
    unflashed fragment of the fragment table has the same read ends. *)
Definition pe_duplicate {F : Type} `{FragmentRow F} (frags : list F)
  (p : string) : Prop :=
  exists before f after,
    frags = before ++ f :: after /\
    frag_parent_read f = p /\
    frag_pe f = "unflashed" /\
    exists g, In g before /\ frag_pe g = "unflashed" /\
              SliceFilter.read_ends g = SliceFilter.read_ends f.

(** A slice lies on a restriction fragment within [n] of one touched by a
    capture slice. *)
Definition adjacent_to_capture (n : Z) (t : table) (s : slice_row) : Prop :=
  exists c f g,
    In c t /\ capture c <> "." /\
    restriction_fragment c = Int f /\ restriction_fragment s = Int g /\
    f - n <= g <= f + n.

Definition is_integer (c : cell) : bool :=
  match c with
  | Int _ => true
  | Str _ => false
  end.

(** Every capture slice carries an integer restriction fragment. *)
Definition captures_on_integer_fragments (t : table) : bool :=
  forallb (fun s => String.eqb (capture s) "." || is_integer (restriction_fragment s)) t.

(** The integer restriction fragments of the table are [int64] values. *)
Definition cells_in_int64 (t : table) : bool :=
  forallb (fun s => match restriction_fragment s with
                    | Int z => in_int64 z
                    | Str _ => true
                    end) t.

(** The restriction fragments of the capture slices are at least [n] away
    from both [int64] bounds, so that [frag + modifier] does not wrap
    around for a modifier between [- n] and [n]. *)
Definition captures_clear_of_bounds (n : Z) (t : table) : bool :=
  forallb (fun s => String.eqb (capture s) "."
                    || match restriction_fragment s with
                       | Int f => (int64_min + n <=? f) && (f <=? int64_max - n)
                       | Str _ => true
                       end) t.

(** The restriction fragments that [remove_multicapture_reporters] excludes:
    those of the capture slices, moved by up to [n] in [int64]. *)
Definition excluded_for (n : Z) (t : table) (excluded : list cell) : Prop :=
  forall c, In c excluded <->
            exists s f m, In s t /\ capture s <> "." /\
                          restriction_fragment s = Int f /\
                          - n <= m <= n /\ c = Int (wrap_int64 (f + m)).

(** The capture slices of a table and the parent reads that have one. *)
Definition capture_slices (t : table) : table :=
  filter (fun s => negb (String.eqb (capture s) ".")) t.

Definition capture_keys (t : table) : list string :=
  sort_values String.leb (unique String.eqb (map parent_read (capture_slices t))).

(** After duplicate removal [t'] of [t] with fragment table [frags]: of the
    fragments that share a coordinates string exactly one is still
    represented in [t'], and [t'] holds all slices of the parent reads it
    still represents. *)
Definition one_survivor_per_coordinates {F : Type} `{FragmentRow F}
  (frags : list F) (t t' : table) : Prop :=
  (forall c, In c (map frag_coordinates frags) ->
     exists! f, In f frags /\ frag_coordinates f = c /\
                In (frag_parent_read f) (map parent_read t')) /\
  t' = filter (fun s => isin String.eqb (parent_read s) (map parent_read t')) t.

(** Every row belongs to a parent read that has a capture slice. *)
Definition every_fragment_has_capture (t : table) : bool :=
  forallb (fun s => isin String.eqb (parent_read s)
                      (map parent_read
                         (filter (fun c => negb (String.eqb (capture c) ".")) t))) t.

(** A string without any of the separator characters. *)
Fixpoint free_of (seps : list ascii) (s : string) : bool :=
  match s with
  | EmptyString => true
  | String c s' => negb (existsb (Ascii.eqb c) seps) && free_of seps s'
  end.

(** The canonical [chrom:start-end] encoding of a locus, and loci whose
    three parts hold none of the characters [|], [:] and [-]. *)
Definition locus : Type := string * string * string.

Definition locus_string (l : locus) : string :=
  (fst (fst l) ++ ":" ++ snd (fst l) ++ "-" ++ snd l)%string.

Definition plain (s : string) : bool :=
  free_of [SliceFilter.bar; SliceFilter.colon; SliceFilter.dash] s.

Definition plain_locus (l : locus) : bool :=
  plain (fst (fst l)) && plain (snd (fst l)) && plain (snd l).

(** A sampler that returns a permutation of its argument. *)
Definition shuffles (rng : sampler) : Prop :=
  forall (A : Type) (l : list A), Permutation (rng A l) l.

Definition reversing_sampler : sampler := fun A l => rev l.

Definition identity_sampler : sampler := fun A l => l.

(** Following the specification's words: the number of distinct values of
    a column that are not the sentinel. *)
Definition spec_unique_present (col : list string) : Z :=
  nuniqueZ String.eqb (filter (fun v => negb (String.eqb v ".")) col).

Definition spec_unique_present_cells (col : list cell) : Z :=
  nuniqueZ cell_eqb (filter (fun v => negb (cell_eqb v (Str "."))) col).

(** Following the specification's words: the coordinates of a read's
    slices joined in the order of the table's rows. *)
Definition spec_joined_coordinates (p : string) (t : table) : string :=
  join "|" (map coordinates (group_rows p t)).

(** Following the specification's words: PE-duplicate removal with the
    read start taken from the first slice and the read end from the last
    slice of each fragment, slices in table order. *)
Definition spec_read_ends (g : string * table) : option Z * option Z :=
  (hd_error (map start (snd g)), hd_error (rev (map end_ (snd g)))).

Definition spec_remove_duplicate_slices_pe (t : table) : table :=
  let unflashed :=
    filter (fun g => String.eqb (hd "" (map pe (snd g))) "unflashed")
      (groupby_parent_read t) in
  let dups :=
    duplicated (pair_eqb (option_eqb Z.eqb) (option_eqb Z.eqb))
      spec_read_ends unflashed in
  filter (fun s => negb (isin String.eqb (parent_read s) (map fst dups))) t.

(** ** Example tables *)

Definition spec_columns : list string :=
  [ "slice_name"; "parent_read"; "pe"; "mapped"; "multimapped"; "slice";
    "chrom"; "start"; "end"; "capture"; "capture_count"; "exclusion";
    "exclusion_count"; "blacklist"; "restriction_fragment"; "coordinates" ].

Definition columns_without_restriction_fragment : list string :=
  [ "slice_name"; "parent_read"; "pe"; "mapped"; "multimapped"; "slice";
    "chrom"; "start"; "end"; "capture"; "capture_count"; "exclusion";
    "exclusion_count"; "blacklist"; "coordinates" ].

(** A mapped slice outside exclusion and blacklisted regions. *)
Definition make_slice (name parent pe_ : string) (slice_ : Z) (chrom_ : string)
  (start_ end__ : Z) (capture_ : string) (capture_count_ : Z)
  (re_frag : cell) (coords : string) : slice_row :=
  {| slice_name := name; parent_read := parent; pe := pe_; mapped := 1;
     multimapped := 0; slice := slice_; chrom := chrom_; start := start_;
     end_ := end__; capture := capture_; capture_count := capture_count_;
     exclusion := "."; exclusion_count := 0; blacklist := 0;
     restriction_fragment := re_frag; coordinates := coords |}.

(** Frag 1 and Frag 4 of the docstring of [remove_duplicate_slices]: the
    same two loci, read in opposite slice order. *)
Definition frag1_frag4 : table :=
  [ make_slice "frag1|0" "frag1" "flashed" 0 "chr1" 1000 1250 "Slc25A37" 1
      (Int 10) "chr1:1000-1250";
    make_slice "frag1|1" "frag1" "flashed" 1 "chr1" 1500 1750 "." 0
      (Int 12) "chr1:1500-1750";
    make_slice "frag4|0" "frag4" "flashed" 0 "chr1" 1500 1750 "." 0
      (Int 12) "chr1:1500-1750";
    make_slice "frag4|1" "frag4" "flashed" 1 "chr1" 1000 1250 "Slc25A37" 1
      (Int 10) "chr1:1000-1250" ].

Definition empty_dataframe : dataframe :=
  {| df_columns := spec_columns; df_rows := [] |}.

(** The slice-level statistics the standard variant reports for a table
    without rows. *)
Definition cc_stats_of_empty_table : stats :=
  [ ("unique_slices", 1); ("unique_fragments", 1); ("mapped", 0);
    ("multimapping_slices", 0); ("unique_capture_sites", 1);
    ("number_of_capture_slices", 0);
    ("number_of_slices_in_exclusion_region", 0);
    ("number_of_slices_in_blacklisted_region", 0) ].

(** Two unflashed fragments whose first-slice start and last-slice end
    agree, the second one read right to left. *)
Definition unflashed_pair : table :=
  [ make_slice "readA|0" "readA" "unflashed" 0 "chr1" 1000 1250 "Slc25A37" 1
      (Int 10) "chr1:1000-1250";
    make_slice "readA|1" "readA" "unflashed" 1 "chr1" 1500 1750 "." 0
      (Int 12) "chr1:1500-1750";
    make_slice "readB|0" "readB" "unflashed" 0 "chr1" 1000 1100 "Slc25A37" 1
      (Int 10) "chr1:1000-1100";
    make_slice "readB|1" "readB" "unflashed" 1 "chr1" 500 1750 "." 0
      (Int 8) "chr1:500-1750" ].

(** Two unflashed fragments with the same outer coordinates: a PE
    duplicate. *)
Definition readB_first_slice : slice_row :=
  make_slice "readB|0" "readB" "unflashed" 0 "chr1" 1000 1200 "Slc25A37" 1
    (Int 10) "chr1:1000-1200".

Definition unflashed_duplicates : table :=
  [ make_slice "readA|0" "readA" "unflashed" 0 "chr1" 1000 1250 "Slc25A37" 1
      (Int 10) "chr1:1000-1250";
    make_slice "readA|1" "readA" "unflashed" 1 "chr1" 1500 1750 "." 0
      (Int 12) "chr1:1500-1750";
    readB_first_slice;
    make_slice "readB|1" "readB" "unflashed" 1 "chr1" 1400 1750 "." 0
      (Int 12) "chr1:1400-1750" ].

(** A fragment whose two slices both overlap the same capture probe, one
    of them without an assigned restriction fragment. *)
Definition capture_only_fragment : table :=
  [ make_slice "read1|0" "read1" "flashed" 0 "chr14" 100 200 "Slc25A37" 1
      (Int 10) "chr14:100-200";
    make_slice "read1|1" "read1" "flashed" 1 "chr14" 220 300 "Slc25A37" 1
      (Str ".") "chr14:220-300" ].

(** A fragment whose two slices overlap two different capture probes. *)
Definition two_capture_sites_fragment : table :=
  [ make_slice "read2|0" "read2" "flashed" 0 "chr14" 100 200 "Slc25A37" 1
      (Int 10) "chr14:100-200";
    make_slice "read2|1" "read2" "flashed" 1 "chr11" 900 990 "Hba-1" 1
      (Int 77) "chr11:900-990" ].

(** A capture slice on restriction fragment 100 and reporters on
    fragments 101 and 103. *)
Definition capture_100 : slice_row :=
  make_slice "read1|0" "read1" "flashed" 0 "chr14" 5000 5200 "Slc25A37" 1
    (Int 100) "chr14:5000-5200".
Definition reporter_101 : slice_row :=
  make_slice "read1|1" "read1" "flashed" 1 "chr14" 5300 5400 "." 0
    (Int 101) "chr14:5300-5400".
Definition reporter_103 : slice_row :=
  make_slice "read1|2" "read1" "flashed" 2 "chr14" 6000 6100 "." 0
    (Int 103) "chr14:6000-6100".
Definition adjacency_table : table := [capture_100; reporter_101; reporter_103].

(** A capture slice on the largest [int64] restriction fragment and a
    reporter on the smallest one. *)
Definition capture_on_int64_max : slice_row :=
  make_slice "read1|0" "read1" "flashed" 0 "chr14" 5000 5200 "Slc25A37" 1
    (Int int64_max) "chr14:5000-5200".
Definition reporter_on_int64_min : slice_row :=
  make_slice "read1|1" "read1" "flashed" 1 "chr14" 5300 5400 "." 0
    (Int int64_min) "chr14:5300-5400".
Definition int64_bounds_table : table :=
  [capture_on_int64_max; reporter_on_int64_min].

(** A capture slice without an assigned restriction fragment, and a
    reporter of the same read. *)
Definition unassigned_capture_dataframe : dataframe :=
  {| df_columns := spec_columns;
     df_rows :=
       [ make_slice "read1|0" "read1" "flashed" 0 "chr14" 5000 5200 "Slc25A37" 1
           (Str ".") "chr14:5000-5200";
         make_slice "read1|1" "read1" "flashed" 1 "chr14" 9000 9100 "." 0
           (Int 7) "chr14:9000-9100" ] |}.

(** A tiled fragment with two slices on one capture site. *)
Definition tiled_single_site : table :=
  [ make_slice "read1|0" "read1" "flashed" 0 "chr14" 5000 5200 "tile" 1
      (Int 100) "chr14:5000-5200";
    make_slice "read1|1" "read1" "flashed" 1 "chr14" 5300 5400 "tile" 1
      (Int 101) "chr14:5300-5400" ].

(** A table with every checked column but [coordinates]. *)
Definition dataframe_without_coordinates : dataframe :=
  {| df_columns :=
       [ "slice_name"; "parent_read"; "pe"; "mapped"; "multimapped"; "slice";
         "chrom"; "start"; "end"; "capture"; "capture_count"; "exclusion";
         "exclusion_count"; "blacklist"; "restriction_fragment" ];
     df_rows := [] |}.

(** Construct a variant with its default stages and run its pipeline. *)
Definition run_pipeline (rng : sampler) (v : variant) (df : dataframe)
  : result SliceFilter.t :=
  self <- variant_init v df None ;;
  variant_filter_slices rng v self.

(** ** Further views of the source *)

(** [SliceFilter.filter_stats]: the snapshots transposed, one row per
    stage, with the sample name and read type attached. *)
Record filter_stats_row : Type := {
  stage : string;
  metrics : stats;
  sample : string;
  stats_read_type : string
}.

Definition filter_stats (self : SliceFilter.t) : list filter_stats_row :=
  map (fun kv => {| stage := fst kv; metrics := snd kv;
                    sample := SliceFilter.sample_name self;
                    stats_read_type := SliceFilter.read_type self |})
    (SliceFilter._filter_stats self).

(** The value of a metric in a statistics series. *)
Definition metric (label : string) (s : stats) : option Z :=
  TiledCSliceFilter.lookup label s.

Definition default_stages (v : variant) : stages :=
  match v with
  | StandardCapture => CCSliceFilter.default_stages
  | TripletCapture => TriCSliceFilter.default_stages
  | TiledCapture => TiledCSliceFilter.default_stages
  end.

(** The stages a variant runs: the given ones unless they are falsy. *)
Definition stages_or_default (v : variant) (filter_stages : option stages) : stages :=
  match filter_stages with
  | Some (st :: sts) => st :: sts
  | _ => default_stages v
  end.

Definition has_checked_columns (df : dataframe) : bool :=
  forallb (fun col => isin String.eqb col (df_columns df))
    SliceFilter.columns_required.

(** The data the filters are written for: mapped slices outside exclusion
    and blacklisted regions, with [capture_count] 1 on capture slices and 0
    on the others. *)
Definition clean_slice (s : slice_row) : bool :=
  (mapped s =? 1) && (exclusion_count s =? 0) && (blacklist s =? 0)
  && (capture_count s =? (if String.eqb (capture s) "." then 0 else 1)).

(** [interactions_differential]: the fallback design matrix groups a
    count column by ['_'.join(col.split('_')[:-1])]. *)
Definition underscore : ascii := ascii_of_nat 95.

Definition condition_of_column (col : string) : string :=
  join "_" (removelast (split_chars [underscore] col)).

(** The loop of [TiledCSliceFilter.cis_or_trans_stats]: for every capture
    site, in sorted order, the numbers of cis and trans pseudo-reporters. *)
Definition interactions_of_site (t : table) (capture_site : string) : Z * Z :=
  let df_cap :=
    filter (fun s => String.eqb (capture s) capture_site) (capture_slices t) in
  let capture_chrom := hd "" (map chrom df_cap) in
  let df_primary_capture :=
    map (fun p => hd "" (map slice_name (group_rows p df_cap)))
      (sort_values String.leb (unique String.eqb (map parent_read df_cap))) in
  let df_not_primary_capture :=
    filter (fun s => negb (isin String.eqb (slice_name s) df_primary_capture)) df_cap in
  let df_outside_capture :=
    filter (fun s => isin String.eqb (parent_read s) (map parent_read df_cap))
      (filter (fun s => String.eqb (capture s) ".") t) in
  let df_pseudo_reporters := df_not_primary_capture ++ df_outside_capture in
  let n_cis_interactions :=
    Z.of_nat (List.length
                (filter (fun s => String.eqb (chrom s) capture_chrom)
                   df_pseudo_reporters)) in
  let n_trans_interactions :=
    Z.of_nat (List.length df_pseudo_reporters) - n_cis_interactions in
  (n_cis_interactions, n_trans_interactions).

Definition interactions_by_capture (t : table) : list (string * (Z * Z)) :=
  map (fun capture_site => (capture_site, interactions_of_site t capture_site))
    (sort_values String.leb (unique String.eqb (map capture (capture_slices t)))).

(** A table of three slices for the pipeline examples: a capture, an
    adjacent reporter and a distant reporter of one read. *)
Definition adjacency_dataframe : dataframe :=
  {| df_columns := spec_columns; df_rows := adjacency_table |}.

(** The standard variant constructed on [adjacency_dataframe]. *)
Definition adjacency_filter : SliceFilter.t :=
  {| SliceFilter.slices := adjacency_table;
     SliceFilter.filter_stages := CCSliceFilter.default_stages;
     SliceFilter._filter_stats := [];
     SliceFilter.sample_name := "";
     SliceFilter.read_type := "" |}.

(** The parent reads of the fragments that [remove_duplicate_slices_pe]
    flags as duplicates. *)
Definition pe_duplicated_reads {F : Type} `{FragmentRow F} (frags : list F)
  : list string :=
  map frag_parent_read
    (duplicated SliceFilter.read_ends_eqb SliceFilter.read_ends
       (filter unflashed frags)).

(** The numbers of capture and of reporter slices of a parent read. *)
Definition capture_slices_of (p : string) (t : table) : Z :=
  Z.of_nat (List.length (group_rows p (CCSliceFilter.captures t))).

Definition reporter_slices_of (p : string) (t : table) : Z :=
  Z.of_nat (List.length (group_rows p (CCSliceFilter.reporters t))).

(** Two loci in canonical encoding. *)
Definition example_loci : list locus :=
  [ ("chr1", "1000", "1250"); ("chr1", "1500", "1750") ].

(** The slices on a capture site, and the slices outside any capture site
    that share a parent read with one of them. *)
Definition site_slices (capture_site : string) (t : table) : table :=
  filter (fun s => String.eqb (capture s) capture_site) (capture_slices t).

Definition outside_slices (capture_site : string) (t : table) : table :=
  filter (fun s => isin String.eqb (parent_read s)
                     (map parent_read (site_slices capture_site t)))
    (filter (fun s => String.eqb (capture s) ".") t).

(** Two reads on one tiled capture site: the first with two slices on the
    site and a slice on another chromosome, the second with one slice on
    the site and one outside it. *)
Definition tiled_two_reads : table :=
  [ make_slice "r1|0" "r1" "flashed" 0 "chr14" 5000 5200 "tile" 1 (Int 100)
      "chr14:5000-5200";
    make_slice "r1|1" "r1" "flashed" 1 "chr14" 5300 5400 "tile" 1 (Int 101)
      "chr14:5300-5400";
    make_slice "r1|2" "r1" "flashed" 2 "chr2" 700 800 "." 0 (Int 7)
      "chr2:700-800";
    make_slice "r2|0" "r2" "flashed" 0 "chr14" 5100 5250 "tile" 1 (Int 100)
      "chr14:5100-5250";
    make_slice "r2|1" "r2" "flashed" 1 "chr14" 9000 9100 "." 0 (Int 140)
      "chr14:9000-9100" ].

(** A restriction-fragment cell that is an integer or the sentinel. *)
Definition integer_or_sentinel (c : cell) : bool :=
  match c with
  | Int _ => true
  | Str x => String.eqb x "."
  end.

(** * Properties *)

(** ** Lists: membership, first occurrences, selections *)

Lemma filter_filter_comm {A : Type} (p q : A -> bool) (l : list A) :
  filter p (filter q l) = filter q (filter p l).
Proof.
  induction l as [| x l IH]; simpl; [reflexivity |].
  destruct (p x) eqn:P, (q x) eqn:Q; simpl; rewrite ?P, ?Q, IH; reflexivity.
Qed.

Section ListFacts.
Context {A : Type} (eqb : A -> A -> bool).
Hypothesis eqb_spec : forall x y, eqb x y = true <-> x = y.

Lemma isin_In (x : A) (l : list A) : isin eqb x l = true <-> In x l.
Proof using eqb_spec.
  unfold isin. rewrite existsb_exists. split.
  - intros [y [Hy E]]. apply eqb_spec in E. now subst.
  - intros Hx. exists x. split; [assumption | now apply eqb_spec].
Qed.

Lemma isin_not_In (x : A) (l : list A) : isin eqb x l = false <-> ~ In x l.
Proof using eqb_spec.
  rewrite <- isin_In. destruct (isin eqb x l); split; congruence.
Qed.

Lemma eqb_refl_of_spec (x : A) : eqb x x = true.
Proof using eqb_spec. now apply eqb_spec. Qed.

Lemma eqb_false_of_spec (x y : A) : eqb x y = false <-> x <> y.
Proof using eqb_spec.
  rewrite <- eqb_spec. destruct (eqb x y); split; congruence.
Qed.

Lemma unique_In (x : A) (l : list A) : In x (unique eqb l) <-> In x l.
Proof using eqb_spec.
  induction l as [| y l IH]; simpl; [tauto |].
  rewrite filter_In, IH, negb_true_iff, eqb_false_of_spec.
  split.
  - intros [E | [Hx _]]; auto.
  - intros [E | Hx]; auto.
    destruct (eqb y x) eqn:E.
    + left. now apply eqb_spec.
    + right. split; [assumption |]. now apply eqb_false_of_spec.
Qed.

Lemma unique_NoDup (l : list A) : NoDup (unique eqb l).
Proof using eqb_spec.
  induction l as [| y l IH]; simpl; constructor.
  - rewrite filter_In, negb_true_iff, eqb_false_of_spec. intros [_ N]. now apply N.
  - now apply NoDup_filter.
Qed.

Lemma unique_filter (q : A -> bool) (l : list A) :
  unique eqb (filter q l) = filter q (unique eqb l).
Proof using eqb_spec.
  induction l as [| y l IH]; simpl; [reflexivity |].
  destruct (q y) eqn:Q; simpl; rewrite IH.
  - f_equal. apply filter_filter_comm.
  - clear IH. induction (unique eqb l) as [| z u IHu]; simpl; [reflexivity |].
    destruct (eqb y z) eqn:E; simpl.
    + apply eqb_spec in E. subst z. rewrite Q. exact IHu.
    + destruct (q z); rewrite IHu; reflexivity.
Qed.

Lemma nunique_nonempty (x : A) (l : list A) : (1 <= nunique eqb (x :: l))%nat.
Proof. unfold nunique. simpl. lia. Qed.
End ListFacts.

Lemma NoDup_map_injective {A B : Type} (k : A -> B) (l : list A) (a b : A) :
  NoDup (map k l) -> In a l -> In b l -> k a = k b -> a = b.
Proof.
  induction l as [| x l IH]; simpl; [tauto |].
  intros N Ha Hb E. inversion N as [| ? ? Hx Hl]; subst.
  destruct Ha as [-> | Ha], Hb as [-> | Hb]; auto.
  - exfalso. apply Hx. rewrite E. now apply in_map.
  - exfalso. apply Hx. rewrite <- E. now apply in_map.
Qed.

Lemma filter_true_on {A : Type} (p : A -> bool) (l : list A) :
  (forall x, In x l -> p x = true) -> filter p l = l.
Proof.
  induction l as [| x l IH]; simpl; intros Hp; [reflexivity |].
  rewrite (Hp x (or_introl eq_refl)), IH; auto.
Qed.

Lemma subtable_refl (t : table) : subtable t t.
Proof. induction t; constructor; assumption. Qed.

Lemma subtable_filter (p : slice_row -> bool) (t : table) : subtable (filter p t) t.
Proof.
  induction t as [| s t IH]; simpl; [constructor |].
  destruct (p s); constructor; assumption.
Qed.

Lemma subtable_drop_duplicates {K : Type} (eqb : K -> K -> bool)
  (key : slice_row -> K) (seen : list K) (t : table) :
  subtable (drop_duplicates_from eqb key seen t) t.
Proof.
  revert seen. induction t as [| s t IH]; intros seen; simpl; [constructor |].
  destruct (isin eqb (key s) seen); constructor; apply IH.
Qed.

Lemma subtable_length (t' t : table) :
  subtable t' t -> (List.length t' <= List.length t)%nat.
Proof. induction 1; simpl; lia. Qed.

Lemma subtable_In (t' t : table) (s : slice_row) : subtable t' t -> In s t' -> In s t.
Proof. induction 1; simpl; intuition. Qed.

Lemma subtable_slice_names (t' t : table) :
  subtable t' t -> incl (map slice_name t') (map slice_name t).
Proof.
  intros S n Hn. apply in_map_iff in Hn. destruct Hn as [s [<- Hs]].
  apply in_map. eapply subtable_In; eassumption.
Qed.

(** ** The stable sort *)

Section SortFacts.
Context {A : Type} (le : A -> A -> bool).

Lemma insert_row_perm (x : A) (l : list A) : Permutation (insert_row le x l) (x :: l).
Proof.
  induction l as [| y l IH]; simpl; [reflexivity |].
  destruct (le x y); [reflexivity |].
  rewrite IH. apply perm_swap.
Qed.

Lemma sort_values_perm (l : list A) : Permutation (sort_values le l) l.
Proof.
  induction l as [| x l IH]; simpl; [reflexivity |].
  rewrite insert_row_perm. now constructor.
Qed.

Lemma sort_values_In (x : A) (l : list A) : In x (sort_values le l) <-> In x l.
Proof.
  split; apply Permutation_in; [| symmetry]; apply sort_values_perm.
Qed.

Hypothesis le_total : forall x y, le x y = false -> le y x = true.
Hypothesis le_trans : forall x y z, le x y = true -> le y z = true -> le x z = true.

Definition sorted_rows (l : list A) : Prop :=
  StronglySorted (fun x y => le x y = true) l.

Lemma insert_row_sorted (x : A) (l : list A) :
  sorted_rows l -> sorted_rows (insert_row le x l).
Proof using le_total le_trans.
  induction 1 as [| y l Hl IH Hy]; simpl.
  - constructor; constructor.
  - destruct (le x y) eqn:E.
    + constructor; [constructor; assumption |].
      constructor; [assumption |].
      eapply Forall_impl; [| exact Hy]. intros z Hz. eapply le_trans; eassumption.
    + constructor; [assumption |].
      eapply Permutation_Forall; [symmetry; apply insert_row_perm |].
      constructor; [now apply le_total | assumption].
Qed.

Lemma sort_values_sorted (l : list A) : sorted_rows (sort_values le l).
Proof using le_total le_trans.
  induction l as [| x l IH]; simpl; [constructor | now apply insert_row_sorted].
Qed.

Lemma insert_row_front (x : A) (l : list A) :
  Forall (fun y => le x y = true) l -> insert_row le x l = x :: l.
Proof.
  destruct l as [| y l]; simpl; [reflexivity |].
  intros F. inversion F as [| ? ? E _]; subst. now rewrite E.
Qed.

Lemma filter_insert_row (q : A -> bool) (x : A) (l : list A) :
  sorted_rows l ->
  filter q (insert_row le x l) =
  if q x then insert_row le x (filter q l) else filter q l.
Proof using le_trans.
  induction 1 as [| y l Hl IH Hy]; simpl.
  - destruct (q x); reflexivity.
  - destruct (le x y) eqn:E; simpl.
    + destruct (q x) eqn:Qx; [| reflexivity].
      symmetry. apply insert_row_front.
      assert (Fl : Forall (fun z => le x z = true) l).
      { eapply Forall_impl; [| exact Hy]. intros z Hz. eapply le_trans; eassumption. }
      assert (Ff : Forall (fun z => le x z = true) (filter q l)).
      { apply Forall_forall. intros z Hz. apply filter_In in Hz.
        rewrite Forall_forall in Fl. now apply Fl. }
      destruct (q y); [constructor |]; assumption.
    + rewrite IH. destruct (q x), (q y); simpl; rewrite ?E; reflexivity.
Qed.

(** Selecting rows commutes with the stable sort. *)
Lemma sort_values_filter (q : A -> bool) (l : list A) :
  sort_values le (filter q l) = filter q (sort_values le l).
Proof using le_total le_trans.
  induction l as [| x l IH]; simpl; [reflexivity |].
  rewrite filter_insert_row by apply sort_values_sorted.
  destruct (q x); simpl; rewrite IH; reflexivity.
Qed.
End SortFacts.

(** ** The row order of [fragments] *)

Lemma string_compare_eq (a b : string) : String.compare a b = Eq -> a = b.
Proof. apply String.compare_eq_iff. Qed.

Lemma string_compare_refl (a : string) : String.compare a a = Eq.
Proof. apply String_as_OT.cmp_eq. reflexivity. Qed.

Lemma string_compare_lt_trans (a b c : string) :
  String.compare a b = Lt -> String.compare b c = Lt -> String.compare a c = Lt.
Proof.
  intros H1 H2. apply String_as_OT.cmp_lt. apply String_as_OT.cmp_lt in H1, H2.
  eapply String_as_OT.lt_trans; eassumption.
Qed.

Lemma string_compare_gt_lt (a b : string) :
  String.compare a b = Gt -> String.compare b a = Lt.
Proof.
  intros H. rewrite String.compare_antisym, H. reflexivity.
Qed.

Lemma string_then_trans (a b c : string) (k1 k2 k3 : bool) :
  (k1 = true -> k2 = true -> k3 = true) ->
  string_then a b k1 = true -> string_then b c k2 = true ->
  string_then a c k3 = true.
Proof.
  unfold string_then. intros K.
  destruct (String.compare a b) eqn:E1; try discriminate;
    destruct (String.compare b c) eqn:E2; try discriminate; intros H1 H2.
  - apply string_compare_eq in E1, E2. subst. rewrite string_compare_refl. auto.
  - apply string_compare_eq in E1. subst. now rewrite E2.
  - apply string_compare_eq in E2. subst. now rewrite E1.
  - now rewrite (string_compare_lt_trans _ _ _ E1 E2).
Qed.

Lemma string_then_total (a b : string) (k1 k2 : bool) :
  (k1 = false -> k2 = true) ->
  string_then a b k1 = false -> string_then b a k2 = true.
Proof.
  unfold string_then. intros K.
  destruct (String.compare a b) eqn:E; try discriminate; intros H.
  - apply string_compare_eq in E. subst. rewrite string_compare_refl. auto.
  - now rewrite (string_compare_gt_lt _ _ E).
Qed.

Lemma by_parent_read_chrom_start_total (x y : slice_row) :
  by_parent_read_chrom_start x y = false -> by_parent_read_chrom_start y x = true.
Proof.
  apply string_then_total. apply string_then_total. lia.
Qed.

Lemma by_parent_read_chrom_start_trans (x y z : slice_row) :
  by_parent_read_chrom_start x y = true -> by_parent_read_chrom_start y z = true ->
  by_parent_read_chrom_start x z = true.
Proof.
  apply string_then_trans. apply string_then_trans. lia.
Qed.

Lemma string_eqb_spec (x y : string) : String.eqb x y = true <-> x = y.
Proof. apply String.eqb_eq. Qed.

Lemma cell_eqb_spec (x y : cell) : cell_eqb x y = true <-> x = y.
Proof.
  destruct x as [a | a], y as [b | b]; simpl;
    rewrite ?Z.eqb_eq, ?String.eqb_eq; split; congruence.
Qed.

(** ** Fragments: one per parent read, built from whole groups *)

Section FragmentFacts.
Context {F : Type} `{FragmentRow F}.
Variable aggregate : string * table -> F.
Hypothesis aggregate_parent_read : forall g, frag_parent_read (aggregate g) = fst g.

Lemma fragments_of_parent_reads (t : table) :
  map frag_parent_read (fragments_of aggregate t)
  = unique String.eqb
    (map parent_read (sort_values by_parent_read_chrom_start t)).
Proof using aggregate_parent_read.
  unfold fragments_of, groupby_parent_read. rewrite !map_map.
  erewrite map_ext; [apply map_id |].
  intros p. now rewrite aggregate_parent_read.
Qed.

Lemma fragments_of_NoDup (t : table) :
  NoDup (map frag_parent_read (fragments_of aggregate t)).
Proof using aggregate_parent_read.
  rewrite fragments_of_parent_reads. apply unique_NoDup, string_eqb_spec.
Qed.

Lemma fragments_of_In_parent_read (t : table) (p : string) :
  In p (map frag_parent_read (fragments_of aggregate t)) <-> In p (map parent_read t).
Proof using aggregate_parent_read.
  rewrite fragments_of_parent_reads, (unique_In _ string_eqb_spec).
  split; apply Permutation_in; apply Permutation_map;
    [| symmetry]; apply sort_values_perm.
Qed.

Lemma fragments_of_same_read (t : table) (f g : F) :
  In f (fragments_of aggregate t) -> In g (fragments_of aggregate t) ->
  frag_parent_read f = frag_parent_read g -> f = g.
Proof using aggregate_parent_read.
  apply NoDup_map_injective, fragments_of_NoDup.
Qed.

(** Keeping whole fragments of the table keeps exactly their rows of the
    fragment table, unchanged. *)
Lemma fragments_of_filter (q : string -> bool) (t : table) :
  fragments_of aggregate (filter (fun s => q (parent_read s)) t)
  = filter (fun f => q (frag_parent_read f)) (fragments_of aggregate t).
Proof using aggregate_parent_read.
  unfold fragments_of, groupby_parent_read.
  rewrite (sort_values_filter _ by_parent_read_chrom_start_total
             by_parent_read_chrom_start_trans).
  set (S := sort_values by_parent_read_chrom_start t).
  assert (E : map parent_read (filter (fun s => q (parent_read s)) S)
              = filter q (map parent_read S)).
  { induction S as [| s S IH]; simpl; [reflexivity |].
    destruct (q (parent_read s)); simpl; now rewrite IH. }
  rewrite E, (unique_filter _ string_eqb_spec). clear E.
  induction (unique String.eqb (map parent_read S)) as [| p u IH]; simpl;
    [reflexivity |].
  rewrite aggregate_parent_read. simpl.
  destruct (q p) eqn:Q; simpl; [| exact IH].
  rewrite IH. f_equal. f_equal. f_equal.
  unfold group_rows. rewrite filter_filter_comm. apply filter_true_on.
  intros s Hs. apply filter_In in Hs. destruct Hs as [_ Hs].
  apply String.eqb_eq in Hs. now rewrite Hs.
Qed.

Hypothesis aggregate_pe : forall g, frag_pe (aggregate g) = hd "" (map pe (snd g)).

Lemma fragments_of_pe (t : table) (f : F) :
  In f (fragments_of aggregate t) ->
  exists s, In s t /\ parent_read s = frag_parent_read f /\ pe s = frag_pe f.
Proof using aggregate_parent_read aggregate_pe.
  unfold fragments_of, groupby_parent_read. rewrite map_map, in_map_iff.
  intros [p [<- Hp]]. rewrite aggregate_parent_read, aggregate_pe. simpl.
  rewrite (unique_In _ string_eqb_spec), in_map_iff in Hp.
  destruct Hp as [s [Es Hs]].
  assert (Hg : In s (group_rows p (sort_values by_parent_read_chrom_start t))).
  { apply filter_In. split; [assumption | now apply String.eqb_eq]. }
  destruct (group_rows p (sort_values by_parent_read_chrom_start t))
    as [| s0 rows] eqn:G; [destruct Hg |].
  assert (H0 : In s0 (group_rows p (sort_values by_parent_read_chrom_start t))).
  { rewrite G. now left. }
  apply filter_In in H0. destruct H0 as [H0 E0].
  apply sort_values_In in H0. apply String.eqb_eq in E0.
  exists s0. simpl. auto.
Qed.
End FragmentFacts.

Lemma cc_aggregate_parent_read (g : string * table) :
  frag_parent_read (CCSliceFilter.aggregate g) = fst g.
Proof. reflexivity. Qed.

Lemma tiled_aggregate_parent_read (g : string * table) :
  frag_parent_read (TiledCSliceFilter.aggregate g) = fst g.
Proof. reflexivity. Qed.

Lemma cc_aggregate_pe (g : string * table) :
  frag_pe (CCSliceFilter.aggregate g) = hd "" (map pe (snd g)).
Proof. reflexivity. Qed.

Lemma tiled_aggregate_pe (g : string * table) :
  frag_pe (TiledCSliceFilter.aggregate g) = hd "" (map pe (snd g)).
Proof. reflexivity. Qed.

Lemma cc_fragments_of (t : table) :
  CCSliceFilter.fragments t = fragments_of CCSliceFilter.aggregate t.
Proof. reflexivity. Qed.

Lemma tiled_fragments_of (t : table) :
  TiledCSliceFilter.fragments t = fragments_of TiledCSliceFilter.aggregate t.
Proof. reflexivity. Qed.

(** ** Fragment aggregation *)

(** C1.  On the table that holds Frag 1 and Frag 4 of the docstring of
    [remove_duplicate_slices] (already sorted by parent read and slice),
    both [fragments] properties join the coordinates of Frag 4 in locus
    order, so Frag 4 gets the coordinates string of Frag 1; joined in the
    slice order of the rows its string would start with the first slice's
    coordinates, [chr1:1500-1750]. *)
Theorem fragments_join_coordinates_in_locus_order :
  sort_values by_parent_read_slice frag1_frag4 = frag1_frag4 /\
  map (fun f => (Fragment.parent_read f, Fragment.coordinates f))
    (CCSliceFilter.fragments frag1_frag4)
  = [ ("frag1", "chr1:1000-1250|chr1:1500-1750");
      ("frag4", "chr1:1000-1250|chr1:1500-1750") ] /\
  map (fun f => (TiledFragment.parent_read f, TiledFragment.coordinates f))
    (TiledCSliceFilter.fragments frag1_frag4)
  = [ ("frag1", "chr1:1000-1250|chr1:1500-1750");
      ("frag4", "chr1:1000-1250|chr1:1500-1750") ] /\
  spec_joined_coordinates "frag4" frag1_frag4 = "chr1:1500-1750|chr1:1000-1250".
Proof. repeat split; vm_compute; reflexivity. Qed.

(** C5.  For a fragment whose two slices overlap the same capture probe,
    one of them without an assigned restriction fragment, the aggregation
    reports 0 unique capture sites and 2 unique restriction fragments,
    where the fragment has 1 distinct capture value and 1 distinct
    restriction fragment that are not the sentinel. *)
Theorem unique_counts_of_capture_only_fragment :
  map (fun f => (Fragment.unique_capture_sites f,
                 Fragment.unique_exclusion_sites f,
                 Fragment.unique_restriction_fragments f))
    (CCSliceFilter.fragments capture_only_fragment)
  = [ (0, 0, 2) ] /\
  spec_unique_present (map capture capture_only_fragment) = 1 /\
  spec_unique_present (map exclusion capture_only_fragment) = 0 /\
  spec_unique_present_cells (map restriction_fragment capture_only_fragment) = 1.
Proof. repeat split; vm_compute; reflexivity. Qed.

(** ** Statistics of the empty table *)

(** C2.  On a table without rows the standard variant's [slice_stats]
    reports 1 unique slice, 1 unique fragment and 1 unique capture site,
    and the tiled variant's [slice_stats] raises a [ValueError].  The
    standard and triplet pipelines run on such a table record the non-zero
    statistics for every stage; the tiled pipeline ends in the
    [ValueError] and records nothing. *)
Theorem slice_stats_of_empty_table :
  CCSliceFilter.slice_stats [] = cc_stats_of_empty_table /\
  ~ Forall (fun kv => snd kv = 0) (CCSliceFilter.slice_stats []) /\
  (exists msg, TiledCSliceFilter.slice_stats [] = Raise (ValueError msg)) /\
  forall rng : sampler,
    (exists msg,
        run_pipeline rng TiledCapture empty_dataframe = Raise (ValueError msg)) /\
    (exists self,
        run_pipeline rng StandardCapture empty_dataframe = Ok self /\
        SliceFilter.slices self = [] /\
        SliceFilter._filter_stats self
        = map (fun st => (fst st, cc_stats_of_empty_table))
            CCSliceFilter.default_stages) /\
    (exists self,
        run_pipeline rng TripletCapture empty_dataframe = Ok self /\
        SliceFilter.slices self = [] /\
        SliceFilter._filter_stats self
        = map (fun st => (fst st, cc_stats_of_empty_table))
            TriCSliceFilter.default_stages).
Proof.
  split; [reflexivity |].
  split; [intros H; inversion H; discriminate |].
  split; [eexists; reflexivity |].
  intros rng. split; [eexists; vm_compute; reflexivity |].
  split; eexists; (split; [vm_compute; reflexivity |]);
    split; reflexivity.
Qed.

(** ** The schema check *)

Lemma check_columns_missing (required columns : list string) (col : string) :
  isin String.eqb col required = true ->
  isin String.eqb col columns = false ->
  exists col' before after,
    required = before ++ col' :: after /\
    forallb (fun c => isin String.eqb c columns) before = true /\
    isin String.eqb col' columns = false /\
    SliceFilter.check_columns required columns
    = Raise (KeyError (SliceFilter.missing_column_message col')) /\
    (forallb (fun c => String.eqb c col || isin String.eqb c columns) required = true ->
     col' = col).
Proof.
  induction required as [| r required IH]; simpl; [discriminate |].
  intros Hreq Hmiss.
  destruct (isin String.eqb r columns) eqn:R.
  - assert (Hne : String.eqb col r = false).
    { destruct (String.eqb col r) eqn:E; [| reflexivity].
      apply String.eqb_eq in E. subst. congruence. }
    rewrite Hne in Hreq. simpl in Hreq.
    destruct (IH Hreq Hmiss) as [col' [before [after [H0 [H1 [H2 [H3 H4]]]]]]].
    exists col', (r :: before), after. simpl. rewrite R, H1.
    repeat split; auto.
    + now rewrite H0.
    + intros Hall. apply andb_true_iff in Hall. now apply H4.
  - exists r, [], required. simpl. repeat split; auto.
    intros Hall. apply andb_true_iff in Hall. destruct Hall as [Hr _].
    rewrite orb_false_r in Hr. now apply String.eqb_eq.
Qed.

(** C3 (as stated, refuted).  [restriction_fragment] is one of the columns
    of the data model, yet every variant is constructed without error from
    a table that lacks it. *)
Lemma construction_accepts_missing_restriction_fragment :
  isin String.eqb "restriction_fragment" spec_columns = true /\
  isin String.eqb "restriction_fragment" columns_without_restriction_fragment = false /\
  forall v : variant,
    exists self,
      variant_init v {| df_columns := columns_without_restriction_fragment;
                        df_rows := frag1_frag4 |} None = Ok self.
Proof.
  split; [reflexivity |]. split; [reflexivity |].
  intros v. destruct v; eexists; vm_compute; reflexivity.
Qed.

(** C3 (amended).  For each of the fourteen columns that the constructor
    checks, constructing any variant, with any stages, from a table that
    lacks the column raises a [KeyError] whose message names the first
    checked column, in checking order, that the table lacks (every column
    checked before it is in the table): that very column when the table
    has all the other checked columns. *)
Theorem missing_checked_column_raises_key_error
  (v : variant) (df : dataframe) (filter_stages : option stages) (col : string) :
  isin String.eqb col SliceFilter.columns_required = true ->
  isin String.eqb col (df_columns df) = false ->
  exists col' before after,
    SliceFilter.columns_required = before ++ col' :: after /\
    forallb (fun c => isin String.eqb c (df_columns df)) before = true /\
    isin String.eqb col' (df_columns df) = false /\
    variant_init v df filter_stages
    = Raise (KeyError (SliceFilter.missing_column_message col')) /\
    (forallb (fun c => String.eqb c col || isin String.eqb c (df_columns df))
       SliceFilter.columns_required = true -> col' = col).
Proof.
  intros Hreq Hmiss.
  destruct (check_columns_missing _ _ _ Hreq Hmiss)
    as [col' [before [after [H0 [H1 [H2 [H3 H4]]]]]]].
  exists col', before, after. repeat split; auto.
  destruct v; simpl;
    unfold TriCSliceFilter.__init__, CCSliceFilter.__init__,
      TiledCSliceFilter.__init__, SliceFilter.__init__,
      SliceFilter._check_required_columns_present;
    rewrite H3; reflexivity.
Qed.

Lemma missing_checked_column_raises_key_error_witness :
  isin String.eqb "coordinates" SliceFilter.columns_required = true /\
  isin String.eqb "coordinates" (df_columns dataframe_without_coordinates) = false /\
  exists col' before after,
    SliceFilter.columns_required = before ++ col' :: after /\
    forallb (fun c => isin String.eqb c (df_columns dataframe_without_coordinates))
      before = true /\
    isin String.eqb col' (df_columns dataframe_without_coordinates) = false /\
    variant_init TiledCapture dataframe_without_coordinates None
    = Raise (KeyError (SliceFilter.missing_column_message col')) /\
    (forallb (fun c => String.eqb c "coordinates"
                       || isin String.eqb c (df_columns dataframe_without_coordinates))
       SliceFilter.columns_required = true -> col' = "coordinates").
Proof.
  split; [reflexivity |]. split; [reflexivity |].
  apply (missing_checked_column_raises_key_error TiledCapture
           dataframe_without_coordinates None "coordinates"); reflexivity.
Defined.

(** ** Every operation selects rows *)

Lemma only_removes_pure (f : table -> table) :
  (forall t, subtable (f t) t) -> only_removes (SliceFilter.pure_op f).
Proof. intros Hf t. apply Hf. Qed.

Lemma loc_mask_subtable (mask : list (string * bool)) (t t' : table) :
  TiledCSliceFilter.loc_mask mask t = Ok t' -> subtable t' t.
Proof.
  revert t'. induction t as [| s t IH]; simpl; intros t' E.
  - injection E as <-. constructor.
  - destruct (TiledCSliceFilter.lookup (parent_read s) mask) as [keep |];
      [| discriminate].
    destruct (TiledCSliceFilter.loc_mask mask t) as [kept |]; [| discriminate].
    simpl in E. injection E as <-.
    destruct keep; constructor; now apply IH.
Qed.

Lemma only_removes_dual_capture :
  only_removes TiledCSliceFilter.remove_dual_capture_fragments.
Proof.
  intros t. unfold table_after.
  destruct (TiledCSliceFilter.remove_dual_capture_fragments t) as [t' |] eqn:E.
  - eapply loc_mask_subtable. exact E.
  - apply subtable_refl.
Qed.

Lemma only_removes_multicapture_reporters (n : Z) :
  only_removes (CCSliceFilter.remove_multicapture_reporters n).
Proof.
  intros t. unfold table_after, CCSliceFilter.remove_multicapture_reporters.
  destruct (CCSliceFilter.excluded_fragments n _) as [excluded |]; simpl.
  - apply subtable_filter.
  - apply subtable_refl.
Qed.

Section BaseOperations.
Context {F : Type} `{FragmentRow F}.
Variable fragments : table -> list F.
Variable sample : list F -> list F.

Lemma base_methods_only_remove :
  Forall (fun m => only_removes (snd m)) (SliceFilter.methods fragments sample).
Proof.
  unfold SliceFilter.methods.
  repeat constructor; simpl; apply only_removes_pure; intros t;
    try apply subtable_filter.
  - apply subtable_refl.
  - apply subtable_drop_duplicates.
  - unfold SliceFilter.remove_duplicate_slices_pe.
    destruct (1 <? _); [apply subtable_filter | apply subtable_refl].
Qed.
End BaseOperations.

Lemma cc_methods_only_remove (sample : list Fragment.t -> list Fragment.t) :
  Forall (fun m => only_removes (snd m)) (CCSliceFilter.methods sample).
Proof.
  unfold CCSliceFilter.methods. apply Forall_app. split.
  - repeat constructor; simpl;
      try (apply only_removes_pure; intros t; apply subtable_filter).
    apply only_removes_multicapture_reporters.
  - apply base_methods_only_remove.
Qed.

Lemma tiled_methods_only_remove
  (sample : list TiledFragment.t -> list TiledFragment.t) :
  Forall (fun m => only_removes (snd m)) (TiledCSliceFilter.methods sample).
Proof.
  unfold TiledCSliceFilter.methods. apply Forall_app. split.
  - repeat constructor; simpl;
      try (apply only_removes_pure; intros t; apply subtable_filter).
    apply only_removes_dual_capture.
  - apply base_methods_only_remove.
Qed.

Lemma variant_methods_only_remove (rng : sampler) (v : variant) :
  Forall (fun m => only_removes (snd m)) (variant_methods rng v).
Proof.
  destruct v; simpl.
  - apply cc_methods_only_remove.
  - unfold TriCSliceFilter.methods. constructor.
    + apply only_removes_pure. intros t. apply subtable_filter.
    + apply cc_methods_only_remove.
  - apply tiled_methods_only_remove.
Qed.

(** C6.  Every filter operation of every variant, on every table and for
    every outcome of the shuffle, leaves a table that selects rows of the
    table it started from, unchanged and in order: it has no more rows,
    and its slice names are among those it started with. *)
Theorem filter_operations_only_remove_rows (rng : sampler) (v : variant) :
  Forall (fun m => forall t : table,
            subtable (table_after (snd m) t) t /\
            (List.length (table_after (snd m) t) <= List.length t)%nat /\
            incl (map slice_name (table_after (snd m) t)) (map slice_name t))
    (variant_methods rng v).
Proof.
  eapply Forall_impl; [| apply variant_methods_only_remove].
  intros m Hm t. split; [apply Hm |].
  split; [apply subtable_length | apply subtable_slice_names]; apply Hm.
Qed.

(** ** Reporters next to capture sites *)

Lemma range_In (lo hi m : Z) : In m (range lo hi) <-> lo <= m < hi.
Proof.
  unfold range. rewrite in_map_iff. split.
  - intros [i [<- Hi]]. apply in_seq in Hi. lia.
  - intros Hm. exists (Z.to_nat (m - lo)). split; [lia |].
    apply in_seq. lia.
Qed.

Lemma mapM_Ok {A B : Type} (f : A -> result B) (l : list A) :
  (forall x, In x l -> exists y, f x = Ok y) ->
  exists ys, mapM f l = Ok ys /\
             forall y, In y ys <-> exists x, In x l /\ f x = Ok y.
Proof.
  induction l as [| x l IH]; simpl; intros Hf.
  - exists []. split; [reflexivity |]. intros y. split; [intros [] | intros [? [[] _]]].
  - destruct (Hf x (or_introl eq_refl)) as [y Ey].
    destruct IH as [ys [Eys Hys]]; [intros z Hz; apply Hf; now right |].
    exists (y :: ys). rewrite Ey, Eys. split; [reflexivity |].
    intros y'. simpl. rewrite Hys. split.
    + intros [<- | [z [Hz Ez]]]; [exists x | exists z]; auto.
    + intros [z [[<- | Hz] Ez]]; [left; congruence | right; exists z; auto].
Qed.

Lemma mapM_Raise {A B : Type} (f : A -> result B) (l : list A) (e : exn) :
  (forall x e', f x = Raise e' -> e' = e) ->
  (exists x, In x l /\ f x = Raise e) ->
  mapM f l = Raise e.
Proof.
  intros Hone. induction l as [| x l IH]; simpl; intros [z [Hz Ez]]; [destruct Hz |].
  destruct (f x) as [y |] eqn:Ex; simpl.
  - rewrite IH; [reflexivity |]. exists z. split; [| assumption].
    destruct Hz as [-> | Hz]; [congruence | assumption].
  - now rewrite (Hone _ _ Ex).
Qed.

Lemma capture_re_frags_In (t : table) (c : cell) :
  In c (unique cell_eqb (map restriction_fragment (CCSliceFilter.captures t)))
  <-> exists s, In s t /\ capture s <> "." /\ restriction_fragment s = c.
Proof.
  rewrite (unique_In _ cell_eqb_spec), in_map_iff. unfold CCSliceFilter.captures.
  split.
  - intros [s [E Hs]]. apply filter_In in Hs. destruct Hs as [Hs N].
    exists s. repeat split; auto.
    apply negb_true_iff, String.eqb_neq in N. exact N.
  - intros [s [Hs [N E]]]. exists s. split; [assumption |].
    apply filter_In. split; [assumption |]. now apply negb_true_iff, String.eqb_neq.
Qed.

Lemma captures_on_integer_fragments_true (t : table) :
  captures_on_integer_fragments t = true <->
  forall s, In s t -> capture s <> "." -> exists z, restriction_fragment s = Int z.
Proof.
  unfold captures_on_integer_fragments. rewrite forallb_forall. split.
  - intros Hall s Hs N. specialize (Hall s Hs). apply orb_true_iff in Hall.
    destruct Hall as [E | E]; [apply String.eqb_eq in E; contradiction |].
    destruct (restriction_fragment s) as [z |]; [now exists z | discriminate].
  - intros Hall s Hs. destruct (String.eqb (capture s) ".") eqn:E; [reflexivity |].
    apply String.eqb_neq in E. destruct (Hall s Hs E) as [z ->]. reflexivity.
Qed.

Lemma captures_on_integer_fragments_false (t : table) :
  captures_on_integer_fragments t = false ->
  exists s x, In s t /\ capture s <> "." /\ restriction_fragment s = Str x.
Proof.
  unfold captures_on_integer_fragments.
  induction t as [| s t IH]; simpl; [discriminate |].
  intros Hf. apply andb_false_iff in Hf. destruct Hf as [Hf | Hf].
  - apply orb_false_iff in Hf. destruct Hf as [N I].
    apply String.eqb_neq in N.
    destruct (restriction_fragment s) as [z | x] eqn:E; [discriminate |].
    exists s, x. auto.
  - destruct (IH Hf) as [s' [x [Hs H']]]. exists s', x. split; [now right | assumption].
Qed.

Lemma wrap_int64_in_range (z : Z) :
  int64_min <= z <= int64_max -> wrap_int64 z = z.
Proof.
  unfold wrap_int64, int64_min, int64_max. intros Hz.
  rewrite Z.mod_small; lia.
Qed.

Lemma in_int64_true (z : Z) : in_int64 z = true <-> int64_min <= z <= int64_max.
Proof. unfold in_int64. rewrite andb_true_iff, !Z.leb_le. tauto. Qed.

Lemma excluded_fragments_Ok (n : Z) (re_frags : list cell) :
  (forall c, In c re_frags -> exists z, c = Int z) ->
  exists excluded,
    CCSliceFilter.excluded_fragments n re_frags = Ok excluded /\
    forall c, In c excluded <->
              exists f m, In (Int f) re_frags /\ - n <= m < n + 1 /\
                          c = Int (wrap_int64 (f + m)).
Proof.
  intros Hint. unfold CCSliceFilter.excluded_fragments.
  destruct (mapM_Ok (fun fm => add_modifier (fst fm) (snd fm))
              (flat_map (fun frag => map (pair frag) (range (- n) (n + 1))) re_frags))
    as [excluded [E Hin]].
  - intros [frag m] Hfm. apply in_flat_map in Hfm. destruct Hfm as [frag' [Hf Hm]].
    apply in_map_iff in Hm. destruct Hm as [m' [Em _]]. injection Em as -> ->.
    destruct (Hint _ Hf) as [z ->]. simpl. eauto.
  - exists excluded. split; [exact E |]. intros c. rewrite Hin. split.
    + intros [[frag m] [Hfm Ec]]. apply in_flat_map in Hfm.
      destruct Hfm as [frag' [Hf Hm]]. apply in_map_iff in Hm.
      destruct Hm as [m' [Em Hm]]. injection Em as -> ->.
      destruct (Hint _ Hf) as [z ->]. simpl in Ec. injection Ec as <-.
      exists z, m. apply range_In in Hm. auto.
    + intros [f [m [Hf [Hm ->]]]]. exists (Int f, m). split; [| reflexivity].
      apply in_flat_map. exists (Int f). split; [assumption |].
      apply in_map. now apply range_In.
Qed.

Lemma excluded_fragments_Raise (n : Z) (re_frags : list cell) (x : string) :
  0 <= n -> In (Str x) re_frags ->
  CCSliceFilter.excluded_fragments n re_frags = Raise TypeError.
Proof.
  intros Hn Hx. unfold CCSliceFilter.excluded_fragments. apply mapM_Raise.
  - intros [[z | y] m] e'; simpl; congruence.
  - exists (Str x, 0). split; [| reflexivity].
    apply in_flat_map. exists (Str x). split; [assumption |].
    apply in_map, range_In. lia.
Qed.

Lemma remove_multicapture_reporters_filter (n : Z) (t : table) :
  captures_on_integer_fragments t = true ->
  exists excluded,
    CCSliceFilter.remove_multicapture_reporters n t
    = Ok (filter (fun s => (0 <? capture_count s)
                           || negb (isin cell_eqb (restriction_fragment s) excluded)) t) /\
    excluded_for n t excluded.
Proof.
  intros Hint. rewrite captures_on_integer_fragments_true in Hint.
  unfold CCSliceFilter.remove_multicapture_reporters.
  destruct (excluded_fragments_Ok n
              (unique cell_eqb (map restriction_fragment (CCSliceFilter.captures t))))
    as [excluded [E Hin]].
  - intros c Hc. apply capture_re_frags_In in Hc. destruct Hc as [s [Hs [N <-]]].
    now apply Hint.
  - exists excluded. rewrite E. split; [reflexivity |].
    intros c. rewrite Hin. split.
    + intros [f [m [Hf [Hm Ec]]]]. apply capture_re_frags_In in Hf.
      destruct Hf as [s [Hs [N Es]]]. exists s, f, m.
      repeat split; auto; lia.
    + intros [s [f [m [Hs [N [Es [Hm Ec]]]]]]]. exists f, m.
      split; [apply capture_re_frags_In; exists s; auto |].
      split; [lia | exact Ec].
Qed.

Lemma excluded_covers_adjacent (n : Z) (t : table) (excluded : list cell) :
  excluded_for n t excluded ->
  cells_in_int64 t = true ->
  forall s, In s t -> adjacent_to_capture n t s ->
            isin cell_eqb (restriction_fragment s) excluded = true.
Proof.
  intros Hin Hcells s Hs [c [f [g [Hc [N [Ec [Es Hg]]]]]]].
  apply (isin_In _ cell_eqb_spec), Hin. exists c, f, (g - f).
  repeat split; auto; try lia.
  rewrite Es. f_equal. symmetry.
  replace (f + (g - f)) with g by lia.
  apply wrap_int64_in_range, in_int64_true.
  unfold cells_in_int64 in Hcells. rewrite forallb_forall in Hcells.
  specialize (Hcells s Hs). now rewrite Es in Hcells.
Qed.

Lemma excluded_only_adjacent (n : Z) (t : table) (excluded : list cell) :
  excluded_for n t excluded ->
  captures_clear_of_bounds n t = true ->
  forall s, isin cell_eqb (restriction_fragment s) excluded = true ->
            adjacent_to_capture n t s.
Proof.
  intros Hin Hclear s Hex.
  apply (isin_In _ cell_eqb_spec), Hin in Hex.
  destruct Hex as [c [f [m [Hc [N [Ec [Hm Es]]]]]]].
  unfold captures_clear_of_bounds in Hclear. rewrite forallb_forall in Hclear.
  specialize (Hclear c Hc). apply orb_true_iff in Hclear.
  destruct Hclear as [Hdot | Hb]; [apply String.eqb_eq in Hdot; contradiction |].
  rewrite Ec in Hb. apply andb_true_iff in Hb. rewrite !Z.leb_le in Hb.
  rewrite wrap_int64_in_range in Es by lia.
  exists c, f, (f + m). repeat split; auto; lia.
Qed.

Lemma captures_on_integer_fragments_filter (p : slice_row -> bool) (t : table) :
  captures_on_integer_fragments t = true ->
  captures_on_integer_fragments (filter p t) = true.
Proof.
  unfold captures_on_integer_fragments. rewrite !forallb_forall.
  intros Hall s Hs. apply Hall. apply filter_In in Hs. tauto.
Qed.

(** What [remove_multicapture_reporters] does, for any [n_adjacent]. *)
Lemma remove_multicapture_reporters_spec (n : Z) (t : table) :
  captures_on_integer_fragments t = true ->
  cells_in_int64 t = true ->
  exists t',
    CCSliceFilter.remove_multicapture_reporters n t = Ok t' /\
    (forall s, In s t' -> In s t) /\
    (forall s, In s t -> 0 < capture_count s -> In s t') /\
    (forall s, In s t -> capture_count s <= 0 -> adjacent_to_capture n t s ->
               ~ In s t') /\
    (captures_clear_of_bounds n t = true ->
     forall s, In s t' <->
               In s t /\ (0 < capture_count s \/ ~ adjacent_to_capture n t s)) /\
    CCSliceFilter.remove_multicapture_reporters n t' = Ok t'.
Proof.
  intros Hint Hcells.
  destruct (remove_multicapture_reporters_filter n t Hint) as [excluded [E Hin]].
  set (keep := fun s => (0 <? capture_count s)
                        || negb (isin cell_eqb (restriction_fragment s) excluded)).
  fold keep in E. exists (filter keep t). split; [exact E |].
  split; [| split; [| split; [| split]]].
  - intros s Hs. apply filter_In in Hs. tauto.
  - intros s Hs Hc. apply filter_In. split; [assumption |].
    unfold keep. apply orb_true_iff. left. now apply Z.ltb_lt.
  - intros s Hs Hc Hadj Hin'. apply filter_In in Hin'. destruct Hin' as [_ Hk].
    unfold keep in Hk. apply orb_true_iff in Hk. destruct Hk as [Hk | Hk].
    + apply Z.ltb_lt in Hk. lia.
    + rewrite (excluded_covers_adjacent _ _ _ Hin Hcells s Hs Hadj) in Hk. discriminate.
  - intros Hclear s. rewrite filter_In. unfold keep.
    rewrite orb_true_iff, negb_true_iff, Z.ltb_lt. split.
    + intros [Hs [Hc | Hex]]; (split; [assumption |]); [now left | right].
      intros Hadj.
      rewrite (excluded_covers_adjacent _ _ _ Hin Hcells s Hs Hadj) in Hex. discriminate.
    + intros [Hs [Hc | Hadj]]; (split; [assumption |]); [now left | right].
      destruct (isin cell_eqb (restriction_fragment s) excluded) eqn:Ex;
        [| reflexivity].
      exfalso. apply Hadj. exact (excluded_only_adjacent _ _ _ Hin Hclear s Ex).
  - destruct (remove_multicapture_reporters_filter n (filter keep t)
                (captures_on_integer_fragments_filter keep t Hint))
      as [excluded' [E' Hin']].
    rewrite E'. f_equal. apply filter_true_on. intros s Hs.
    apply filter_In in Hs. destruct Hs as [Hs Hk]. unfold keep in Hk.
    apply orb_true_iff in Hk. apply orb_true_iff.
    destruct Hk as [Hk | Hk]; [now left | right].
    apply negb_true_iff in Hk. apply negb_true_iff.
    destruct (isin cell_eqb (restriction_fragment s) excluded') eqn:Ex; [| reflexivity].
    apply (isin_In _ cell_eqb_spec), Hin' in Ex.
    destruct Ex as [c [f [m [Hc [N [Ec [Hm Es]]]]]]].
    apply filter_In in Hc. destruct Hc as [Hc _].
    assert (Hex : isin cell_eqb (restriction_fragment s) excluded = true).
    { apply (isin_In _ cell_eqb_spec), Hin. exists c, f, m. auto. }
    congruence.
Qed.

(** C8.  With [n_adjacent = 1], on a table whose capture slices carry
    integer restriction fragments (all of them [int64] values),
    [remove_multicapture_reporters] returns rows of the table; it removes
    every row without [capture_count > 0] whose restriction fragment is
    within 1 of a restriction fragment of a capture slice, and no row with
    [capture_count > 0].  When no capture slice lies on the smallest or the
    largest [int64] value, so that [frag + modifier] does not wrap around,
    these are the only rows removed. *)
Theorem multicapture_reporters_removes_adjacent_slices (t : table) :
  captures_on_integer_fragments t = true ->
  cells_in_int64 t = true ->
  exists t',
    CCSliceFilter.remove_multicapture_reporters 1 t = Ok t' /\
    (forall s, In s t' -> In s t) /\
    (forall s, In s t -> 0 < capture_count s -> In s t') /\
    (forall s, In s t -> capture_count s <= 0 -> adjacent_to_capture 1 t s ->
               ~ In s t') /\
    (captures_clear_of_bounds 1 t = true ->
     forall s, In s t' <->
               In s t /\ (0 < capture_count s \/ ~ adjacent_to_capture 1 t s)).
Proof.
  intros Hint Hcells.
  destruct (remove_multicapture_reporters_spec 1 t Hint Hcells)
    as [t' [E [H1 [H2 [H3 [H4 _]]]]]].
  exists t'. auto.
Qed.

Lemma multicapture_reporters_removes_adjacent_slices_witness :
  captures_on_integer_fragments adjacency_table = true /\
  cells_in_int64 adjacency_table = true /\
  captures_clear_of_bounds 1 adjacency_table = true /\
  exists t',
    CCSliceFilter.remove_multicapture_reporters 1 adjacency_table = Ok t' /\
    (forall s, In s t' -> In s adjacency_table) /\
    (forall s, In s adjacency_table -> 0 < capture_count s -> In s t') /\
    (forall s, In s adjacency_table -> capture_count s <= 0 ->
               adjacent_to_capture 1 adjacency_table s -> ~ In s t') /\
    (captures_clear_of_bounds 1 adjacency_table = true ->
     forall s, In s t' <->
               In s adjacency_table /\
               (0 < capture_count s \/ ~ adjacent_to_capture 1 adjacency_table s)).
Proof.
  split; [reflexivity |]. split; [reflexivity |]. split; [reflexivity |].
  apply (multicapture_reporters_removes_adjacent_slices adjacency_table);
    reflexivity.
Defined.

(** The example of the specification: a capture on restriction fragment
    100 removes the reporter on fragment 101 and keeps the one on 103. *)
Example adjacency_example :
  CCSliceFilter.remove_multicapture_reporters 1 adjacency_table
  = Ok [capture_100; reporter_103].
Proof. reflexivity. Qed.

(** At the [int64] bounds the sum wraps around: a capture slice on the
    largest value also removes the reporter on the smallest one. *)
Example adjacency_wraps_at_int64_bounds :
  captures_clear_of_bounds 1 int64_bounds_table = false /\
  CCSliceFilter.remove_multicapture_reporters 1 int64_bounds_table
  = Ok [capture_on_int64_max].
Proof. split; vm_compute; reflexivity. Qed.

(** C10.  [remove_multicapture_reporters] returns a table exactly when
    every capture slice carries an integer restriction fragment, and raises
    a [TypeError] otherwise; the standard pipeline reaches it with a
    capture slice on the sentinel, and then the run ends in that
    [TypeError]. *)
Theorem multicapture_reporters_raises_on_sentinel :
  (forall t : table,
      if captures_on_integer_fragments t
      then exists t', CCSliceFilter.remove_multicapture_reporters 1 t = Ok t'
      else CCSliceFilter.remove_multicapture_reporters 1 t = Raise TypeError) /\
  captures_on_integer_fragments (df_rows unassigned_capture_dataframe) = false /\
  forall rng : sampler,
    run_pipeline rng StandardCapture unassigned_capture_dataframe = Raise TypeError.
Proof.
  split; [| split; [reflexivity | intros rng; vm_compute; reflexivity]].
  intros t. destruct (captures_on_integer_fragments t) eqn:E.
  - destruct (remove_multicapture_reporters_filter 1 t E) as [excluded [Ht' _]].
    eauto.
  - apply captures_on_integer_fragments_false in E.
    destruct E as [s [x [Hs [N Ex]]]].
    unfold CCSliceFilter.remove_multicapture_reporters.
    rewrite (@excluded_fragments_Raise 1 _ x); [reflexivity | lia |].
    apply capture_re_frags_In. exists s. auto.
Qed.

(** ** Removal of whole fragments *)

Section WholeFragments.
Context {F : Type} `{FragmentRow F}.
Variable aggregate : string * table -> F.
Hypothesis aggregate_parent_read : forall g, frag_parent_read (aggregate g) = fst g.

(** Keeping the slices of the fragments that satisfy [P] leaves exactly
    those fragments, with the values they had. *)
Lemma fragments_of_slices_of_fragments (P : F -> bool) (t : table) :
  fragments_of aggregate
    (SliceFilter.slices_of_fragments (filter P (fragments_of aggregate t)) t)
  = filter P (fragments_of aggregate t).
Proof using aggregate_parent_read.
  unfold SliceFilter.slices_of_fragments.
  rewrite (fragments_of_filter aggregate aggregate_parent_read
             (fun p => isin String.eqb p
                         (map frag_parent_read (filter P (fragments_of aggregate t))))).
  apply filter_ext_in. intros f Hf.
  destruct (P f) eqn:Pf.
  - apply (isin_In _ string_eqb_spec), in_map, filter_In. auto.
  - apply (isin_not_In _ string_eqb_spec). intros Hin.
    apply in_map_iff in Hin. destruct Hin as [g [Eg Hg]].
    apply filter_In in Hg. destruct Hg as [Hg Pg].
    assert (g = f) by (eapply fragments_of_same_read; eassumption).
    congruence.
Qed.
End WholeFragments.

Lemma lookup_keys {V : Type} (g : string -> V) (ks : list string) (p : string) :
  TiledCSliceFilter.lookup p (map (fun k => (k, g k)) ks)
  = if isin String.eqb p ks then Some (g p) else None.
Proof.
  induction ks as [| k ks IH]; simpl; [reflexivity |].
  rewrite (String.eqb_sym p k).
  destruct (String.eqb k p) eqn:E; simpl; [| exact IH].
  apply String.eqb_eq in E. now subst.
Qed.

Lemma loc_mask_filter (mask : list (string * bool)) (t : table) :
  (forall s, In s t -> TiledCSliceFilter.lookup (parent_read s) mask <> None) ->
  TiledCSliceFilter.loc_mask mask t
  = Ok (filter (fun s => match TiledCSliceFilter.lookup (parent_read s) mask with
                         | Some keep => keep
                         | None => false
                         end) t).
Proof.
  induction t as [| s t IH]; simpl; intros Hall; [reflexivity |].
  destruct (TiledCSliceFilter.lookup (parent_read s) mask) as [keep |] eqn:E.
  - rewrite IH by (intros s' Hs'; apply Hall; now right). reflexivity.
  - exfalso. apply (Hall s); auto.
Qed.

Lemma loc_mask_unaligned (mask : list (string * bool)) (t : table) :
  (exists s, In s t /\ TiledCSliceFilter.lookup (parent_read s) mask = None) ->
  TiledCSliceFilter.loc_mask mask t = Raise IndexingError.
Proof.
  induction t as [| s t IH]; simpl; intros [z [Hz Ez]]; [destruct Hz |].
  destruct (TiledCSliceFilter.lookup (parent_read s) mask) as [keep |] eqn:E;
    [| reflexivity].
  rewrite IH; [reflexivity |]. exists z. split; [| assumption].
  destruct Hz as [-> | Hz]; [congruence | assumption].
Qed.

Lemma capture_keys_isin (t : table) (p : string) :
  isin String.eqb p (capture_keys t)
  = isin String.eqb p (map parent_read (capture_slices t)).
Proof.
  apply eq_true_iff_eq. rewrite !(isin_In _ string_eqb_spec).
  unfold capture_keys. rewrite sort_values_In. apply (unique_In _ string_eqb_spec).
Qed.

Lemma capture_sites_per_fragment_lookup (t : table) (p : string) :
  TiledCSliceFilter.lookup p (TiledCSliceFilter.capture_sites_per_fragment t)
  = if isin String.eqb p (map parent_read (capture_slices t))
    then Some (nuniqueZ String.eqb (map capture (group_rows p (capture_slices t))))
    else None.
Proof.
  unfold TiledCSliceFilter.capture_sites_per_fragment.
  fold (capture_slices t). fold (capture_keys t).
  rewrite lookup_keys, capture_keys_isin. reflexivity.
Qed.

Lemma dual_capture_mask_lookup (t : table) (p : string) :
  TiledCSliceFilter.lookup p
    (map (fun pb : string * bool => (fst pb, negb (snd pb)))
       (map (fun pn : string * Z => (fst pn, 1 <? snd pn))
          (TiledCSliceFilter.capture_sites_per_fragment t)))
  = option_map (fun n => negb (1 <? n))
      (TiledCSliceFilter.lookup p (TiledCSliceFilter.capture_sites_per_fragment t)).
Proof.
  induction (TiledCSliceFilter.capture_sites_per_fragment t) as [| [k n] m IH];
    simpl; [reflexivity |].
  destruct (String.eqb k p); [reflexivity | exact IH].
Qed.

Lemma remove_dual_capture_fragments_spec (t : table) :
  if every_fragment_has_capture t
  then exists t',
      TiledCSliceFilter.remove_dual_capture_fragments t = Ok t' /\
      Forall (fun s =>
                TiledCSliceFilter.lookup (parent_read s)
                  (TiledCSliceFilter.capture_sites_per_fragment t') = Some 1) t'
  else TiledCSliceFilter.remove_dual_capture_fragments t = Raise IndexingError.
Proof.
  unfold TiledCSliceFilter.remove_dual_capture_fragments.
  destruct (every_fragment_has_capture t) eqn:E.
  - unfold every_fragment_has_capture in E. rewrite forallb_forall in E.
    fold (capture_slices t) in E.
    set (keep := fun s : slice_row =>
                   match option_map (fun n => negb (1 <? n))
                           (TiledCSliceFilter.lookup (parent_read s)
                              (TiledCSliceFilter.capture_sites_per_fragment t)) with
                   | Some b => b
                   | None => false
                   end).
    exists (filter keep t). split.
    + rewrite loc_mask_filter.
      * f_equal. apply filter_ext. intros s. unfold keep.
        now rewrite dual_capture_mask_lookup.
      * intros s Hs. rewrite dual_capture_mask_lookup,
          capture_sites_per_fragment_lookup, (E s Hs). discriminate.
    + apply Forall_forall. intros s Hs. apply filter_In in Hs.
      destruct Hs as [Hs Ks]. unfold keep in Ks.
      rewrite capture_sites_per_fragment_lookup, (E s Hs) in Ks. simpl in Ks.
      apply negb_true_iff, Z.ltb_ge in Ks.
      assert (Hkeep : forall s', parent_read s' = parent_read s -> In s' t -> keep s' = true).
      { intros s' Es' Hs'. unfold keep.
        rewrite Es', capture_sites_per_fragment_lookup, (E s Hs). simpl.
        now apply negb_true_iff, Z.ltb_ge. }
      assert (Hcaps : capture_slices (filter keep t) = filter keep (capture_slices t)).
      { unfold capture_slices. apply filter_filter_comm. }
      assert (Hgroup : group_rows (parent_read s) (capture_slices (filter keep t))
                       = group_rows (parent_read s) (capture_slices t)).
      { rewrite Hcaps. unfold group_rows. rewrite filter_filter_comm.
        apply filter_true_on. intros s' Hs'. apply filter_In in Hs'.
        destruct Hs' as [Hs' Es']. apply String.eqb_eq in Es'.
        apply Hkeep; [assumption |]. apply filter_In in Hs'. tauto. }
      pose proof (E s Hs) as Hin. apply (isin_In _ string_eqb_spec) in Hin.
      apply in_map_iff in Hin. destruct Hin as [c [Ec Hc]].
      rewrite capture_sites_per_fragment_lookup, Hgroup.
      assert (Hin' : isin String.eqb (parent_read s)
                       (map parent_read (capture_slices (filter keep t))) = true).
      { apply (isin_In _ string_eqb_spec), in_map_iff. exists c. split; [assumption |].
        rewrite Hcaps. apply filter_In. split; [assumption |].
        apply Hkeep; [assumption |]. unfold capture_slices in Hc.
        apply filter_In in Hc. tauto. }
      rewrite Hin'. f_equal.
      assert (Hc' : In c (group_rows (parent_read s) (capture_slices t))).
      { apply filter_In. split; [assumption | now apply String.eqb_eq]. }
      destruct (group_rows (parent_read s) (capture_slices t)) as [| r rows];
        [destruct Hc' |].
      pose proof (nunique_nonempty String.eqb (capture r) (map capture rows)) as Hn.
      unfold nuniqueZ in *. simpl map in *. lia.
  - apply loc_mask_unaligned.
    unfold every_fragment_has_capture in E. fold (capture_slices t) in E.
    assert (Hex : exists s, In s t /\
                    isin String.eqb (parent_read s)
                      (map parent_read (capture_slices t)) = false).
    { clear -E. revert E. generalize (map parent_read (capture_slices t)) as ks.
      intros ks. induction t as [| s t IH]; simpl; [discriminate |].
      intros E. apply andb_false_iff in E. destruct E as [E | E].
      - exists s. auto.
      - destruct (IH E) as [s' [Hs' Es']]. exists s'. auto. }
    destruct Hex as [s [Hs Es]]. exists s. split; [assumption |].
    now rewrite dual_capture_mask_lookup, capture_sites_per_fragment_lookup, Es.
Qed.

(** C9.  [remove_multi_capture_fragments] selects the fragments whose
    [unique_capture_sites] column is 1, and that column is the number of
    distinct [capture] values minus one, whether or not the sentinel is
    among them.  A read whose two slices lie on two different capture
    sites has 2 distinct capture sites and 1 in the column: the operation
    keeps it.  A read whose two slices lie on one capture site has 1
    distinct capture site and 0 in the column: the operation removes it. *)
Theorem multi_capture_removal_keeps_read_on_two_capture_sites :
  spec_unique_present (map capture two_capture_sites_fragment) = 2 /\
  map Fragment.unique_capture_sites
    (CCSliceFilter.fragments two_capture_sites_fragment) = [1] /\
  CCSliceFilter.remove_multi_capture_fragments two_capture_sites_fragment
  = two_capture_sites_fragment /\
  spec_unique_present (map capture capture_only_fragment) = 1 /\
  map Fragment.unique_capture_sites
    (CCSliceFilter.fragments capture_only_fragment) = [0] /\
  CCSliceFilter.remove_multi_capture_fragments capture_only_fragment = [].
Proof. repeat split; vm_compute; reflexivity. Qed.

(** X25.  In the tiled variant [remove_dual_capture_fragments] returns a
    table exactly when every parent read of the table has a capture slice,
    and then every parent read left in the table has exactly 1 distinct
    capture site ([capture] values other than the sentinel); otherwise it
    raises an [IndexingError]. *)
Theorem remove_dual_capture_fragments_leaves_single_site_reads (t : table) :
  if every_fragment_has_capture t
  then exists t',
      TiledCSliceFilter.remove_dual_capture_fragments t = Ok t' /\
      subtable t' t /\
      Forall (fun s =>
                TiledCSliceFilter.lookup (parent_read s)
                  (TiledCSliceFilter.capture_sites_per_fragment t') = Some 1 /\
                spec_unique_present (map capture (group_rows (parent_read s) t')) = 1)
        t'
  else TiledCSliceFilter.remove_dual_capture_fragments t = Raise IndexingError.
Proof.
  pose proof (remove_dual_capture_fragments_spec t) as Hspec.
  destruct (every_fragment_has_capture t); [| exact Hspec].
  destruct Hspec as [t' [E Hall]]. exists t'. split; [exact E |].
  split; [now apply loc_mask_subtable in E |].
  apply Forall_forall. intros s Hs.
  pose proof (proj1 (Forall_forall _ _) Hall s Hs) as H1. cbv beta in H1.
  split; [exact H1 |].
  rewrite capture_sites_per_fragment_lookup in H1.
  destruct (isin String.eqb (parent_read s) (map parent_read (capture_slices t')));
    [| discriminate].
  injection H1 as H1. rewrite <- H1. unfold spec_unique_present, capture_slices.
  f_equal. unfold group_rows.
  rewrite filter_filter_comm.
  induction (filter (fun s0 => String.eqb (parent_read s0) (parent_read s)) t')
    as [| r rows IH]; simpl; [reflexivity |].
  destruct (String.eqb (capture r) "."); simpl; now rewrite IH.
Qed.

(** ** Duplicate fragments *)

Section DropDuplicates.
Context {A K : Type} (eqb : K -> K -> bool) (key : A -> K).
Hypothesis eqb_spec : forall x y, eqb x y = true <-> x = y.

Lemma drop_duplicates_from_In (seen : list K) (l : list A) (x : A) :
  In x (drop_duplicates_from eqb key seen l) -> In x l /\ ~ In (key x) seen.
Proof using eqb_spec.
  revert seen. induction l as [| y l IH]; simpl; intros seen; [tauto |].
  destruct (isin eqb (key y) seen) eqn:E.
  - intros Hx. destruct (IH _ Hx). auto.
  - intros [<- | Hx].
    + split; [now left | now apply (isin_not_In _ eqb_spec)].
    + destruct (IH _ Hx) as [H1 H2]. split; [now right |].
      intros Hs. apply H2. now right.
Qed.

Lemma drop_duplicates_from_NoDup (seen : list K) (l : list A) :
  NoDup (map key (drop_duplicates_from eqb key seen l)).
Proof using eqb_spec.
  revert seen. induction l as [| y l IH]; simpl; intros seen; [constructor |].
  destruct (isin eqb (key y) seen); [apply IH |].
  simpl. constructor; [| apply IH].
  intros Hy. apply in_map_iff in Hy. destruct Hy as [z [Ez Hz]].
  apply drop_duplicates_from_In in Hz. destruct Hz as [_ Hz].
  apply Hz. left. now symmetry.
Qed.

Lemma drop_duplicates_from_covers (seen : list K) (l : list A) (x : A) :
  In x l -> ~ In (key x) seen ->
  exists y, In y (drop_duplicates_from eqb key seen l) /\ key y = key x.
Proof using eqb_spec.
  revert seen. induction l as [| z l IH]; simpl; intros seen Hx Hs; [destruct Hx |].
  destruct (isin eqb (key z) seen) eqn:E.
  - apply (isin_In _ eqb_spec) in E.
    destruct Hx as [-> | Hx]; [contradiction | now apply IH].
  - destruct (eqb (key z) (key x)) eqn:Ek.
    + apply eqb_spec in Ek. exists z. split; [now left | assumption].
    + apply (eqb_false_of_spec _ eqb_spec) in Ek.
      destruct Hx as [-> | Hx]; [congruence |].
      destruct (IH (key z :: seen) Hx) as [y [Hy Ey]].
      * intros [E' | E']; [congruence | contradiction].
      * exists y. split; [now right | assumption].
Qed.
End DropDuplicates.

Section DuplicateFragments.
Context {F : Type} `{FragmentRow F}.
Variable aggregate : string * table -> F.
Hypothesis aggregate_parent_read : forall g, frag_parent_read (aggregate g) = fst g.
Variable sample : list F -> list F.

Lemma remove_duplicate_slices_spec (t : table) :
  Permutation (sample (fragments_of aggregate t)) (fragments_of aggregate t) ->
  one_survivor_per_coordinates (fragments_of aggregate t) t
    (SliceFilter.remove_duplicate_slices (fragments_of aggregate) sample t).
Proof using aggregate_parent_read.
  intros Hperm. unfold SliceFilter.remove_duplicate_slices.
  set (frags := fragments_of aggregate t) in *.
  set (kept := drop_duplicates String.eqb frag_coordinates (sample frags)).
  set (t' := SliceFilter.slices_of_fragments kept t).
  assert (Hkept : forall f, In f kept -> In f frags).
  { intros f Hf. apply (drop_duplicates_from_In _ _ string_eqb_spec) in Hf.
    eapply Permutation_in; [exact Hperm | tauto]. }
  assert (Hsurv : forall p, In p (map parent_read t') <-> In p (map frag_parent_read kept)).
  { intros p. unfold t', SliceFilter.slices_of_fragments.
    rewrite in_map_iff. split.
    - intros [s [<- Hs]]. apply filter_In in Hs.
      now apply (isin_In _ string_eqb_spec).
    - intros Hp. pose proof Hp as Hp'. apply in_map_iff in Hp'.
      destruct Hp' as [f [<- Hf]].
      assert (Hin : In (frag_parent_read f) (map parent_read t)).
      { apply (fragments_of_In_parent_read aggregate aggregate_parent_read).
        apply in_map. now apply Hkept. }
      apply in_map_iff in Hin. destruct Hin as [s [Es Hs]].
      exists s. split; [assumption |]. apply filter_In. split; [assumption |].
      rewrite Es. now apply (isin_In _ string_eqb_spec). }
  split.
  - intros c Hc. apply in_map_iff in Hc. destruct Hc as [f0 [Ec Hf0]].
    assert (Hs0 : In f0 (sample frags))
      by (eapply Permutation_in; [symmetry; exact Hperm | assumption]).
    destruct (drop_duplicates_from_covers _ frag_coordinates string_eqb_spec
                [] _ _ Hs0) as [f [Hf Ef]]; [intros [] |].
    exists f. split.
    + split; [now apply Hkept |]. split; [congruence |].
      apply Hsurv. now apply in_map.
    + intros g [Hg [Eg Sg]]. apply Hsurv in Sg. apply in_map_iff in Sg.
      destruct Sg as [g' [Eg' Hg']].
      assert (g' = g).
      { eapply (fragments_of_same_read aggregate aggregate_parent_read);
          [apply Hkept; eassumption | eassumption | assumption]. }
      subst g'.
      eapply NoDup_map_injective;
        [apply (drop_duplicates_from_NoDup _ frag_coordinates string_eqb_spec [])
        | exact Hf | exact Hg' | congruence].
  - unfold t' at 1. unfold SliceFilter.slices_of_fragments.
    apply filter_ext_in. intros s Hs. apply eq_true_iff_eq.
    rewrite !(isin_In _ string_eqb_spec). symmetry. apply Hsurv.
Qed.
End DuplicateFragments.

Lemma reversing_sampler_shuffles : shuffles reversing_sampler.
Proof. intros A l. symmetry. apply Permutation_rev. Qed.

(** C7.  Frag 1 and Frag 4 of the docstring of [remove_duplicate_slices]
    hold the same two loci in opposite slice order: joined in slice order
    their coordinates differ, and the docstring retains both.  [fragments]
    joins them in locus order, so the two fragments carry one
    coordinates string and the operation removes one of them whatever the
    shuffle returns: Frag 4 when it leaves the fragment table as it is,
    Frag 1 when it reverses it; in the standard and in the tiled
    variant. *)
Theorem duplicate_removal_drops_fragment_in_other_slice_order :
  spec_joined_coordinates "frag1" frag1_frag4 = "chr1:1000-1250|chr1:1500-1750" /\
  spec_joined_coordinates "frag4" frag1_frag4 = "chr1:1500-1750|chr1:1000-1250" /\
  map slice_name
    (SliceFilter.remove_duplicate_slices CCSliceFilter.fragments
       (identity_sampler Fragment.t) frag1_frag4) = ["frag1|0"; "frag1|1"] /\
  map slice_name
    (SliceFilter.remove_duplicate_slices CCSliceFilter.fragments
       (reversing_sampler Fragment.t) frag1_frag4) = ["frag4|0"; "frag4|1"] /\
  map slice_name
    (SliceFilter.remove_duplicate_slices TiledCSliceFilter.fragments
       (identity_sampler TiledFragment.t) frag1_frag4) = ["frag1|0"; "frag1|1"] /\
  map slice_name
    (SliceFilter.remove_duplicate_slices TiledCSliceFilter.fragments
       (reversing_sampler TiledFragment.t) frag1_frag4) = ["frag4|0"; "frag4|1"] /\
  forall rng : sampler,
    shuffles rng ->
    In (map slice_name
          (SliceFilter.remove_duplicate_slices CCSliceFilter.fragments
             (rng Fragment.t) frag1_frag4))
      [ ["frag1|0"; "frag1|1"]; ["frag4|0"; "frag4|1"] ] /\
    In (map slice_name
          (SliceFilter.remove_duplicate_slices TiledCSliceFilter.fragments
             (rng TiledFragment.t) frag1_frag4))
      [ ["frag1|0"; "frag1|1"]; ["frag4|0"; "frag4|1"] ].
Proof.
  do 6 (split; [vm_compute; reflexivity |]).
  intros rng Hrng. split.
  - unfold SliceFilter.remove_duplicate_slices.
    pose proof (Hrng Fragment.t (CCSliceFilter.fragments frag1_frag4)) as Hp.
    remember (rng Fragment.t (CCSliceFilter.fragments frag1_frag4)) as l eqn:El.
    clear El. vm_compute in Hp. symmetry in Hp.
    apply Permutation_length_2_inv in Hp.
    destruct Hp as [-> | ->]; [left | right; left]; vm_compute; reflexivity.
  - unfold SliceFilter.remove_duplicate_slices.
    pose proof (Hrng TiledFragment.t (TiledCSliceFilter.fragments frag1_frag4)) as Hp.
    remember (rng TiledFragment.t (TiledCSliceFilter.fragments frag1_frag4))
      as l eqn:El.
    clear El. vm_compute in Hp. symmetry in Hp.
    apply Permutation_length_2_inv in Hp.
    destruct Hp as [-> | ->]; [left | right; left]; vm_compute; reflexivity.
Qed.

(** X24.  Whatever permutation of the fragment table the shuffle returns,
    after [remove_duplicate_slices] exactly one fragment of each group of
    fragments with the same [coordinates] value, as [fragments] computes
    it, is still represented in the slice table, and the slice table holds
    exactly the slices of the parent reads it still represents; in the
    standard and in the tiled variant. *)
Theorem duplicate_removal_keeps_one_fragment_per_coordinates
  (rng : sampler) (t : table) :
  shuffles rng ->
  one_survivor_per_coordinates (CCSliceFilter.fragments t) t
    (SliceFilter.remove_duplicate_slices CCSliceFilter.fragments (rng Fragment.t) t) /\
  one_survivor_per_coordinates (TiledCSliceFilter.fragments t) t
    (SliceFilter.remove_duplicate_slices TiledCSliceFilter.fragments
       (rng TiledFragment.t) t).
Proof.
  intros Hrng. split.
  - apply (remove_duplicate_slices_spec _ cc_aggregate_parent_read). apply Hrng.
  - apply (remove_duplicate_slices_spec _ tiled_aggregate_parent_read). apply Hrng.
Qed.

Lemma duplicate_removal_keeps_one_fragment_per_coordinates_witness :
  shuffles reversing_sampler /\
  one_survivor_per_coordinates (CCSliceFilter.fragments frag1_frag4) frag1_frag4
    (SliceFilter.remove_duplicate_slices CCSliceFilter.fragments
       (reversing_sampler Fragment.t) frag1_frag4) /\
  one_survivor_per_coordinates (TiledCSliceFilter.fragments frag1_frag4) frag1_frag4
    (SliceFilter.remove_duplicate_slices TiledCSliceFilter.fragments
       (reversing_sampler TiledFragment.t) frag1_frag4).
Proof.
  split; [exact reversing_sampler_shuffles |].
  apply (duplicate_removal_keeps_one_fragment_per_coordinates
           reversing_sampler frag1_frag4 reversing_sampler_shuffles).
Defined.

(** ** PE duplicates *)

Lemma option_eqb_spec {A : Type} (eqb : A -> A -> bool) :
  (forall x y, eqb x y = true <-> x = y) ->
  forall a b, option_eqb eqb a b = true <-> a = b.
Proof.
  intros Hspec [x |] [y |]; simpl; rewrite ?Hspec; split; congruence.
Qed.

Lemma pair_eqb_spec {A B : Type} (ea : A -> A -> bool) (eb : B -> B -> bool) :
  (forall x y, ea x y = true <-> x = y) ->
  (forall x y, eb x y = true <-> x = y) ->
  forall a b, pair_eqb ea eb a b = true <-> a = b.
Proof.
  intros Ha Hb [a1 b1] [a2 b2]. unfold pair_eqb. simpl.
  rewrite andb_true_iff, Ha, Hb. split; [intros [-> ->] | intros E; injection E]; auto.
Qed.

Lemma read_ends_eqb_spec (a b : option string * option string) :
  SliceFilter.read_ends_eqb a b = true <-> a = b.
Proof.
  apply pair_eqb_spec; apply option_eqb_spec; apply string_eqb_spec.
Qed.

Section Duplicated.
Context {A K : Type} (eqb : K -> K -> bool) (key : A -> K).
Hypothesis eqb_spec : forall x y, eqb x y = true <-> x = y.
Variable P : A -> bool.

(** The rows flagged by [duplicated] among the rows that satisfy [P]:
    those with a key already seen, or carried by an earlier row that
    satisfies [P]. *)
Lemma duplicated_from_filter_In (seen : list K) (l : list A) (x : A) :
  In x (duplicated_from eqb key seen (filter P l)) <->
  exists before after,
    l = before ++ x :: after /\ P x = true /\
    (In (key x) seen \/ exists g, In g before /\ P g = true /\ key g = key x).
Proof using eqb_spec.
  revert seen. induction l as [| y l IH]; intros seen; simpl.
  - split; [intros [] |]. intros [b [a [E _]]]. destruct b; discriminate.
  - destruct (P y) eqn:Py; simpl.
    + destruct (isin eqb (key y) seen) eqn:Sy; simpl.
      * apply (isin_In _ eqb_spec) in Sy. rewrite IH. split.
        -- intros [<- | [b [a [-> [Px Hd]]]]].
           ++ exists [], l. auto.
           ++ exists (y :: b), a. repeat split; auto.
              destruct Hd as [Hs | [g [Hg Hk]]]; [now left |].
              right. exists g. split; [now right | assumption].
        -- intros [b [a [E [Px Hd]]]]. destruct b as [| z b]; simpl in E.
           ++ injection E as -> ->. now left.
           ++ injection E as -> ->. right. exists b, a. repeat split; auto.
              destruct Hd as [Hs | [g [[-> | Hg] [Pg Hk]]]].
              ** now left.
              ** left. now rewrite <- Hk.
              ** right. exists g. auto.
      * apply (isin_not_In _ eqb_spec) in Sy. rewrite IH. split.
        -- intros [b [a [-> [Px Hd]]]]. exists (y :: b), a. repeat split; auto.
           destruct Hd as [[Hk | Hs] | [g [Hg Hk]]].
           ++ right. exists y. split; [now left | auto].
           ++ now left.
           ++ right. exists g. split; [now right | assumption].
        -- intros [b [a [E [Px Hd]]]]. destruct b as [| z b]; simpl in E.
           ++ injection E as -> ->.
              destruct Hd as [Hs | [g [[] _]]]. contradiction.
           ++ injection E as -> ->. exists b, a. repeat split; auto.
              destruct Hd as [Hs | [g [[-> | Hg] [Pg Hk]]]].
              ** left. now right.
              ** left. now left.
              ** right. exists g. auto.
    + rewrite IH. split.
      * intros [b [a [-> [Px Hd]]]]. exists (y :: b), a. repeat split; auto.
        destruct Hd as [Hs | [g [Hg Hk]]]; [now left |].
        right. exists g. split; [now right | assumption].
      * intros [b [a [E [Px Hd]]]]. destruct b as [| z b]; simpl in E.
        -- injection E as -> ->. congruence.
        -- injection E as -> ->. exists b, a. repeat split; auto.
           destruct Hd as [Hs | [g [[-> | Hg] [Pg Hk]]]].
           ++ now left.
           ++ congruence.
           ++ right. exists g. auto.
Qed.
End Duplicated.

Lemma NoDup_map_filter {A B : Type} (k : A -> B) (P : A -> bool) (l : list A) :
  NoDup (map k l) -> NoDup (map k (filter P l)).
Proof.
  induction l as [| x l IH]; simpl; intros N; [constructor |].
  inversion N as [| ? ? Hx Hl]; subst.
  destruct (P x); simpl; [| now apply IH].
  constructor; [| now apply IH].
  intros Hin. apply Hx. apply in_map_iff in Hin. destruct Hin as [y [Ey Hy]].
  apply filter_In in Hy. rewrite <- Ey. apply in_map. tauto.
Qed.

Section PeDuplicates.
Context {F : Type} `{FragmentRow F}.
Variable aggregate : string * table -> F.
Hypothesis aggregate_parent_read : forall g, frag_parent_read (aggregate g) = fst g.
Hypothesis aggregate_pe : forall g, frag_pe (aggregate g) = hd "" (map pe (snd g)).

Lemma pe_duplicate_duplicated (t : table) (p : string) :
  In p (map frag_parent_read
          (duplicated SliceFilter.read_ends_eqb SliceFilter.read_ends
             (filter unflashed (fragments_of aggregate t))))
  <-> pe_duplicate (fragments_of aggregate t) p.
Proof.
  unfold duplicated, pe_duplicate. rewrite in_map_iff. split.
  - intros [f [<- Hf]].
    apply (duplicated_from_filter_In _ _ read_ends_eqb_spec) in Hf.
    destruct Hf as [b [a [E [Pf [[] | [g [Hg [Pg Hk]]]]]]]].
    exists b, f, a. split; [assumption |]. split; [reflexivity |].
    split; [now apply String.eqb_eq |].
    exists g. split; [assumption |]. split; [now apply String.eqb_eq | assumption].
  - intros [b [f [a [E [<- [Pf [g [Hg [Pg Hk]]]]]]]]].
    exists f. split; [reflexivity |].
    apply (duplicated_from_filter_In _ _ read_ends_eqb_spec).
    exists b, a. split; [assumption |]. split; [now apply String.eqb_eq |].
    right. exists g. split; [assumption |]. split; [now apply String.eqb_eq | assumption].
Qed.

(** With at most one slice marked unflashed there is at most one
    unflashed fragment, hence no duplicate: the guard of the operation
    skips only cases in which nothing would be removed. *)
Lemma no_duplicates_below_guard (t : table) :
  (1 <? Z.of_nat (List.length
                    (filter (fun s => str_contains "unflashed" (pe s)) t))) = false ->
  duplicated SliceFilter.read_ends_eqb SliceFilter.read_ends
    (filter unflashed (fragments_of aggregate t)) = [].
Proof using aggregate_parent_read aggregate_pe.
  intros Hguard. apply Z.ltb_ge in Hguard.
  set (U := filter (fun s => str_contains "unflashed" (pe s)) t) in *.
  set (L := filter unflashed (fragments_of aggregate t)).
  assert (Hlen : (List.length L <= List.length U)%nat).
  { rewrite <- (length_map frag_parent_read L), <- (length_map parent_read U).
    apply NoDup_incl_length.
    - apply NoDup_map_filter.
      apply (fragments_of_NoDup aggregate aggregate_parent_read).
    - intros p Hp. apply in_map_iff in Hp. destruct Hp as [f [<- Hf]].
      apply filter_In in Hf. destruct Hf as [Hf Pf].
      apply String.eqb_eq in Pf.
      destruct (fragments_of_pe aggregate aggregate_parent_read aggregate_pe t f Hf)
        as [s [Hs [Es Ep]]].
      rewrite <- Es. apply in_map. apply filter_In. split; [assumption |].
      rewrite Ep, Pf. reflexivity. }
  destruct L as [| x [| y L]]; [reflexivity | reflexivity |].
  simpl in Hlen. lia.
Qed.

Lemma remove_duplicate_slices_pe_spec (t : table) (s : slice_row) :
  In s t ->
  (In s (SliceFilter.remove_duplicate_slices_pe (fragments_of aggregate) t)
   <-> ~ pe_duplicate (fragments_of aggregate t) (parent_read s)).
Proof using aggregate_parent_read aggregate_pe.
  intros Hs. unfold SliceFilter.remove_duplicate_slices_pe.
  rewrite <- pe_duplicate_duplicated.
  destruct (1 <? _) eqn:Hguard.
  - rewrite filter_In, negb_true_iff, (isin_not_In _ string_eqb_spec). tauto.
  - fold (@unflashed F _). rewrite (no_duplicates_below_guard t Hguard). simpl. tauto.
Qed.
End PeDuplicates.

(** C4.  Two unflashed reads with the same first-slice start (1000) and
    last-slice end (1750), the second one with its slices in descending
    locus order.  [fragments] joins the coordinates of the second read in
    locus order, so the operation reads 500, the start of its last
    slice, as the read start and 1100, the end of its first slice, as the
    read end; off the coordinates joined in slice order the same parse
    reads 1000 and 1750.  The operation keeps all four slices, where
    removal by first-slice start and last-slice end drops the second
    read. *)
Theorem pe_duplicate_removal_reads_ends_in_locus_order :
  sort_values by_parent_read_slice unflashed_pair = unflashed_pair /\
  map (fun f => (Fragment.parent_read f, Fragment.coordinates f,
                 SliceFilter.read_ends f))
    (CCSliceFilter.fragments unflashed_pair)
  = [ ("readA", "chr1:1000-1250|chr1:1500-1750", (Some "1000", Some "1750"));
      ("readB", "chr1:500-1750|chr1:1000-1100", (Some "500", Some "1100")) ] /\
  map (fun f => (TiledFragment.parent_read f, TiledFragment.coordinates f,
                 SliceFilter.read_ends f))
    (TiledCSliceFilter.fragments unflashed_pair)
  = [ ("readA", "chr1:1000-1250|chr1:1500-1750", (Some "1000", Some "1750"));
      ("readB", "chr1:500-1750|chr1:1000-1100", (Some "500", Some "1100")) ] /\
  map (fun g => (fst g, spec_read_ends g)) (groupby_parent_read unflashed_pair)
  = [ ("readA", (Some 1000, Some 1750)); ("readB", (Some 1000, Some 1750)) ] /\
  spec_joined_coordinates "readB" unflashed_pair = "chr1:1000-1100|chr1:500-1750" /\
  SliceFilter.read_start (spec_joined_coordinates "readB" unflashed_pair)
  = Some "1000" /\
  SliceFilter.read_end (spec_joined_coordinates "readB" unflashed_pair)
  = Some "1750" /\
  map slice_name (spec_remove_duplicate_slices_pe unflashed_pair)
  = ["readA|0"; "readA|1"] /\
  SliceFilter.remove_duplicate_slices_pe CCSliceFilter.fragments unflashed_pair
  = unflashed_pair /\
  SliceFilter.remove_duplicate_slices_pe TiledCSliceFilter.fragments unflashed_pair
  = unflashed_pair.
Proof. repeat split; vm_compute; reflexivity. Qed.

(** X23.  In the standard and in the tiled variant, on every table,
    [remove_duplicate_slices_pe] keeps a slice exactly when its fragment is
    not a PE duplicate: an unflashed fragment whose read ends ([read_start]
    and [read_end] of its [coordinates] value, as [fragments] computes it)
    are those of an unflashed fragment earlier in the fragment table.
    Slices of flashed fragments are never removed. *)
Theorem pe_duplicate_removal_drops_repeated_read_ends (t : table) (s : slice_row) :
  In s t ->
  (In s (SliceFilter.remove_duplicate_slices_pe CCSliceFilter.fragments t)
   <-> ~ pe_duplicate (CCSliceFilter.fragments t) (parent_read s)) /\
  (In s (SliceFilter.remove_duplicate_slices_pe TiledCSliceFilter.fragments t)
   <-> ~ pe_duplicate (TiledCSliceFilter.fragments t) (parent_read s)).
Proof.
  intros Hs. split.
  - now apply (remove_duplicate_slices_pe_spec _ cc_aggregate_parent_read cc_aggregate_pe).
  - now apply (remove_duplicate_slices_pe_spec _ tiled_aggregate_parent_read
                 tiled_aggregate_pe).
Qed.

Lemma pe_duplicate_removal_drops_repeated_read_ends_witness :
  In readB_first_slice unflashed_duplicates /\
  (In readB_first_slice
     (SliceFilter.remove_duplicate_slices_pe CCSliceFilter.fragments
        unflashed_duplicates)
   <-> ~ pe_duplicate (CCSliceFilter.fragments unflashed_duplicates)
         (parent_read readB_first_slice)) /\
  (In readB_first_slice
     (SliceFilter.remove_duplicate_slices_pe TiledCSliceFilter.fragments
        unflashed_duplicates)
   <-> ~ pe_duplicate (TiledCSliceFilter.fragments unflashed_duplicates)
         (parent_read readB_first_slice)).
Proof.
  split; [simpl; auto |].
  apply (pe_duplicate_removal_drops_repeated_read_ends
           unflashed_duplicates readB_first_slice).
  simpl; auto.
Defined.

(** On the two unflashed fragments with read ends 1000 and 1750 the second
    one is removed. *)
Example pe_duplicates_example :
  map (fun f => SliceFilter.read_ends f) (CCSliceFilter.fragments unflashed_duplicates)
  = [ (Some "1000", Some "1750"); (Some "1000", Some "1750") ] /\
  map slice_name
    (SliceFilter.remove_duplicate_slices_pe CCSliceFilter.fragments unflashed_duplicates)
  = ["readA|0"; "readA|1"].
Proof. split; vm_compute; reflexivity. Qed.

(** *** Reading the ends off a coordinates string *)

Lemma split_chars_free (seps : list ascii) (a : string) :
  free_of seps a = true -> split_chars seps a = [a].
Proof.
  induction a as [| c a IH]; simpl; [reflexivity |].
  intros Hf. apply andb_true_iff in Hf. destruct Hf as [Hc Ha].
  apply negb_true_iff in Hc. rewrite Hc, (IH Ha). reflexivity.
Qed.

Lemma split_chars_app (seps : list ascii) (a : string) (c : ascii) (b : string) :
  free_of seps a = true -> existsb (Ascii.eqb c) seps = true ->
  split_chars seps (a ++ String c b)%string = a :: split_chars seps b.
Proof.
  intros Hf Hc. induction a as [| x a IH]; simpl.
  - now rewrite Hc.
  - simpl in Hf. apply andb_true_iff in Hf. destruct Hf as [Hx Ha].
    apply negb_true_iff in Hx. rewrite Hx, (IH Ha). reflexivity.
Qed.

Lemma free_of_app (seps : list ascii) (a b : string) :
  free_of seps (a ++ b)%string = free_of seps a && free_of seps b.
Proof.
  induction a as [| x a IH]; simpl; [reflexivity |].
  now rewrite IH, andb_assoc.
Qed.

Lemma plain_free_of_bar (s : string) :
  plain s = true -> free_of [SliceFilter.bar] s = true.
Proof.
  unfold plain. induction s as [| c s IH]; simpl; [reflexivity |].
  intros Hp. apply andb_true_iff in Hp. destruct Hp as [Hc Hs].
  rewrite (IH Hs), andb_true_r.
  destruct (Ascii.eqb c SliceFilter.bar); [discriminate | reflexivity].
Qed.

Lemma plain_free_of_colon_dash (s : string) :
  plain s = true -> free_of [SliceFilter.colon; SliceFilter.dash] s = true.
Proof.
  unfold plain. induction s as [| c s IH]; simpl; [reflexivity |].
  intros Hp. apply andb_true_iff in Hp. destruct Hp as [Hc Hs].
  rewrite (IH Hs), andb_true_r.
  destruct (Ascii.eqb c SliceFilter.bar); [discriminate | exact Hc].
Qed.

Lemma locus_string_free_of_bar (l : locus) :
  plain_locus l = true -> free_of [SliceFilter.bar] (locus_string l) = true.
Proof.
  destruct l as [[chrom_ st] en]. unfold plain_locus, locus_string. simpl.
  intros Hp. apply andb_true_iff in Hp. destruct Hp as [Hp He].
  apply andb_true_iff in Hp. destruct Hp as [Hc Hs].
  rewrite !free_of_app. simpl. rewrite !free_of_app. simpl.
  now rewrite (plain_free_of_bar _ Hc), (plain_free_of_bar _ Hs),
    (plain_free_of_bar _ He).
Qed.

Lemma split_locus_string (l : locus) :
  plain_locus l = true ->
  split_chars [SliceFilter.colon; SliceFilter.dash] (locus_string l)
  = [fst (fst l); snd (fst l); snd l].
Proof.
  destruct l as [[chrom_ st] en]. unfold plain_locus, locus_string. simpl.
  intros Hp. apply andb_true_iff in Hp. destruct Hp as [Hp He].
  apply andb_true_iff in Hp. destruct Hp as [Hc Hs].
  change (":" ++ st ++ "-" ++ en)%string
    with (String SliceFilter.colon (st ++ String SliceFilter.dash en)%string).
  rewrite split_chars_app;
    [| now apply plain_free_of_colon_dash | reflexivity].
  rewrite split_chars_app;
    [| now apply plain_free_of_colon_dash | reflexivity].
  rewrite split_chars_free by now apply plain_free_of_colon_dash.
  reflexivity.
Qed.

Lemma split_joined_loci (l : locus) (ls : list locus) :
  forallb plain_locus (l :: ls) = true ->
  split_chars [SliceFilter.bar] (join "|" (map locus_string (l :: ls)))
  = map locus_string (l :: ls).
Proof.
  revert l. induction ls as [| l' ls IH]; intros l Hp.
  - simpl in Hp. rewrite andb_true_r in Hp. simpl.
    apply split_chars_free. now apply locus_string_free_of_bar.
  - change (forallb plain_locus (l :: l' :: ls))
      with (plain_locus l && forallb plain_locus (l' :: ls)) in Hp.
    apply andb_true_iff in Hp. destruct Hp as [Hl Hls].
    change (join "|" (map locus_string (l :: l' :: ls)))
      with (locus_string l
            ++ String SliceFilter.bar (join "|" (map locus_string (l' :: ls))))%string.
    rewrite split_chars_app;
      [| now apply locus_string_free_of_bar | reflexivity].
    rewrite (IH l' Hls). reflexivity.
Qed.

Lemma last_cons {A : Type} (l : list A) (a d : A) : last (a :: l) d = last l a.
Proof.
  revert a d. induction l as [| b l IH]; intros a d; [reflexivity |].
  change (last (a :: b :: l) d) with (last (b :: l) d). now rewrite !IH.
Qed.

Lemma last_In_cons {A : Type} (l : list A) (a d : A) : In (last (a :: l) d) (a :: l).
Proof.
  revert a. induction l as [| b l IH]; intros a; [now left |].
  change (last (a :: b :: l) d) with (last (b :: l) d). right. apply IH.
Qed.

Lemma hd_error_rev_last {A : Type} (l : list A) (a : A) :
  hd_error (rev (a :: l)) = Some (last l a).
Proof.
  revert a. induction l as [| b l IH]; intros a; [reflexivity |].
  change (rev (a :: b :: l)) with (rev (b :: l) ++ [a]).
  specialize (IH b). destruct (rev (b :: l)) as [| r rs]; [discriminate |].
  simpl in *. rewrite IH. f_equal. symmetry. apply (last_cons l b a).
Qed.

(** For a coordinates string that joins canonical loci, the read start is
    the start of the first locus of the string and the read end the end of
    its last locus. *)
Lemma read_ends_of_joined_loci (l : locus) (ls : list locus) :
  forallb plain_locus (l :: ls) = true ->
  SliceFilter.read_start (join "|" (map locus_string (l :: ls)))
  = Some (snd (fst l)) /\
  SliceFilter.read_end (join "|" (map locus_string (l :: ls)))
  = Some (snd (last ls l)).
Proof.
  intros Hp. unfold SliceFilter.read_start, SliceFilter.read_end,
    SliceFilter.str_split, SliceFilter.str_get, SliceFilter.str_get_last.
  cbv beta iota delta [option_map]. rewrite (split_joined_loci l ls Hp). split.
  - simpl. rewrite split_locus_string; [reflexivity |].
    simpl in Hp. apply andb_true_iff in Hp. tauto.
  - assert (Hlast : hd_error (rev (map locus_string (l :: ls)))
                    = Some (locus_string (last ls l))).
    { rewrite <- map_rev.
      assert (Hr : hd_error (rev (l :: ls)) = Some (last ls l))
        by apply hd_error_rev_last.
      destruct (rev (l :: ls)) as [| r rs]; [discriminate |].
      simpl in *. congruence. }
    rewrite Hlast. simpl.
    assert (Hpl : plain_locus (last ls l) = true).
    { rewrite forallb_forall in Hp. apply Hp.
      rewrite <- (last_cons ls l l). apply last_In_cons. }
    rewrite (split_locus_string _ Hpl). reflexivity.
Qed.

(** * Further properties of the filtering engine *)

(** ** Construction *)

Lemma by_parent_read_slice_total (x y : slice_row) :
  by_parent_read_slice x y = false -> by_parent_read_slice y x = true.
Proof. apply string_then_total. lia. Qed.

Lemma by_parent_read_slice_trans (x y z : slice_row) :
  by_parent_read_slice x y = true -> by_parent_read_slice y z = true ->
  by_parent_read_slice x z = true.
Proof. apply string_then_trans. lia. Qed.

Lemma check_columns_present (required columns : list string) :
  forallb (fun col => isin String.eqb col columns) required = true ->
  SliceFilter.check_columns required columns = Ok tt.
Proof.
  induction required as [| r required IH]; simpl; [reflexivity |].
  intros Hall. apply andb_true_iff in Hall. destruct Hall as [Hr Hall].
  rewrite Hr. now apply IH.
Qed.

Lemma check_columns_absent (required columns : list string) :
  forallb (fun col => isin String.eqb col columns) required = false ->
  exists col,
    isin String.eqb col required = true /\
    isin String.eqb col columns = false /\
    SliceFilter.check_columns required columns
    = Raise (KeyError (SliceFilter.missing_column_message col)).
Proof.
  induction required as [| r required IH]; simpl; [discriminate |].
  intros Hall. destruct (isin String.eqb r columns) eqn:Hr; simpl in Hall.
  - destruct (IH Hall) as [col [H1 [H2 H3]]]. exists col.
    rewrite H1, orb_true_r. auto.
  - exists r. rewrite String.eqb_refl. auto.
Qed.

(** X1.  A variant is constructed exactly from the tables that have the
    fourteen checked columns, whatever stages are passed: the instance then
    holds the input rows stably sorted by parent read and slice, the given
    stages (the variant's defaults when none or an empty mapping is given)
    and no statistics; on such a table only the base class without stages
    raises the [ValueError].  A table that lacks a checked column raises
    the [KeyError] of a missing column instead. *)
Theorem construction_sorts_rows_and_sets_stages
  (v : variant) (df : dataframe) (filter_stages : option stages) :
  if has_checked_columns df
  then
    (exists self,
        variant_init v df filter_stages = Ok self /\
        SliceFilter.slices self = sort_values by_parent_read_slice (df_rows df) /\
        sorted_rows by_parent_read_slice (SliceFilter.slices self) /\
        Permutation (SliceFilter.slices self) (df_rows df) /\
        SliceFilter.filter_stages self = stages_or_default v filter_stages /\
        SliceFilter._filter_stats self = []) /\
    SliceFilter.__init__ df None "" "" = Raise (ValueError "Filter stages not provided") /\
    SliceFilter.__init__ df (Some []) "" "" = Raise (ValueError "Filter stages not provided")
  else
    exists col,
      isin String.eqb col SliceFilter.columns_required = true /\
      isin String.eqb col (df_columns df) = false /\
      variant_init v df filter_stages
      = Raise (KeyError (SliceFilter.missing_column_message col)).
Proof.
  unfold has_checked_columns.
  destruct (forallb _ SliceFilter.columns_required) eqn:Hcols.
  - apply check_columns_present in Hcols.
    assert (Hbase : forall st sts,
               SliceFilter.__init__ df (Some (st :: sts)) "" ""
               = Ok {| SliceFilter.slices := sort_values by_parent_read_slice (df_rows df);
                       SliceFilter.filter_stages := st :: sts;
                       SliceFilter._filter_stats := [];
                       SliceFilter.sample_name := "";
                       SliceFilter.read_type := "" |}).
    { intros st sts. unfold SliceFilter.__init__,
        SliceFilter._check_required_columns_present. now rewrite Hcols. }
    split; [| split].
    + exists {| SliceFilter.slices := sort_values by_parent_read_slice (df_rows df);
                SliceFilter.filter_stages := stages_or_default v filter_stages;
                SliceFilter._filter_stats := [];
                SliceFilter.sample_name := "";
                SliceFilter.read_type := "" |}.
      split.
      * destruct v; simpl;
          unfold TriCSliceFilter.__init__, CCSliceFilter.__init__,
            TiledCSliceFilter.__init__;
          destruct filter_stages as [[| st sts] |]; apply Hbase.
      * simpl. split; [reflexivity |]. split.
        -- apply sort_values_sorted;
             [apply by_parent_read_slice_total | apply by_parent_read_slice_trans].
        -- split; [apply sort_values_perm |]. split; reflexivity.
    + unfold SliceFilter.__init__, SliceFilter._check_required_columns_present.
      now rewrite Hcols.
    + unfold SliceFilter.__init__, SliceFilter._check_required_columns_present.
      now rewrite Hcols.
  - destruct (check_columns_absent _ _ Hcols) as [col [H1 [H2 H3]]].
    exists col. split; [assumption |]. split; [assumption |].
    destruct v; simpl;
      unfold TriCSliceFilter.__init__, CCSliceFilter.__init__,
        TiledCSliceFilter.__init__, SliceFilter.__init__,
        SliceFilter._check_required_columns_present;
      rewrite H3; reflexivity.
Qed.

(** ** The stage executor *)

Lemma subtable_trans (t1 t2 t3 : table) :
  subtable t1 t2 -> subtable t2 t3 -> subtable t1 t3.
Proof.
  intros H12 H23. revert t1 H12.
  induction H23 as [| s t2 t3 H23 IH | s t2 t3 H23 IH]; intros t1 H12.
  - exact H12.
  - inversion H12; subst.
    + constructor. now apply IH.
    + apply subtable_drop. now apply IH.
  - apply subtable_drop. now apply IH.
Qed.

Lemma getattr_In (methods : list (string * (table -> result table)))
  (filt : string) (m : table -> result table) :
  SliceFilter.getattr methods filt = Ok m -> In (filt, m) methods.
Proof.
  induction methods as [| [name m'] methods IH]; simpl; [discriminate |].
  destruct (String.eqb name filt) eqn:E.
  - intros H. injection H as <-. apply String.eqb_eq in E. subst. now left.
  - intros H. right. now apply IH.
Qed.

Lemma set_column_fresh (stage_name : string) (v : stats)
  (cols : list (string * stats)) :
  ~ In stage_name (map fst cols) ->
  SliceFilter.set_column stage_name v cols = cols ++ [(stage_name, v)].
Proof.
  induction cols as [| [k w] cols IH]; simpl; intros Hn; [reflexivity |].
  destruct (String.eqb k stage_name) eqn:E.
  - apply String.eqb_eq in E. exfalso. apply Hn. now left.
  - rewrite IH; [reflexivity |]. intros Hin. apply Hn. now right.
Qed.

Section ExecutorFacts.
Variable methods : list (string * (table -> result table)).
Variable slice_stats : table -> result stats.
Hypothesis methods_only_remove : Forall (fun m => only_removes (snd m)) methods.

Lemma run_filters_subtable (filters : list string) (t t' : table) :
  SliceFilter.run_filters methods filters t = Ok t' -> subtable t' t.
Proof using methods_only_remove.
  revert t. induction filters as [| filt filters IH]; simpl; intros t E.
  - injection E as <-. apply subtable_refl.
  - destruct (SliceFilter.getattr methods filt) as [m |] eqn:G; [| discriminate].
    simpl in E. destruct (m t) as [t1 |] eqn:M; [| discriminate]. simpl in E.
    apply getattr_In in G.
    pose proof (proj1 (Forall_forall _ _) methods_only_remove _ G t) as Hm.
    simpl in Hm. unfold table_after in Hm. rewrite M in Hm.
    eapply subtable_trans; [apply IH; exact E | exact Hm].
Qed.

Lemma run_stages_snapshots (sts : stages) (t t' : table)
  (acc acc' : list (string * stats)) :
  NoDup (map fst sts) ->
  (forall k, In k (map fst sts) -> ~ In k (map fst acc)) ->
  SliceFilter.run_stages methods slice_stats sts t acc = Ok (t', acc') ->
  subtable t' t /\
  exists snaps,
    acc' = acc ++ snaps /\
    map fst snaps = map fst sts /\
    Forall (fun kv => exists ti, subtable ti t /\ subtable t' ti /\
                                 slice_stats ti = Ok (snd kv)) snaps /\
    (forall kv, hd_error (rev snaps) = Some kv -> slice_stats t' = Ok (snd kv)).
Proof using methods_only_remove.
  revert t acc. induction sts as [| [stage_name filters] sts IH];
    simpl; intros t acc Hnd Hfresh E.
  - injection E as <- <-. split; [apply subtable_refl |].
    exists []. rewrite app_nil_r. repeat split; [constructor | discriminate].
  - destruct (SliceFilter.run_filters methods filters t) as [t1 |] eqn:R;
      [| discriminate].
    simpl in E. destruct (slice_stats t1) as [st |] eqn:St; [| discriminate].
    simpl in E. inversion Hnd as [| ? ? Hstage Hnd']; subst.
    rewrite set_column_fresh in E by (apply Hfresh; now left).
    apply run_filters_subtable in R.
    destruct (IH t1 (acc ++ [(stage_name, st)]) Hnd')
      as [Hsub [snaps [Eacc [Ekeys [Hall Hlast]]]]]; [| exact E |].
    { intros k Hk Hin. rewrite map_app, in_app_iff in Hin. simpl in Hin.
      destruct Hin as [Hin | [<- | []]].
      - apply (Hfresh k); [now right | assumption].
      - contradiction. }
    split; [eapply subtable_trans; eassumption |].
    exists ((stage_name, st) :: snaps).
    split; [rewrite Eacc, <- app_assoc; reflexivity |].
    split; [simpl; now rewrite Ekeys |]. split.
    + constructor.
      * exists t1. auto.
      * eapply Forall_impl; [| exact Hall]. intros kv [ti [H1 [H2 H3]]].
        exists ti. split; [eapply subtable_trans; eassumption | auto].
    + intros kv Hkv. simpl in Hkv.
      destruct snaps as [| kv' snaps'].
      * simpl in Hkv. injection Hkv as <-. simpl.
        destruct sts; [| discriminate]. simpl in E.
        injection E as -> _. exact St.
      * apply Hlast.
        assert (Hne : rev (kv' :: snaps') <> []).
        { intros Hr. apply (f_equal (@List.length _)) in Hr.
          rewrite length_rev in Hr. discriminate. }
        destruct (rev (kv' :: snaps')); [contradiction | exact Hkv].
Qed.
End ExecutorFacts.

(** X2.  When [filter_slices] runs to the end on a fresh instance whose
    stage names are distinct, the instance holds a selection of the rows it
    started with, and [filter_stats] has one row per stage, in declared
    stage order; each row holds the slice statistics of a table between the
    start and the end of the run, and the last row those of the final
    table. *)
Theorem filter_slices_records_one_snapshot_per_stage
  (rng : sampler) (v : variant) (self self' : SliceFilter.t) :
  NoDup (map fst (SliceFilter.filter_stages self)) ->
  SliceFilter._filter_stats self = [] ->
  variant_filter_slices rng v self = Ok self' ->
  subtable (SliceFilter.slices self') (SliceFilter.slices self) /\
  SliceFilter.filter_stages self' = SliceFilter.filter_stages self /\
  map stage (filter_stats self') = map fst (SliceFilter.filter_stages self) /\
  Forall (fun row =>
            exists ti, subtable ti (SliceFilter.slices self) /\
                       subtable (SliceFilter.slices self') ti /\
                       variant_slice_stats v ti = Ok (metrics row))
    (filter_stats self') /\
  (forall row, hd_error (rev (filter_stats self')) = Some row ->
               variant_slice_stats v (SliceFilter.slices self')
               = Ok (metrics row)).
Proof.
  intros Hnd Hfresh E. unfold variant_filter_slices, SliceFilter.filter_slices in E.
  destruct (SliceFilter.run_stages _ _ _ _ _) as [[t' acc'] |] eqn:R; [| discriminate].
  simpl in E. injection E as <-. simpl.
  rewrite Hfresh in R.
  destruct (run_stages_snapshots _ _ (variant_methods_only_remove rng v)
              _ _ _ [] _ Hnd (fun k _ (Hin : In k []) => Hin) R)
    as [Hsub [snaps [Eacc [Ekeys [Hall Hlast]]]]].
  simpl in Eacc. subst acc'.
  split; [exact Hsub |]. split; [reflexivity |].
  unfold filter_stats. simpl. rewrite map_map. simpl.
  split; [exact Ekeys |]. split.
  - apply Forall_map. exact Hall.
  - intros row Hrow. rewrite <- map_rev in Hrow.
    destruct (rev snaps) as [| kv rest]; [discriminate |].
    simpl in Hrow. injection Hrow as <-. simpl. now apply Hlast.
Qed.

Lemma filter_slices_records_one_snapshot_per_stage_witness :
  NoDup (map fst (SliceFilter.filter_stages adjacency_filter)) /\
  SliceFilter._filter_stats adjacency_filter = [] /\
  exists self',
    variant_filter_slices reversing_sampler StandardCapture adjacency_filter = Ok self' /\
    subtable (SliceFilter.slices self') (SliceFilter.slices adjacency_filter) /\
    SliceFilter.filter_stages self' = SliceFilter.filter_stages adjacency_filter /\
    map stage (filter_stats self')
    = map fst (SliceFilter.filter_stages adjacency_filter) /\
    Forall (fun row =>
              exists ti, subtable ti (SliceFilter.slices adjacency_filter) /\
                         subtable (SliceFilter.slices self') ti /\
                         variant_slice_stats StandardCapture ti
                         = Ok (metrics row))
      (filter_stats self') /\
    (forall row, hd_error (rev (filter_stats self')) = Some row ->
                 variant_slice_stats StandardCapture (SliceFilter.slices self')
                 = Ok (metrics row)).
Proof.
  assert (Hnd : NoDup (map fst (SliceFilter.filter_stages adjacency_filter))).
  { simpl. repeat constructor; simpl; intuition discriminate. }
  split; [exact Hnd |]. split; [reflexivity |].
  destruct (variant_filter_slices reversing_sampler StandardCapture adjacency_filter)
    as [self' |] eqn:E; [| vm_compute in E; discriminate].
  exists self'. split; [reflexivity |].
  exact (filter_slices_records_one_snapshot_per_stage
           reversing_sampler StandardCapture adjacency_filter self' Hnd eq_refl E).
Defined.

(** ** Filters that keep or drop whole fragments *)

Lemma filter_idempotent {A : Type} (p : A -> bool) (l : list A) :
  filter p (filter p l) = filter p l.
Proof.
  apply filter_true_on. intros x Hx. apply filter_In in Hx. tauto.
Qed.

Section FragmentFilters.
Context {F : Type} `{FragmentRow F}.
Variable aggregate : string * table -> F.
Hypothesis aggregate_parent_read : forall g, frag_parent_read (aggregate g) = fst g.

Lemma fragments_of_slices_of_any (kept : list F) (t : table) :
  fragments_of aggregate (SliceFilter.slices_of_fragments kept t)
  = filter (fun f => isin String.eqb (frag_parent_read f) (map frag_parent_read kept))
      (fragments_of aggregate t).
Proof using aggregate_parent_read.
  unfold SliceFilter.slices_of_fragments.
  apply (fragments_of_filter aggregate aggregate_parent_read
           (fun p => isin String.eqb p (map frag_parent_read kept))).
Qed.

(** Keeping the fragments that satisfy [P] a second time changes nothing. *)
Lemma slices_of_fragments_idempotent (P : F -> bool) (t : table) :
  let t' := SliceFilter.slices_of_fragments (filter P (fragments_of aggregate t)) t in
  SliceFilter.slices_of_fragments (filter P (fragments_of aggregate t')) t' = t'.
Proof using aggregate_parent_read.
  intros t'. unfold t' at 1.
  rewrite (fragments_of_slices_of_fragments aggregate aggregate_parent_read).
  rewrite filter_idempotent. unfold t', SliceFilter.slices_of_fragments.
  apply filter_idempotent.
Qed.

Lemma fragment_filter_spec (P : F -> bool) (t : table) :
  let t' := SliceFilter.slices_of_fragments (filter P (fragments_of aggregate t)) t in
  fragments_of aggregate t' = filter P (fragments_of aggregate t) /\
  Forall (fun f => P f = true) (fragments_of aggregate t') /\
  SliceFilter.slices_of_fragments (filter P (fragments_of aggregate t')) t' = t'.
Proof using aggregate_parent_read.
  intros t'. split; [| split].
  - apply (fragments_of_slices_of_fragments aggregate aggregate_parent_read).
  - unfold t'.
    rewrite (fragments_of_slices_of_fragments aggregate aggregate_parent_read).
    apply Forall_forall. intros f Hf. apply filter_In in Hf. tauto.
  - apply slices_of_fragments_idempotent.
Qed.
End FragmentFilters.

(** X3.  [remove_orphan_slices], in the standard and in the tiled variant:
    the fragment table afterwards is the fragment table before restricted
    to the fragments with more than one slice, each with the values it had;
    every fragment left has [unique_slices > 1]; applying the operation
    again changes nothing. *)
Theorem remove_orphan_slices_keeps_multislice_fragments (t : table) :
  (let t' := SliceFilter.remove_orphan_slices CCSliceFilter.fragments t in
   CCSliceFilter.fragments t'
   = filter (fun f => 1 <? Fragment.unique_slices f) (CCSliceFilter.fragments t) /\
   Forall (fun f => 1 < Fragment.unique_slices f) (CCSliceFilter.fragments t') /\
   SliceFilter.remove_orphan_slices CCSliceFilter.fragments t' = t') /\
  (let t' := SliceFilter.remove_orphan_slices TiledCSliceFilter.fragments t in
   TiledCSliceFilter.fragments t'
   = filter (fun f => 1 <? TiledFragment.unique_slices f) (TiledCSliceFilter.fragments t) /\
   Forall (fun f => 1 < TiledFragment.unique_slices f) (TiledCSliceFilter.fragments t') /\
   SliceFilter.remove_orphan_slices TiledCSliceFilter.fragments t' = t').
Proof.
  split.
  - destruct (fragment_filter_spec _ cc_aggregate_parent_read
                (fun f => 1 <? Fragment.unique_slices f) t) as [H1 [H2 H3]].
    split; [exact H1 |]. split; [| exact H3].
    eapply Forall_impl; [| exact H2]. intros f Hf. now apply Z.ltb_lt.
  - destruct (fragment_filter_spec _ tiled_aggregate_parent_read
                (fun f => 1 <? TiledFragment.unique_slices f) t) as [H1 [H2 H3]].
    split; [exact H1 |]. split; [| exact H3].
    eapply Forall_impl; [| exact H2]. intros f Hf. now apply Z.ltb_lt.
Qed.

(** X4.  [remove_non_reporter_fragments] keeps exactly the fragments with
    [reporter_count > 0], each with the values it had, and is idempotent. *)
Theorem remove_non_reporter_fragments_keeps_fragments_with_reporters (t : table) :
  let t' := CCSliceFilter.remove_non_reporter_fragments t in
  CCSliceFilter.fragments t'
  = filter (fun f => 0 <? Fragment.reporter_count f) (CCSliceFilter.fragments t) /\
  Forall (fun f => 0 < Fragment.reporter_count f) (CCSliceFilter.fragments t') /\
  CCSliceFilter.remove_non_reporter_fragments t' = t'.
Proof.
  destruct (fragment_filter_spec _ cc_aggregate_parent_read
              (fun f => 0 <? Fragment.reporter_count f) t) as [H1 [H2 H3]].
  split; [exact H1 |]. split; [| exact H3].
  eapply Forall_impl; [| exact H2]. intros f Hf. now apply Z.ltb_lt.
Qed.

(** X5.  [remove_slices_with_one_reporter] of the triplet variant keeps
    exactly the fragments with [reporter_count > 1], each with the values
    it had, and is idempotent. *)
Theorem remove_slices_with_one_reporter_keeps_triplets (t : table) :
  let t' := TriCSliceFilter.remove_slices_with_one_reporter t in
  CCSliceFilter.fragments t'
  = filter (fun f => 1 <? Fragment.reporter_count f) (CCSliceFilter.fragments t) /\
  Forall (fun f => 1 < Fragment.reporter_count f) (CCSliceFilter.fragments t') /\
  TriCSliceFilter.remove_slices_with_one_reporter t' = t'.
Proof.
  destruct (fragment_filter_spec _ cc_aggregate_parent_read
              (fun f => 1 <? Fragment.reporter_count f) t) as [H1 [H2 H3]].
  split; [exact H1 |]. split; [| exact H3].
  eapply Forall_impl; [| exact H2]. intros f Hf. now apply Z.ltb_lt.
Qed.

(** X6.  [remove_non_capture_fragments] of the tiled variant keeps exactly
    the fragments with [capture_count > 0], each with the values it had,
    and is idempotent. *)
Theorem remove_non_capture_fragments_keeps_fragments_with_capture (t : table) :
  let t' := TiledCSliceFilter.remove_non_capture_fragments t in
  TiledCSliceFilter.fragments t'
  = filter (fun f => 0 <? TiledFragment.capture_count f) (TiledCSliceFilter.fragments t) /\
  Forall (fun f => 0 < TiledFragment.capture_count f) (TiledCSliceFilter.fragments t') /\
  TiledCSliceFilter.remove_non_capture_fragments t' = t'.
Proof.
  destruct (fragment_filter_spec _ tiled_aggregate_parent_read
              (fun f => 0 <? TiledFragment.capture_count f) t) as [H1 [H2 H3]].
  split; [exact H1 |]. split; [| exact H3].
  eapply Forall_impl; [| exact H2]. intros f Hf. now apply Z.ltb_lt.
Qed.

(** X7.  [remove_multi_capture_fragments] keeps exactly the fragments whose
    [unique_capture_sites] is 1, each with the values it had, and is
    idempotent. *)
Theorem remove_multi_capture_fragments_keeps_whole_fragments (t : table) :
  let t' := CCSliceFilter.remove_multi_capture_fragments t in
  CCSliceFilter.fragments t'
  = filter (fun f => Fragment.unique_capture_sites f =? 1) (CCSliceFilter.fragments t) /\
  CCSliceFilter.remove_multi_capture_fragments t' = t'.
Proof.
  destruct (fragment_filter_spec _ cc_aggregate_parent_read
              (fun f => (0 <? Fragment.unique_capture_sites f)
                        && (Fragment.unique_capture_sites f <? 2)) t)
    as [H1 [_ H3]].
  split; [| exact H3].
  etransitivity; [exact H1 |]. apply filter_ext. intros f.
  destruct (Fragment.unique_capture_sites f =? 1) eqn:E.
  - apply Z.eqb_eq in E. rewrite E. reflexivity.
  - apply Z.eqb_neq in E. apply andb_false_iff.
    destruct (0 <? Fragment.unique_capture_sites f) eqn:E0; [right | now left].
    apply Z.ltb_lt in E0. apply Z.ltb_ge. lia.
Qed.

(** ** Slice statistics and the fragment table *)

Lemma nunique_incl {A : Type} (eqb : A -> A -> bool)
  (eqb_spec : forall x y, eqb x y = true <-> x = y) (l1 l2 : list A) :
  incl l1 l2 -> (nunique eqb l1 <= nunique eqb l2)%nat.
Proof.
  intros Hincl. unfold nunique. apply NoDup_incl_length.
  - now apply unique_NoDup.
  - intros x Hx. rewrite (unique_In _ eqb_spec) in Hx |- *. now apply Hincl.
Qed.

Lemma nunique_perm {A : Type} (eqb : A -> A -> bool)
  (eqb_spec : forall x y, eqb x y = true <-> x = y) (l1 l2 : list A) :
  Permutation l1 l2 -> nunique eqb l1 = nunique eqb l2.
Proof.
  intros Hp. apply Nat.le_antisymm; apply (nunique_incl _ eqb_spec); intros x Hx.
  - eapply Permutation_in; eassumption.
  - eapply Permutation_in; [symmetry; exact Hp | assumption].
Qed.

Lemma fragments_of_length {F : Type} (aggregate : string * table -> F) (t : table) :
  List.length (fragments_of aggregate t) = nunique String.eqb (map parent_read t).
Proof.
  unfold fragments_of, groupby_parent_read. rewrite !length_map.
  apply (nunique_perm _ string_eqb_spec). apply Permutation_map, sort_values_perm.
Qed.

(** X8.  On every table with at least one row the [unique_fragments]
    statistic is the number of rows of the fragment table, in the standard
    and in the tiled variant.  On the table without rows, whose fragment
    table is empty, the standard variant reports 1 and the tiled variant
    raises a [ValueError]. *)
Theorem unique_fragments_counts_fragment_rows (t : table) :
  match t with
  | [] =>
      metric "unique_fragments" (CCSliceFilter.slice_stats []) = Some 1 /\
      CCSliceFilter.fragments [] = [] /\
      exists msg, TiledCSliceFilter.slice_stats [] = Raise (ValueError msg)
  | _ =>
      metric "unique_fragments" (CCSliceFilter.slice_stats t)
      = Some (Z.of_nat (List.length (CCSliceFilter.fragments t))) /\
      exists st,
        TiledCSliceFilter.slice_stats t = Ok st /\
        metric "unique_fragments" st
        = Some (Z.of_nat (List.length (TiledCSliceFilter.fragments t)))
  end.
Proof.
  destruct t as [| s t].
  - split; [reflexivity |]. split; [reflexivity |]. eexists. reflexivity.
  - split.
    + rewrite cc_fragments_of, fragments_of_length. reflexivity.
    + eexists. split; [reflexivity |].
      rewrite tiled_fragments_of, fragments_of_length. reflexivity.
Qed.

Lemma subtable_incl_map {B : Type} (f : slice_row -> B) (t' t : table) :
  subtable t' t -> incl (map f t') (map f t).
Proof.
  intros S b Hb. apply in_map_iff in Hb. destruct Hb as [s [<- Hs]].
  apply in_map. eapply subtable_In; eassumption.
Qed.

Lemma unique_counts_shrink (v : variant) (t' t : table) :
  subtable t' t ->
  forall label, In label ["unique_slices"; "unique_fragments"] ->
    match variant_slice_stats v t' with
    | Ok st' =>
        exists st a b,
          variant_slice_stats v t = Ok st /\
          metric label st' = Some a /\ metric label st = Some b /\ a <= b
    | Raise e =>
        v = TiledCapture /\ t' = [] /\ exists msg, e = ValueError msg
    end.
Proof.
  intros S label Hl.
  assert (Hn : forall f : slice_row -> string,
             nuniqueZ String.eqb (map f t') <= nuniqueZ String.eqb (map f t)).
  { intros f. unfold nuniqueZ. apply inj_le.
    apply (nunique_incl _ string_eqb_spec). now apply subtable_incl_map. }
  assert (Hone : forall f : slice_row -> string, forall s l,
             1 <= nuniqueZ String.eqb (map f (s :: l))).
  { intros f s l. unfold nuniqueZ.
    pose proof (nunique_nonempty String.eqb (f s) (map f l)). simpl map. lia. }
  assert (Hcc : forall f : slice_row -> string,
             match t' with
             | [] => 1
             | _ => nuniqueZ String.eqb (map f t')
             end
             <= match t with
                | [] => 1
                | _ => nuniqueZ String.eqb (map f t)
                end).
  { intros f. destruct t' as [| s' l'], t as [| s l].
    - lia.
    - apply Hone.
    - inversion S.
    - apply Hn. }
  assert (Hstd : exists st a b,
             Ok (CCSliceFilter.slice_stats t) = Ok st /\
             metric label (CCSliceFilter.slice_stats t') = Some a /\
             metric label st = Some b /\ a <= b).
  { exists (CCSliceFilter.slice_stats t).
    destruct Hl as [<- | [<- | []]].
    - exists (match t' with [] => 1 | _ => nuniqueZ String.eqb (map slice_name t') end),
        (match t with [] => 1 | _ => nuniqueZ String.eqb (map slice_name t) end).
      split; [reflexivity |]. split; [destruct t'; reflexivity |].
      split; [destruct t; reflexivity | apply Hcc].
    - exists (match t' with [] => 1 | _ => nuniqueZ String.eqb (map parent_read t') end),
        (match t with [] => 1 | _ => nuniqueZ String.eqb (map parent_read t) end).
      split; [reflexivity |]. split; [destruct t'; reflexivity |].
      split; [destruct t; reflexivity | apply Hcc]. }
  destruct v; simpl; try exact Hstd.
  destruct t' as [| s' l'].
  - simpl. split; [reflexivity |]. split; [reflexivity |]. eexists. reflexivity.
  - destruct t as [| s l]; [inversion S |].
    destruct Hl as [<- | [<- | []]];
      (eexists; eexists; eexists; split; [reflexivity |];
       split; [reflexivity |]; split; [reflexivity | apply Hn]).
Qed.

(** X9.  No filter operation of any variant increases the [unique_slices]
    or the [unique_fragments] statistic of the table: whenever
    [slice_stats] reports on the table an operation leaves, it reports on
    the table before it as well, with values at least as large.  It fails
    to report only in the tiled variant on a table left without rows,
    where it raises a [ValueError]. *)
Theorem filter_operations_never_increase_unique_counts (rng : sampler) (v : variant) :
  Forall (fun m => forall (t : table) (label : string),
            In label ["unique_slices"; "unique_fragments"] ->
            match variant_slice_stats v (table_after (snd m) t) with
            | Ok st' =>
                exists st a b,
                  variant_slice_stats v t = Ok st /\
                  metric label st' = Some a /\ metric label st = Some b /\
                  a <= b
            | Raise e =>
                v = TiledCapture /\ table_after (snd m) t = [] /\
                exists msg, e = ValueError msg
            end)
    (variant_methods rng v).
Proof.
  eapply Forall_impl; [| apply variant_methods_only_remove].
  intros m Hm t label Hl. apply unique_counts_shrink; [apply Hm | exact Hl].
Qed.

(** ** After duplicate removal *)

Section DropDuplicatesFixed.
Context {A K : Type} (eqb : K -> K -> bool) (key : A -> K).
Hypothesis eqb_spec : forall x y, eqb x y = true <-> x = y.

Lemma drop_duplicates_from_fixed (seen : list K) (l : list A) :
  (forall x, In x l -> ~ In (key x) seen) -> NoDup (map key l) ->
  drop_duplicates_from eqb key seen l = l.
Proof using eqb_spec.
  revert seen. induction l as [| x l IH]; simpl; intros seen Hs Hn; [reflexivity |].
  inversion Hn as [| ? ? Hx Hl]; subst.
  rewrite (proj2 (isin_not_In _ eqb_spec _ _) (Hs x (or_introl eq_refl))).
  f_equal. apply IH; [| assumption].
  intros y Hy [E | Hin].
  - apply Hx. rewrite E. now apply in_map.
  - apply (Hs y); [now right | assumption].
Qed.

Lemma duplicated_from_incl (seen : list K) (l : list A) (x : A) :
  In x (duplicated_from eqb key seen l) -> In x l.
Proof.
  revert seen. induction l as [| y l IH]; simpl; intros seen; [tauto |].
  destruct (isin eqb (key y) seen).
  - intros [<- | Hx]; [now left | right; eapply IH; eassumption].
  - intros Hx. right. eapply IH; eassumption.
Qed.

Lemma duplicated_from_none (seen : list K) (l : list A) :
  (forall x, In x l -> ~ In (key x) seen) -> NoDup (map key l) ->
  duplicated_from eqb key seen l = [].
Proof using eqb_spec.
  revert seen. induction l as [| x l IH]; simpl; intros seen Hs Hn; [reflexivity |].
  inversion Hn as [| ? ? Hx Hl]; subst.
  rewrite (proj2 (isin_not_In _ eqb_spec _ _) (Hs x (or_introl eq_refl))).
  apply IH; [| assumption].
  intros y Hy [E | Hin].
  - apply Hx. rewrite E. now apply in_map.
  - apply (Hs y); [now right | assumption].
Qed.

(** Removing the rows flagged by [duplicated] leaves what
    [drop_duplicates] keeps, when rows are told apart by [ident]. *)
Lemma remove_duplicated_is_drop_duplicates (ident : A -> string)
  (seen : list K) (l : list A) :
  NoDup (map ident l) ->
  filter (fun x => negb (isin String.eqb (ident x)
                           (map ident (duplicated_from eqb key seen l)))) l
  = drop_duplicates_from eqb key seen l.
Proof.
  revert seen. induction l as [| x l IH]; simpl; intros seen Hn; [reflexivity |].
  inversion Hn as [| ? ? Hx Hl]; subst.
  assert (Hrest : forall D,
             filter (fun y => negb (String.eqb (ident y) (ident x)
                                    || isin String.eqb (ident y) D)) l
             = filter (fun y => negb (isin String.eqb (ident y) D)) l).
  { intros D. apply filter_ext_in. intros y Hy.
    destruct (String.eqb (ident y) (ident x)) eqn:E; [| reflexivity].
    apply String.eqb_eq in E. exfalso. apply Hx. rewrite <- E. now apply in_map. }
  destruct (isin eqb (key x) seen); simpl.
  - rewrite String.eqb_refl. simpl. rewrite Hrest. now apply IH.
  - assert (Hkeep : isin String.eqb (ident x)
                      (map ident (duplicated_from eqb key (key x :: seen) l)) = false).
    { apply (isin_not_In _ string_eqb_spec). intros Hin. apply Hx.
      apply in_map_iff in Hin. destruct Hin as [y [Ey Hy]].
      rewrite <- Ey. apply in_map. eapply duplicated_from_incl. eassumption. }
    rewrite Hkeep. simpl. f_equal. now apply IH.
Qed.
End DropDuplicatesFixed.

Lemma NoDup_map_within {A B : Type} (k : A -> B) (kept l : list A) :
  NoDup l -> (forall x, In x l -> In x kept) -> NoDup (map k kept) ->
  NoDup (map k l).
Proof.
  intros Hl Hsub Hk. induction l as [| x l IH]; simpl; [constructor |].
  inversion Hl as [| ? ? Hx Hl']; subst. constructor.
  - intros Hin. apply in_map_iff in Hin. destruct Hin as [y [Ey Hy]].
    assert (y = x).
    { eapply NoDup_map_injective; [exact Hk | | | exact Ey]; apply Hsub;
        [now right | now left]. }
    subst. contradiction.
  - apply IH; [assumption |]. intros y Hy. apply Hsub. now right.
Qed.

Section AfterDuplicateRemoval.
Context {F : Type} `{FragmentRow F}.
Variable aggregate : string * table -> F.
Hypothesis aggregate_parent_read : forall g, frag_parent_read (aggregate g) = fst g.

Lemma remove_duplicate_slices_distinct (sample : list F -> list F) (t : table) :
  Permutation (sample (fragments_of aggregate t)) (fragments_of aggregate t) ->
  NoDup (map frag_coordinates
           (fragments_of aggregate
              (SliceFilter.remove_duplicate_slices (fragments_of aggregate) sample t))).
Proof using aggregate_parent_read.
  intros Hperm. unfold SliceFilter.remove_duplicate_slices.
  rewrite (fragments_of_slices_of_any aggregate aggregate_parent_read).
  set (frags := fragments_of aggregate t) in *.
  set (kept := drop_duplicates String.eqb frag_coordinates (sample frags)).
  assert (Hkept : forall f, In f kept -> In f frags).
  { intros f Hf. apply (drop_duplicates_from_In _ _ string_eqb_spec) in Hf.
    eapply Permutation_in; [exact Hperm | tauto]. }
  apply NoDup_map_within with (kept := kept).
  - apply NoDup_filter. eapply NoDup_map_inv.
    apply (fragments_of_NoDup aggregate aggregate_parent_read).
  - intros f Hf. apply filter_In in Hf. destruct Hf as [Hf Hin].
    apply (isin_In _ string_eqb_spec), in_map_iff in Hin.
    destruct Hin as [g [Eg Hg]].
    assert (g = f).
    { eapply (fragments_of_same_read aggregate aggregate_parent_read);
        [apply Hkept; eassumption | eassumption | assumption]. }
    now subst.
  - apply (drop_duplicates_from_NoDup _ _ string_eqb_spec).
Qed.

Lemma remove_duplicate_slices_fixed (sample : list F -> list F) (t : table) :
  Permutation (sample (fragments_of aggregate t)) (fragments_of aggregate t) ->
  NoDup (map frag_coordinates (fragments_of aggregate t)) ->
  SliceFilter.remove_duplicate_slices (fragments_of aggregate) sample t = t.
Proof using aggregate_parent_read.
  intros Hperm Hnd. unfold SliceFilter.remove_duplicate_slices, drop_duplicates.
  rewrite (drop_duplicates_from_fixed _ _ string_eqb_spec).
  - unfold SliceFilter.slices_of_fragments. apply filter_true_on.
    intros s Hs. apply (isin_In _ string_eqb_spec).
    eapply Permutation_in; [apply Permutation_map; symmetry; exact Hperm |].
    apply (fragments_of_In_parent_read aggregate aggregate_parent_read).
    now apply in_map.
  - intros x _ [].
  - eapply Permutation_NoDup; [apply Permutation_map; symmetry; exact Hperm | exact Hnd].
Qed.
End AfterDuplicateRemoval.

(** X10.  After [remove_duplicate_slices], for any permutation the shuffle
    returns, the coordinates strings of the fragment table are pairwise
    distinct, and a second removal, with any shuffle, changes nothing; in
    the standard and in the tiled variant. *)
Theorem remove_duplicate_slices_leaves_distinct_coordinates
  (rng rng' : sampler) (t : table) :
  shuffles rng -> shuffles rng' ->
  (let t' := SliceFilter.remove_duplicate_slices CCSliceFilter.fragments
               (rng Fragment.t) t in
   NoDup (map Fragment.coordinates (CCSliceFilter.fragments t')) /\
   SliceFilter.remove_duplicate_slices CCSliceFilter.fragments (rng' Fragment.t) t'
   = t') /\
  (let t' := SliceFilter.remove_duplicate_slices TiledCSliceFilter.fragments
               (rng TiledFragment.t) t in
   NoDup (map TiledFragment.coordinates (TiledCSliceFilter.fragments t')) /\
   SliceFilter.remove_duplicate_slices TiledCSliceFilter.fragments
     (rng' TiledFragment.t) t'
   = t').
Proof.
  intros Hrng Hrng'. split.
  - pose proof (remove_duplicate_slices_distinct _ cc_aggregate_parent_read
                  (rng Fragment.t) t (Hrng _ _)) as Hnd.
    split; [exact Hnd |].
    apply (remove_duplicate_slices_fixed _ cc_aggregate_parent_read);
      [apply Hrng' | exact Hnd].
  - pose proof (remove_duplicate_slices_distinct _ tiled_aggregate_parent_read
                  (rng TiledFragment.t) t (Hrng _ _)) as Hnd.
    split; [exact Hnd |].
    apply (remove_duplicate_slices_fixed _ tiled_aggregate_parent_read);
      [apply Hrng' | exact Hnd].
Qed.

Lemma remove_duplicate_slices_leaves_distinct_coordinates_witness :
  shuffles reversing_sampler /\
  (let t' := SliceFilter.remove_duplicate_slices CCSliceFilter.fragments
               (reversing_sampler Fragment.t) frag1_frag4 in
   NoDup (map Fragment.coordinates (CCSliceFilter.fragments t')) /\
   SliceFilter.remove_duplicate_slices CCSliceFilter.fragments
     (reversing_sampler Fragment.t) t' = t') /\
  (let t' := SliceFilter.remove_duplicate_slices TiledCSliceFilter.fragments
               (reversing_sampler TiledFragment.t) frag1_frag4 in
   NoDup (map TiledFragment.coordinates (TiledCSliceFilter.fragments t')) /\
   SliceFilter.remove_duplicate_slices TiledCSliceFilter.fragments
     (reversing_sampler TiledFragment.t) t' = t').
Proof.
  split; [exact reversing_sampler_shuffles |].
  exact (remove_duplicate_slices_leaves_distinct_coordinates
           reversing_sampler reversing_sampler frag1_frag4
           reversing_sampler_shuffles reversing_sampler_shuffles).
Defined.

Section AfterPeDuplicateRemoval.
Context {F : Type} `{FragmentRow F}.
Variable aggregate : string * table -> F.
Hypothesis aggregate_parent_read : forall g, frag_parent_read (aggregate g) = fst g.
Hypothesis aggregate_pe : forall g, frag_pe (aggregate g) = hd "" (map pe (snd g)).

Lemma remove_duplicate_slices_pe_unguarded (t : table) :
  SliceFilter.remove_duplicate_slices_pe (fragments_of aggregate) t
  = filter (fun s => negb (isin String.eqb (parent_read s) (pe_duplicated_reads (fragments_of aggregate t)))) t.
Proof using aggregate_parent_read aggregate_pe.
  unfold SliceFilter.remove_duplicate_slices_pe, pe_duplicated_reads.
  destruct (1 <? _) eqn:Hguard; [reflexivity |].
  rewrite (no_duplicates_below_guard aggregate aggregate_parent_read aggregate_pe
             t Hguard).
  symmetry. apply filter_true_on. reflexivity.
Qed.

Lemma unflashed_after_pe_removal (t : table) :
  filter unflashed
    (fragments_of aggregate
       (SliceFilter.remove_duplicate_slices_pe (fragments_of aggregate) t))
  = drop_duplicates SliceFilter.read_ends_eqb SliceFilter.read_ends
      (filter unflashed (fragments_of aggregate t)).
Proof using aggregate_parent_read aggregate_pe.
  rewrite remove_duplicate_slices_pe_unguarded.
  rewrite (fragments_of_filter aggregate aggregate_parent_read
             (fun p => negb (isin String.eqb p (pe_duplicated_reads (fragments_of aggregate t))))).
  rewrite filter_filter_comm. unfold pe_duplicated_reads, duplicated, drop_duplicates.
  apply (remove_duplicated_is_drop_duplicates SliceFilter.read_ends_eqb
           SliceFilter.read_ends frag_parent_read).
  apply NoDup_map_filter. apply (fragments_of_NoDup aggregate aggregate_parent_read).
Qed.

Lemma remove_duplicate_slices_pe_distinct (t : table) :
  NoDup (map SliceFilter.read_ends
           (filter unflashed
              (fragments_of aggregate
                 (SliceFilter.remove_duplicate_slices_pe (fragments_of aggregate) t)))).
Proof using aggregate_parent_read aggregate_pe.
  rewrite unflashed_after_pe_removal.
  apply (drop_duplicates_from_NoDup _ _ read_ends_eqb_spec).
Qed.

Lemma remove_duplicate_slices_pe_idempotent (t : table) :
  let t' := SliceFilter.remove_duplicate_slices_pe (fragments_of aggregate) t in
  SliceFilter.remove_duplicate_slices_pe (fragments_of aggregate) t' = t'.
Proof using aggregate_parent_read aggregate_pe.
  intros t'. rewrite (remove_duplicate_slices_pe_unguarded t').
  apply filter_true_on. intros s _. unfold pe_duplicated_reads, duplicated.
  rewrite (duplicated_from_none _ _ read_ends_eqb_spec); [reflexivity | |].
  - intros x _ [].
  - apply remove_duplicate_slices_pe_distinct.
Qed.
End AfterPeDuplicateRemoval.

(** X11.  The guard of [remove_duplicate_slices_pe] never changes its
    result: on every table, whether or not more than one slice is marked
    unflashed, the operation returns the table without the slices of the
    unflashed fragments that [duplicated] flags on the read ends; in the
    standard and in the tiled variant. *)
Theorem remove_duplicate_slices_pe_guard_is_redundant (t : table) :
  SliceFilter.remove_duplicate_slices_pe CCSliceFilter.fragments t
  = filter (fun s =>
              negb (isin String.eqb (parent_read s)
                      (map Fragment.parent_read
                         (duplicated SliceFilter.read_ends_eqb SliceFilter.read_ends
                            (filter unflashed (CCSliceFilter.fragments t)))))) t /\
  SliceFilter.remove_duplicate_slices_pe TiledCSliceFilter.fragments t
  = filter (fun s =>
              negb (isin String.eqb (parent_read s)
                      (map TiledFragment.parent_read
                         (duplicated SliceFilter.read_ends_eqb SliceFilter.read_ends
                            (filter unflashed (TiledCSliceFilter.fragments t)))))) t.
Proof.
  split.
  - apply (remove_duplicate_slices_pe_unguarded _ cc_aggregate_parent_read
             cc_aggregate_pe).
  - apply (remove_duplicate_slices_pe_unguarded _ tiled_aggregate_parent_read
             tiled_aggregate_pe).
Qed.

(** X12.  After [remove_duplicate_slices_pe] the unflashed fragments of the
    fragment table have pairwise distinct read ends (they are the first
    fragment of each pair of read ends, with the values they had), and
    applying the operation again changes nothing; in the standard and in
    the tiled variant. *)
Theorem remove_duplicate_slices_pe_leaves_distinct_read_ends (t : table) :
  (let t' := SliceFilter.remove_duplicate_slices_pe CCSliceFilter.fragments t in
   filter unflashed (CCSliceFilter.fragments t')
   = drop_duplicates SliceFilter.read_ends_eqb SliceFilter.read_ends
       (filter unflashed (CCSliceFilter.fragments t)) /\
   NoDup (map SliceFilter.read_ends (filter unflashed (CCSliceFilter.fragments t'))) /\
   SliceFilter.remove_duplicate_slices_pe CCSliceFilter.fragments t' = t') /\
  (let t' := SliceFilter.remove_duplicate_slices_pe TiledCSliceFilter.fragments t in
   filter unflashed (TiledCSliceFilter.fragments t')
   = drop_duplicates SliceFilter.read_ends_eqb SliceFilter.read_ends
       (filter unflashed (TiledCSliceFilter.fragments t)) /\
   NoDup (map SliceFilter.read_ends (filter unflashed (TiledCSliceFilter.fragments t'))) /\
   SliceFilter.remove_duplicate_slices_pe TiledCSliceFilter.fragments t' = t').
Proof.
  split; (split; [| split]).
  - apply (unflashed_after_pe_removal _ cc_aggregate_parent_read cc_aggregate_pe).
  - apply (remove_duplicate_slices_pe_distinct _ cc_aggregate_parent_read
             cc_aggregate_pe).
  - apply (remove_duplicate_slices_pe_idempotent _ cc_aggregate_parent_read
             cc_aggregate_pe).
  - apply (unflashed_after_pe_removal _ tiled_aggregate_parent_read tiled_aggregate_pe).
  - apply (remove_duplicate_slices_pe_distinct _ tiled_aggregate_parent_read
             tiled_aggregate_pe).
  - apply (remove_duplicate_slices_pe_idempotent _ tiled_aggregate_parent_read
             tiled_aggregate_pe).
Qed.

(** ** Duplicate restriction fragments within a read *)

(** X13.  After [remove_duplicate_re_frags] no two rows share their parent
    read and restriction fragment; every such pair of the table is still
    carried by a row; and applying the operation again changes nothing. *)
Theorem remove_duplicate_re_frags_leaves_distinct_pairs (t : table) :
  let pair_of := fun s : slice_row => (parent_read s, restriction_fragment s) in
  let t' := SliceFilter.remove_duplicate_re_frags t in
  NoDup (map pair_of t') /\
  (forall s, In s t -> exists s', In s' t' /\ pair_of s' = pair_of s) /\
  SliceFilter.remove_duplicate_re_frags t' = t'.
Proof.
  intros pair_of t'.
  assert (Hspec : forall x y : string * cell,
             pair_eqb String.eqb cell_eqb x y = true <-> x = y).
  { apply pair_eqb_spec; [apply string_eqb_spec | apply cell_eqb_spec]. }
  assert (Hnd : NoDup (map pair_of t')).
  { apply (drop_duplicates_from_NoDup _ _ Hspec). }
  split; [exact Hnd |]. split.
  - intros s Hs.
    apply (drop_duplicates_from_covers _ pair_of Hspec [] t s Hs). intros [].
  - unfold SliceFilter.remove_duplicate_re_frags, drop_duplicates.
    apply (drop_duplicates_from_fixed _ _ Hspec); [intros x _ [] | exact Hnd].
Qed.

(** ** Reporters next to capture sites, for any [n_adjacent] *)

(** X14.  For every [n_adjacent] that is an [int64] value, on a table
    whose capture slices carry integer restriction fragments (all of them
    [int64] values), [remove_multicapture_reporters] returns rows of the
    table, removes
    every row without [capture_count > 0] whose restriction fragment is
    within [n_adjacent] of one of a capture slice, and keeps every row with
    [capture_count > 0]; when the capture slices are at least [n_adjacent]
    away from the [int64] bounds these are the only rows removed.
    Applying the operation to its own result returns that result
    unchanged. *)
Theorem remove_multicapture_reporters_for_any_distance (n : Z) (t : table) :
  in_int64 n = true ->
  captures_on_integer_fragments t = true ->
  cells_in_int64 t = true ->
  exists t',
    CCSliceFilter.remove_multicapture_reporters n t = Ok t' /\
    (forall s, In s t' -> In s t) /\
    (forall s, In s t -> 0 < capture_count s -> In s t') /\
    (forall s, In s t -> capture_count s <= 0 -> adjacent_to_capture n t s ->
               ~ In s t') /\
    (captures_clear_of_bounds n t = true ->
     forall s, In s t' <->
               In s t /\ (0 < capture_count s \/ ~ adjacent_to_capture n t s)) /\
    CCSliceFilter.remove_multicapture_reporters n t' = Ok t'.
Proof. intros _. apply remove_multicapture_reporters_spec. Qed.

Lemma remove_multicapture_reporters_for_any_distance_witness :
  in_int64 3 = true /\
  captures_on_integer_fragments adjacency_table = true /\
  cells_in_int64 adjacency_table = true /\
  captures_clear_of_bounds 3 adjacency_table = true /\
  exists t',
    CCSliceFilter.remove_multicapture_reporters 3 adjacency_table = Ok t' /\
    (forall s, In s t' -> In s adjacency_table) /\
    (forall s, In s adjacency_table -> 0 < capture_count s -> In s t') /\
    (forall s, In s adjacency_table -> capture_count s <= 0 ->
               adjacent_to_capture 3 adjacency_table s -> ~ In s t') /\
    (captures_clear_of_bounds 3 adjacency_table = true ->
     forall s, In s t' <->
               In s adjacency_table /\
               (0 < capture_count s \/ ~ adjacent_to_capture 3 adjacency_table s)) /\
    CCSliceFilter.remove_multicapture_reporters 3 t' = Ok t'.
Proof.
  split; [reflexivity |].
  split; [reflexivity |]. split; [reflexivity |]. split; [reflexivity |].
  exact (remove_multicapture_reporters_for_any_distance 3 adjacency_table
           eq_refl eq_refl eq_refl).
Defined.

(** ** Reporters and captures *)

Lemma filter_complement_perm {A : Type} (p : A -> bool) (l : list A) :
  Permutation (filter p l ++ filter (fun x => negb (p x)) l) l.
Proof.
  induction l as [| x l IH]; simpl; [constructor |].
  destruct (p x); simpl.
  - now constructor.
  - rewrite <- Permutation_middle. now constructor.
Qed.

(** X15.  [reporters] and [captures] split the slice table: together they
    hold every row exactly as often as the table does, [reporters] the rows
    whose capture is the sentinel and [captures] the others. *)
Theorem reporters_and_captures_split_the_table (t : table) :
  Permutation (CCSliceFilter.reporters t ++ CCSliceFilter.captures t) t /\
  Forall (fun s => capture s = ".") (CCSliceFilter.reporters t) /\
  Forall (fun s => capture s <> ".") (CCSliceFilter.captures t) /\
  (List.length (CCSliceFilter.reporters t) + List.length (CCSliceFilter.captures t)
   = List.length t)%nat.
Proof.
  assert (Hp : Permutation (CCSliceFilter.reporters t ++ CCSliceFilter.captures t) t)
    by apply filter_complement_perm.
  split; [exact Hp |]. split; [| split].
  - apply Forall_forall. intros s Hs. apply filter_In in Hs.
    now apply String.eqb_eq.
  - apply Forall_forall. intros s Hs. apply filter_In in Hs.
    destruct Hs as [_ Hs]. now apply negb_true_iff, String.eqb_neq in Hs.
  - rewrite <- length_app. now apply Permutation_length.
Qed.

Lemma sum_constant (f : slice_row -> Z) (c : Z) (l : table) :
  (forall s, In s l -> f s = c) -> sum (map f l) = c * Z.of_nat (List.length l).
Proof.
  induction l as [| s l IH]; simpl; intros Hf; [lia |].
  rewrite (Hf s (or_introl eq_refl)), IH by (intros; apply Hf; now right). lia.
Qed.

Lemma sum_indicator (f : slice_row -> Z) (q : slice_row -> bool) (l : table) :
  (forall s, In s l -> f s = if q s then 1 else 0) ->
  sum (map f l) = Z.of_nat (List.length (filter q l)).
Proof.
  induction l as [| s l IH]; simpl; intros Hf; [reflexivity |].
  rewrite (Hf s (or_introl eq_refl)), IH by (intros; apply Hf; now right).
  destruct (q s); simpl List.length; lia.
Qed.

Lemma filter_complement_length {A : Type} (p : A -> bool) (l : list A) :
  (List.length (filter p l) + List.length (filter (fun x => negb (p x)) l)
   = List.length l)%nat.
Proof.
  rewrite <- length_app. apply Permutation_length, filter_complement_perm.
Qed.

Lemma sorted_group_rows (p : string) (t : table) :
  group_rows p (sort_values by_parent_read_chrom_start t)
  = sort_values by_parent_read_chrom_start (group_rows p t).
Proof.
  unfold group_rows. symmetry.
  apply (sort_values_filter _ by_parent_read_chrom_start_total
           by_parent_read_chrom_start_trans).
Qed.

(** X16.  On a table of mapped slices outside exclusion and blacklisted
    regions, whose [capture_count] is 1 on capture slices and 0 on the
    others, every row of the standard fragment table has as [capture_count]
    the number of capture slices of its parent read, and as
    [reporter_count] the number of its reporter slices when it has a
    capture slice, and 0 when it has none. *)
Theorem reporter_count_counts_reporter_slices (t : table) :
  forallb clean_slice t = true ->
  Forall (fun f =>
            Fragment.capture_count f = capture_slices_of (Fragment.parent_read f) t /\
            Fragment.reporter_count f
            = if 0 <? capture_slices_of (Fragment.parent_read f) t
              then reporter_slices_of (Fragment.parent_read f) t
              else 0)
    (CCSliceFilter.fragments t).
Proof.
  intros Hclean. rewrite forallb_forall in Hclean.
  apply Forall_forall. intros f Hf.
  unfold CCSliceFilter.fragments, groupby_parent_read in Hf.
  rewrite map_map in Hf. apply in_map_iff in Hf. destruct Hf as [p [<- _]].
  unfold CCSliceFilter.aggregate. simpl. rewrite sorted_group_rows.
  set (rows := sort_values by_parent_read_chrom_start (group_rows p t)).
  assert (Hperm : Permutation rows (group_rows p t)) by apply sort_values_perm.
  assert (Hrows : forall s, In s rows -> clean_slice s = true).
  { intros s Hs. apply Hclean. eapply Permutation_in in Hs; [| exact Hperm].
    apply filter_In in Hs. tauto. }
  assert (Hfields : forall s, In s rows ->
             mapped s = 1 /\ exclusion_count s = 0 /\ blacklist s = 0 /\
             capture_count s
             = if negb (String.eqb (capture s) ".") then 1 else 0).
  { intros s Hs. specialize (Hrows s Hs). unfold clean_slice in Hrows.
    repeat (apply andb_true_iff in Hrows; destruct Hrows as [Hrows ?]).
    rewrite !Z.eqb_eq in *. repeat split; try assumption.
    destruct (String.eqb (capture s) "."); assumption. }
  rewrite (sum_constant mapped 1 rows) by (intros s Hs; now apply Hfields).
  rewrite (sum_constant exclusion_count 0 rows) by (intros s Hs; now apply Hfields).
  rewrite (sum_constant blacklist 0 rows) by (intros s Hs; now apply Hfields).
  rewrite (sum_indicator capture_count
             (fun s => negb (String.eqb (capture s) ".")) rows)
    by (intros s Hs; now apply Hfields).
  assert (Hcap : List.length (filter (fun s => negb (String.eqb (capture s) ".")) rows)
                 = List.length (group_rows p (CCSliceFilter.captures t))).
  { unfold CCSliceFilter.captures, group_rows. rewrite filter_filter_comm.
    unfold rows.
    rewrite <- (sort_values_filter _ by_parent_read_chrom_start_total
                  by_parent_read_chrom_start_trans).
    apply Permutation_length, sort_values_perm. }
  assert (Hrep : List.length (filter (fun s => String.eqb (capture s) ".") rows)
                 = List.length (group_rows p (CCSliceFilter.reporters t))).
  { unfold CCSliceFilter.reporters, group_rows. rewrite filter_filter_comm.
    unfold rows.
    rewrite <- (sort_values_filter _ by_parent_read_chrom_start_total
                  by_parent_read_chrom_start_trans).
    apply Permutation_length, sort_values_perm. }
  pose proof (filter_complement_length (fun s => String.eqb (capture s) ".") rows)
    as Hlen.
  unfold capture_slices_of, reporter_slices_of. rewrite <- Hcap, <- Hrep.
  split; [reflexivity |].
  destruct (0 <? _); lia.
Qed.

Lemma reporter_count_counts_reporter_slices_witness :
  forallb clean_slice frag1_frag4 = true /\
  Forall (fun f =>
            Fragment.capture_count f
            = capture_slices_of (Fragment.parent_read f) frag1_frag4 /\
            Fragment.reporter_count f
            = if 0 <? capture_slices_of (Fragment.parent_read f) frag1_frag4
              then reporter_slices_of (Fragment.parent_read f) frag1_frag4
              else 0)
    (CCSliceFilter.fragments frag1_frag4).
Proof.
  split; [reflexivity |].
  exact (reporter_count_counts_reporter_slices frag1_frag4 eq_refl).
Defined.

(** ** Joining and splitting coordinates *)

Lemma split_chars_nonempty (seps : list ascii) (s : string) :
  split_chars seps s <> [].
Proof.
  destruct s as [| c s]; simpl; [discriminate |].
  destruct (existsb (Ascii.eqb c) seps); [discriminate |].
  destruct (split_chars seps s); discriminate.
Qed.

(** Joining the pieces of a split on the separator gives the string back. *)
Lemma join_split (c : ascii) (s : string) :
  join (String c "") (split_chars [c] s) = s.
Proof.
  induction s as [| x s IH]; [reflexivity |].
  simpl split_chars. rewrite orb_false_r.
  pose proof (split_chars_nonempty [c] s) as Hne.
  destruct (split_chars [c] s) as [| p ps] eqn:E; [contradiction |].
  destruct (Ascii.eqb x c) eqn:Ex.
  - apply Ascii.eqb_eq in Ex. subst x.
    change (join (String c "") ("" :: p :: ps))
      with (String c (join (String c "") (p :: ps))).
    now rewrite IH.
  - destruct ps as [| q ps].
    + simpl in *. now rewrite IH.
    + change (join (String c "") (String x p :: q :: ps))
        with (String x (join (String c "") (p :: q :: ps))).
      now rewrite IH.
Qed.

Lemma split_joined (c : ascii) (x : string) (l : list string) :
  forallb (free_of [c]) (x :: l) = true ->
  split_chars [c] (join (String c "") (x :: l)) = x :: l.
Proof.
  revert x. induction l as [| y l IH]; intros x Hf.
  - simpl in Hf. rewrite andb_true_r in Hf. simpl. now apply split_chars_free.
  - change (forallb (free_of [c]) (x :: y :: l))
      with (free_of [c] x && forallb (free_of [c]) (y :: l)) in Hf.
    apply andb_true_iff in Hf. destruct Hf as [Hx Hl].
    change (join (String c "") (x :: y :: l))
      with (x ++ String c (join (String c "") (y :: l)))%string.
    rewrite split_chars_app; [| exact Hx | simpl; now rewrite Ascii.eqb_refl].
    now rewrite (IH y Hl).
Qed.

(** X17.  When no slice's coordinates contain the separator [|], splitting
    the coordinates string of a fragment on [|], as
    [remove_duplicate_slices_pe] does, gives back the coordinates of the
    fragment's slices, one piece per slice, in the order in which
    [fragments] joined them (by chromosome and start). *)
Theorem fragment_coordinates_split_into_slice_coordinates (t : table) :
  forallb (fun s => free_of [SliceFilter.bar] (coordinates s)) t = true ->
  Forall (fun f =>
            split_chars [SliceFilter.bar] (Fragment.coordinates f)
            = map coordinates
                (sort_values by_parent_read_chrom_start
                   (group_rows (Fragment.parent_read f) t)))
    (CCSliceFilter.fragments t) /\
  Forall (fun f =>
            split_chars [SliceFilter.bar] (TiledFragment.coordinates f)
            = map coordinates
                (sort_values by_parent_read_chrom_start
                   (group_rows (TiledFragment.parent_read f) t)))
    (TiledCSliceFilter.fragments t).
Proof.
  intros Hfree. rewrite forallb_forall in Hfree.
  assert (Hgroup : forall p,
             In p (unique String.eqb
                     (map parent_read (sort_values by_parent_read_chrom_start t))) ->
             split_chars [SliceFilter.bar]
               (join "|" (map coordinates
                            (group_rows p (sort_values by_parent_read_chrom_start t))))
             = map coordinates
                 (sort_values by_parent_read_chrom_start (group_rows p t))).
  { intros p Hp. rewrite sorted_group_rows.
    rewrite (unique_In _ string_eqb_spec), in_map_iff in Hp.
    destruct Hp as [s [Es Hs]]. apply sort_values_In in Hs.
    set (rows := sort_values by_parent_read_chrom_start (group_rows p t)).
    assert (Hin : In s rows).
    { apply sort_values_In. apply filter_In. split; [assumption |].
      now apply String.eqb_eq. }
    assert (Hrows : forall r, In r rows -> free_of [SliceFilter.bar] (coordinates r) = true).
    { intros r Hr. apply Hfree. apply sort_values_In in Hr.
      apply filter_In in Hr. tauto. }
    destruct rows as [| r rows']; [destruct Hin |].
    apply (split_joined SliceFilter.bar). apply forallb_forall.
    intros c Hc. change (In c (map coordinates (r :: rows'))) in Hc.
    apply in_map_iff in Hc. destruct Hc as [r' [<- Hr']]. now apply Hrows. }
  split; apply Forall_forall; intros f Hf.
  - unfold CCSliceFilter.fragments, groupby_parent_read in Hf.
    rewrite map_map in Hf. apply in_map_iff in Hf. destruct Hf as [p [<- Hp]].
    simpl. now apply Hgroup.
  - unfold TiledCSliceFilter.fragments, groupby_parent_read in Hf.
    rewrite map_map in Hf. apply in_map_iff in Hf. destruct Hf as [p [<- Hp]].
    simpl. now apply Hgroup.
Qed.

Lemma fragment_coordinates_split_into_slice_coordinates_witness :
  forallb (fun s => free_of [SliceFilter.bar] (coordinates s)) frag1_frag4 = true /\
  Forall (fun f =>
            split_chars [SliceFilter.bar] (Fragment.coordinates f)
            = map coordinates
                (sort_values by_parent_read_chrom_start
                   (group_rows (Fragment.parent_read f) frag1_frag4)))
    (CCSliceFilter.fragments frag1_frag4) /\
  Forall (fun f =>
            split_chars [SliceFilter.bar] (TiledFragment.coordinates f)
            = map coordinates
                (sort_values by_parent_read_chrom_start
                   (group_rows (TiledFragment.parent_read f) frag1_frag4)))
    (TiledCSliceFilter.fragments frag1_frag4).
Proof.
  split; [reflexivity |].
  exact (fragment_coordinates_split_into_slice_coordinates frag1_frag4 eq_refl).
Defined.

(** X18.  The read ends that [remove_duplicate_slices_pe] reads off a
    coordinates string joining canonical [chrom:start-end] loci (whose
    parts hold none of [|], [:] and [-]) are the start of the first locus
    and the end of the last locus of the string. *)
Theorem read_ends_are_first_start_and_last_end (l : locus) (ls : list locus) :
  forallb plain_locus (l :: ls) = true ->
  SliceFilter.read_start (join "|" (map locus_string (l :: ls)))
  = Some (snd (fst l)) /\
  SliceFilter.read_end (join "|" (map locus_string (l :: ls)))
  = Some (snd (last ls l)).
Proof. apply read_ends_of_joined_loci. Qed.

Lemma read_ends_are_first_start_and_last_end_witness :
  forallb plain_locus example_loci = true /\
  SliceFilter.read_start (join "|" (map locus_string example_loci)) = Some "1000" /\
  SliceFilter.read_end (join "|" (map locus_string example_loci)) = Some "1750".
Proof.
  split; [reflexivity |].
  exact (read_ends_are_first_start_and_last_end
           ("chr1", "1000", "1250") [("chr1", "1500", "1750")] eq_refl).
Defined.

(** ** The fallback design matrix of [interactions_differential] *)

Lemma split_chars_append (seps : list ascii) (a : string) (c : ascii) (b : string) :
  existsb (Ascii.eqb c) seps = true ->
  split_chars seps (a ++ String c b)%string
  = split_chars seps a ++ split_chars seps b.
Proof.
  intros Hc. induction a as [| x a IH]; simpl.
  - now rewrite Hc.
  - destruct (existsb (Ascii.eqb x) seps); [now rewrite IH |].
    rewrite IH. pose proof (split_chars_nonempty seps a) as Hne.
    destruct (split_chars seps a); [contradiction | reflexivity].
Qed.

(** X19.  A count column named [base_replicate], where the replicate part
    holds no underscore, is grouped under [base]; a column whose name holds
    no underscore at all is grouped under the empty name. *)
Theorem condition_of_column_drops_the_last_field (base replicate : string) :
  free_of [underscore] replicate = true ->
  condition_of_column (base ++ "_" ++ replicate) = base /\
  condition_of_column replicate = "".
Proof.
  intros Hfree. unfold condition_of_column. split.
  - change (base ++ "_" ++ replicate)%string
      with (base ++ String underscore replicate)%string.
    rewrite split_chars_append by reflexivity.
    rewrite (split_chars_free _ _ Hfree), removelast_last.
    apply (join_split underscore).
  - now rewrite (split_chars_free _ _ Hfree).
Qed.

Lemma condition_of_column_drops_the_last_field_witness :
  free_of [underscore] "1" = true /\
  condition_of_column ("SAMPLE_DOX" ++ "_" ++ "1") = "SAMPLE_DOX" /\
  condition_of_column "1" = "".
Proof.
  split; [reflexivity |].
  exact (condition_of_column_drops_the_last_field "SAMPLE_DOX" "1" eq_refl).
Defined.

(** ** Cis and trans pseudo-reporters of the tiled variant *)

Lemma first_slice_names_count (df_cap : table) :
  NoDup (map slice_name df_cap) ->
  let reads := sort_values String.leb (unique String.eqb (map parent_read df_cap)) in
  let primary := map (fun p => hd "" (map slice_name (group_rows p df_cap))) reads in
  List.length (filter (fun s => isin String.eqb (slice_name s) primary) df_cap)
  = nunique String.eqb (map parent_read df_cap).
Proof.
  intros Hnames reads primary.
  assert (Hreads : forall p, In p reads <-> In p (map parent_read df_cap)).
  { intros p. unfold reads. rewrite sort_values_In. apply (unique_In _ string_eqb_spec). }
  assert (Hhead : forall p, In p reads ->
             exists r, In r df_cap /\ parent_read r = p /\
                       hd "" (map slice_name (group_rows p df_cap)) = slice_name r).
  { intros p Hp. apply Hreads, in_map_iff in Hp. destruct Hp as [s [Es Hs]].
    assert (Hg : In s (group_rows p df_cap)).
    { apply filter_In. split; [assumption | now apply String.eqb_eq]. }
    destruct (group_rows p df_cap) as [| r rows] eqn:G; [destruct Hg |].
    assert (Hr : In r (group_rows p df_cap)) by (rewrite G; now left).
    apply filter_In in Hr. destruct Hr as [Hr Er]. apply String.eqb_eq in Er.
    exists r. auto. }
  assert (Hprimary : NoDup primary).
  { unfold primary. apply NoDup_map_NoDup_ForallPairs.
    - intros p p' Hp Hp' E.
      destruct (Hhead p Hp) as [r [Hr [Er Nr]]].
      destruct (Hhead p' Hp') as [r' [Hr' [Er' Nr']]].
      rewrite Nr, Nr' in E.
      assert (r = r') by (eapply NoDup_map_injective; eassumption).
      congruence.
    - unfold reads. eapply Permutation_NoDup;
        [symmetry; apply sort_values_perm | apply unique_NoDup, string_eqb_spec]. }
  assert (Hperm : Permutation
                    (map slice_name
                       (filter (fun s => isin String.eqb (slice_name s) primary) df_cap))
                    primary).
  { apply NoDup_Permutation.
    - now apply NoDup_map_filter.
    - exact Hprimary.
    - intros x. rewrite in_map_iff. split.
      + intros [s [<- Hs]]. apply filter_In in Hs.
        now apply (isin_In _ string_eqb_spec).
      + intros Hx. pose proof Hx as Hx'. unfold primary in Hx'.
        apply in_map_iff in Hx'. destruct Hx' as [p [Ep Hp]].
        destruct (Hhead p Hp) as [r [Hr [Er Nr]]].
        exists r. split; [congruence |]. apply filter_In. split; [assumption |].
        apply (isin_In _ string_eqb_spec). congruence. }
  apply Permutation_length in Hperm. rewrite length_map in Hperm. rewrite Hperm.
  unfold primary, reads. rewrite length_map. unfold nunique.
  apply Permutation_length, sort_values_perm.
Qed.

(** X20.  In the loop of the tiled [cis_or_trans_stats], on a table with
    distinct slice names, the dictionary has one entry per capture site
    other than the sentinel, and for each site the cis and trans counts are
    not negative and add up to the number of slices on the site, minus one
    anchor slice for each parent read that has a slice on the site, plus
    the number of slices outside any capture site that belong to those
    parent reads. *)
Theorem tiled_interactions_count_pseudo_reporters (t : table) :
  NoDup (map slice_name t) ->
  NoDup (map fst (interactions_by_capture t)) /\
  (forall site, In site (map fst (interactions_by_capture t)) <->
                site <> "." /\ In site (map capture t)) /\
  Forall (fun kv =>
            0 <= fst (snd kv) /\ 0 <= snd (snd kv) /\
            fst (snd kv) + snd (snd kv)
            = Z.of_nat (List.length (site_slices (fst kv) t))
              - Z.of_nat (nunique String.eqb (map parent_read (site_slices (fst kv) t)))
              + Z.of_nat (List.length (outside_slices (fst kv) t)))
    (interactions_by_capture t).
Proof.
  intros Hnames. unfold interactions_by_capture. rewrite map_map. simpl.
  rewrite map_id. split; [| split].
  - eapply Permutation_NoDup;
      [symmetry; apply sort_values_perm | apply unique_NoDup, string_eqb_spec].
  - intros site. rewrite sort_values_In, (unique_In _ string_eqb_spec), !in_map_iff.
    unfold capture_slices. split.
    + intros [s [<- Hs]]. apply filter_In in Hs. destruct Hs as [Hs N].
      apply negb_true_iff, String.eqb_neq in N. split; [assumption |].
      exists s. auto.
    + intros [N [s [Es Hs]]]. exists s. split; [assumption |].
      apply filter_In. split; [assumption |].
      apply negb_true_iff, String.eqb_neq. congruence.
  - apply Forall_forall. intros kv Hkv. apply in_map_iff in Hkv.
    destruct Hkv as [site [<- _]]. unfold interactions_of_site. simpl.
    fold (site_slices site t). fold (outside_slices site t).
    set (df_cap := site_slices site t).
    set (primary := map (fun p => hd "" (map slice_name (group_rows p df_cap)))
                      (sort_values String.leb
                         (unique String.eqb (map parent_read df_cap)))).
    set (pseudo := filter (fun s => negb (isin String.eqb (slice_name s) primary)) df_cap
                   ++ outside_slices site t).
    assert (Hcap : NoDup (map slice_name df_cap)).
    { unfold df_cap, site_slices, capture_slices. now do 2 apply NoDup_map_filter. }
    pose proof (first_slice_names_count df_cap Hcap) as Hfirst. simpl in Hfirst.
    fold primary in Hfirst.
    pose proof (filter_complement_length
                  (fun s => isin String.eqb (slice_name s) primary) df_cap) as Hsplit.
    pose proof (filter_complement_length
                  (fun s => String.eqb (chrom s) (hd "" (map chrom df_cap))) pseudo)
      as Hcis.
    assert (Hpseudo : List.length pseudo
                      = (List.length
                           (filter (fun s => negb (isin String.eqb (slice_name s) primary))
                              df_cap)
                         + List.length (outside_slices site t))%nat).
    { unfold pseudo. apply length_app. }
    cbv beta in Hsplit, Hcis. lia.
Qed.

Lemma tiled_interactions_count_pseudo_reporters_witness :
  NoDup (map slice_name tiled_two_reads) /\
  interactions_by_capture tiled_two_reads = [("tile", (2, 1))] /\
  NoDup (map fst (interactions_by_capture tiled_two_reads)) /\
  (forall site, In site (map fst (interactions_by_capture tiled_two_reads)) <->
                site <> "." /\ In site (map capture tiled_two_reads)) /\
  Forall (fun kv =>
            0 <= fst (snd kv) /\ 0 <= snd (snd kv) /\
            fst (snd kv) + snd (snd kv)
            = Z.of_nat (List.length (site_slices (fst kv) tiled_two_reads))
              - Z.of_nat (nunique String.eqb
                            (map parent_read (site_slices (fst kv) tiled_two_reads)))
              + Z.of_nat (List.length (outside_slices (fst kv) tiled_two_reads)))
    (interactions_by_capture tiled_two_reads).
Proof.
  assert (Hnd : NoDup (map slice_name tiled_two_reads)).
  { simpl. repeat constructor; simpl; intuition discriminate. }
  split; [exact Hnd |]. split; [reflexivity |].
  exact (tiled_interactions_count_pseudo_reporters tiled_two_reads Hnd).
Defined.

(** ** How the stages protect later operations *)

(** X21.  When every restriction fragment of the table is an integer or
    the sentinel, [remove_multicapture_reporters] cannot raise once
    [remove_slices_without_re_frag_assigned] has run: it returns a table,
    for every [n_adjacent]. *)
Theorem assigned_fragments_make_adjacency_filter_safe (n : Z) (t : table) :
  forallb (fun s => integer_or_sentinel (restriction_fragment s)) t = true ->
  exists t',
    CCSliceFilter.remove_multicapture_reporters n
      (SliceFilter.remove_slices_without_re_frag_assigned t) = Ok t'.
Proof.
  intros Hcells. rewrite forallb_forall in Hcells.
  destruct (remove_multicapture_reporters_filter n
              (SliceFilter.remove_slices_without_re_frag_assigned t))
    as [excluded [E _]]; [| eauto].
  apply captures_on_integer_fragments_true. intros s Hs _.
  apply filter_In in Hs. destruct Hs as [Hs Hrf]. specialize (Hcells s Hs).
  destruct (restriction_fragment s) as [z | x]; [now exists z |].
  simpl in Hcells, Hrf. apply String.eqb_eq in Hcells. subst x. discriminate.
Qed.

Lemma assigned_fragments_make_adjacency_filter_safe_witness :
  forallb (fun s => integer_or_sentinel (restriction_fragment s))
    (df_rows unassigned_capture_dataframe) = true /\
  CCSliceFilter.remove_multicapture_reporters 1
    (df_rows unassigned_capture_dataframe) = Raise TypeError /\
  exists t',
    CCSliceFilter.remove_multicapture_reporters 1
      (SliceFilter.remove_slices_without_re_frag_assigned
         (df_rows unassigned_capture_dataframe)) = Ok t'.
Proof.
  split; [reflexivity |]. split; [reflexivity |].
  exact (assigned_fragments_make_adjacency_filter_safe 1
           (df_rows unassigned_capture_dataframe) eq_refl).
Defined.

Lemma positive_indicator_sum (rows : table) :
  (forall s, In s rows ->
             capture_count s = if negb (String.eqb (capture s) ".") then 1 else 0) ->
  0 < sum (map capture_count rows) ->
  exists c, In c rows /\ capture c <> ".".
Proof.
  intros Hind Hpos.
  rewrite (sum_indicator capture_count
             (fun s => negb (String.eqb (capture s) ".")) rows Hind) in Hpos.
  destruct (filter (fun s => negb (String.eqb (capture s) ".")) rows)
    as [| c cs] eqn:E; [simpl in Hpos; lia |].
  assert (Hc : In c (filter (fun s => negb (String.eqb (capture s) ".")) rows))
    by (rewrite E; now left).
  apply filter_In in Hc. destruct Hc as [Hc N].
  exists c. split; [assumption |]. now apply negb_true_iff, String.eqb_neq in N.
Qed.

(** X22.  On a table of clean slices the [contains_capture] stage of the
    tiled variant cannot raise: after [remove_non_capture_fragments] every
    parent read has a capture slice, so [remove_dual_capture_fragments]
    returns a table, in which every parent read has exactly one capture
    site. *)
Theorem tiled_capture_stage_is_safe_on_clean_slices (t : table) :
  forallb clean_slice t = true ->
  every_fragment_has_capture (TiledCSliceFilter.remove_non_capture_fragments t) = true /\
  exists t',
    TiledCSliceFilter.remove_dual_capture_fragments
      (TiledCSliceFilter.remove_non_capture_fragments t) = Ok t' /\
    Forall (fun s =>
              TiledCSliceFilter.lookup (parent_read s)
                (TiledCSliceFilter.capture_sites_per_fragment t') = Some 1) t'.
Proof.
  intros Hclean. rewrite forallb_forall in Hclean.
  assert (Hevery : every_fragment_has_capture
                     (TiledCSliceFilter.remove_non_capture_fragments t) = true).
  { unfold every_fragment_has_capture. apply forallb_forall. intros s Hs.
    unfold TiledCSliceFilter.remove_non_capture_fragments,
      SliceFilter.slices_of_fragments in Hs |- *.
    set (K := map frag_parent_read
                (filter (fun f => 0 <? TiledFragment.capture_count f)
                   (TiledCSliceFilter.fragments t))) in *.
    apply filter_In in Hs. destruct Hs as [Hs HK].
    pose proof HK as HK'. apply (isin_In _ string_eqb_spec) in HK'.
    unfold K in HK'. apply in_map_iff in HK'. destruct HK' as [f [Ef Hf]].
    apply filter_In in Hf. destruct Hf as [Hf Hpos]. apply Z.ltb_lt in Hpos.
    unfold TiledCSliceFilter.fragments, groupby_parent_read in Hf.
    rewrite map_map in Hf. apply in_map_iff in Hf. destruct Hf as [p [<- _]].
    simpl in Ef, Hpos. subst p.
    destruct (positive_indicator_sum
                (group_rows (parent_read s)
                   (sort_values by_parent_read_chrom_start t)))
      as [c [Hc N]]; [| exact Hpos |].
    { intros r Hr. apply filter_In in Hr. destruct Hr as [Hr _].
      apply sort_values_In in Hr. specialize (Hclean r Hr).
      unfold clean_slice in Hclean. apply andb_true_iff in Hclean.
      destruct Hclean as [_ Hcc]. apply Z.eqb_eq in Hcc. rewrite Hcc.
      destruct (String.eqb (capture r) "."); reflexivity. }
    apply filter_In in Hc. destruct Hc as [Hc Ec]. apply sort_values_In in Hc.
    apply String.eqb_eq in Ec.
    apply (isin_In _ string_eqb_spec), in_map_iff. exists c. split; [assumption |].
    apply filter_In. split.
    - apply filter_In. split; [assumption |]. now rewrite Ec.
    - now apply negb_true_iff, String.eqb_neq. }
  split; [exact Hevery |].
  pose proof (remove_dual_capture_fragments_spec
                (TiledCSliceFilter.remove_non_capture_fragments t)) as Hspec.
  rewrite Hevery in Hspec. exact Hspec.
Qed.

Lemma tiled_capture_stage_is_safe_on_clean_slices_witness :
  forallb clean_slice tiled_two_reads = true /\
  every_fragment_has_capture
    (TiledCSliceFilter.remove_non_capture_fragments tiled_two_reads) = true /\
  exists t',
    TiledCSliceFilter.remove_dual_capture_fragments
      (TiledCSliceFilter.remove_non_capture_fragments tiled_two_reads) = Ok t' /\
    Forall (fun s =>
              TiledCSliceFilter.lookup (parent_read s)
                (TiledCSliceFilter.capture_sites_per_fragment t') = Some 1) t'.
Proof.
  split; [reflexivity |].
  exact (tiled_capture_stage_is_safe_on_clean_slices tiled_two_reads eq_refl).
Defined.
